(** * Transaction synchronisation and categorisation engine

    A shallow embedding of the server of plaid-fire-react
    (server/server.js and its route modules) and the properties of its
    sync, categorisation, budget and account-deletion handlers.

    Conventions of the embedding.
    - A Firestore collection is a finite map from document ids to
      documents ([gmap string _]); a query snapshot enumerates it in
      ascending document-id order.
    - A document is a record of optional fields: a field is absent (a read
      gives JavaScript's [undefined]), [null], or holds a value.
    - JavaScript numbers are IEEE 754 binary64 values ([PrimFloat.float]).
    - Strings are sequences of 8-bit characters and stand for ASCII
      text; on such text [toLowerCase] folds the letters A to Z and
      nothing else, as JavaScript does.  Text with other letters is
      outside the embedding.
    - A document id is a non-empty string without a slash.  The ids of
      the provider's data are checked as [doc()] checks them, which
      throws for any other string; the ids that a request names are
      taken to be document ids.
    - A handler runs in a small state-and-exception monad over the
      database, the server clock and the outcomes of the store writes.
      Every [await]ed write is one request that the store applies as a
      whole or rejects as a whole; reads are taken to succeed (a failing
      read would end the request with a 500 answer and no further
      write). *)

From Stdlib Require Import ZArith Ascii String List Bool Floats.PrimFloat.
From stdpp Require Import base option list gmap strings fin_maps sorting.

(** ** JavaScript values and strings *)

(** A property of a document or of a JSON object. *)
Inductive field (A : Type) : Type :=
  | Absent
  | Null
  | Val (a : A).
Arguments Absent {A}.
Arguments Null {A}.
Arguments Val {A} a.

#[global] Instance field_eq_dec {A} `{EqDecision A} : EqDecision (field A).
Proof. solve_decision. Defined.

(** [x || null] on a string-valued property: [undefined], [null] and the
    empty string are falsy. *)
Definition or_null (x : field string) : option string :=
  match x with
  | Val s => if String.eqb s "" then None else Some s
  | _ => None
  end.

(** [x || ''] on a string-valued property. *)
Definition or_empty (x : field string) : string :=
  match x with
  | Val s => s
  | _ => ""
  end.

(** The text a template literal [`${x}`] substitutes for a property. *)
Definition template (x : field string) : string :=
  match x with
  | Absent => "undefined"
  | Null => "null"
  | Val s => s
  end.

(** The value stored for the JavaScript expression [x] of type
    [string | null]. *)
Definition of_option {A} (x : option A) : field A :=
  match x with
  | Some a => Val a
  | None => Null
  end.

Definition lower_ascii (c : ascii) : ascii :=
  let n := nat_of_ascii c in
  if (65 <=? n)%nat && (n <=? 90)%nat then ascii_of_nat (n + 32) else c.

(** [String.prototype.toLowerCase] on ASCII text: the letters A to Z
    are folded, every other character is left as it is. *)
Fixpoint toLowerCase (s : string) : string :=
  match s with
  | EmptyString => EmptyString
  | String c s' => String (lower_ascii c) (toLowerCase s')
  end.

(** [s.startsWith(k)]. *)
Fixpoint startsWith (s k : string) {struct k} : bool :=
  match k, s with
  | EmptyString, _ => true
  | String _ _, EmptyString => false
  | String a k', String b s' => Ascii.eqb a b && startsWith s' k'
  end.

(** [s.includes(k)]: [k] occurs in [s] as a contiguous substring. *)
Fixpoint includes (s k : string) : bool :=
  startsWith s k ||
  match s with
  | EmptyString => false
  | String _ s' => includes s' k
  end.

(** ** Categories *)

Definition time := Z.

Module Category.
(** A category document (collection [users/{uid}/categories]): the
    properties the server reads or writes.  [POST /budgets] stores the
    categories of its request as they come, a property [id] included. *)
Record doc : Type := mkDoc {
  name : field string;
  amount : field float;
  keywords : field (list string);
  budgetId : field string;
  color : field string;
  createdAt : field time;
  updatedAt : field time;
  own_id : field string;   (* a property [id] of the document itself *)
}.

(** A category object [{ id, ...data }] of the loops: its [id] and the
    properties of the document. *)
Record t : Type := mk {
  id : field string;
  data : doc;
}.

(** [{ id: id, ...data }]: the properties of [data] are spread after
    [id], so a property [id] that the document stores itself replaces
    the given one. *)
Definition of_doc (id : string) (data : doc) : t :=
  mk (match own_id data with
      | Absent => Val id
      | own => own
      end)
     data.
End Category.

(** [category.keywords && category.keywords.length > 0]: the keywords
    the loops iterate, none when the guard fails. *)
Definition guarded_keywords (c : Category.t) : list string :=
  match Category.keywords (Category.data c) with
  | Val ks => ks
  | _ => []
  end.

(** [findCategoryByKeywords] of [recategorizeAllTransactions] and of the
    sync handlers. *)
Definition findCategoryByKeywords (categories : list Category.t)
    (transactionName merchantName : field string) : option Category.t :=
  let searchText :=
    toLowerCase (template transactionName +:+ " " +:+ or_empty merchantName) in
  List.find
    (fun category =>
       existsb (fun keyword => includes searchText (toLowerCase keyword))
               (guarded_keywords category))
    categories.

(** The static table [plaidMappings], in insertion order. *)
Definition plaidMappings : list (string * list string) :=
  [ ("FOOD_AND_DRINK", ["food"; "restaurant"; "dining"; "grocery"]);
    ("TRANSPORTATION", ["gas"; "uber"; "lyft"; "transit"; "parking"]);
    ("ENTERTAINMENT", ["movie"; "theater"; "concert"; "game"]);
    ("SHOPPING", ["amazon"; "store"; "retail"; "mall"]);
    ("BILLS_AND_UTILITIES",
       ["utility"; "electric"; "water"; "internet"; "phone"]);
    ("HEALTHCARE", ["medical"; "doctor"; "pharmacy"; "hospital"]);
    ("EDUCATION", ["school"; "tuition"; "book"; "course"]);
    ("TRAVEL", ["hotel"; "flight"; "vacation"; "trip"]) ].

(** The inner two loops of [findCategoryByPlaidCategory] for one bucket:
    the first category with a keyword that contains a generic
    sub-keyword of the bucket. *)
Definition bucket_category (categories : list Category.t)
    (keywords : list string) : option Category.t :=
  List.find
    (fun category =>
       existsb (fun keyword =>
                  existsb (fun k => includes (toLowerCase keyword) k) keywords)
               (guarded_keywords category))
    categories.

(** The outer loop over the entries of the mapping table. *)
Fixpoint scan_buckets (categories : list Category.t) (pfCategory : string)
    (mappings : list (string * list string)) : option Category.t :=
  match mappings with
  | [] => None
  | (plaidCat, keywords) :: rest =>
      if includes pfCategory plaidCat then
        match bucket_category categories keywords with
        | Some category => Some category
        | None => scan_buckets categories pfCategory rest
        end
      else scan_buckets categories pfCategory rest
  end.

(** [findCategoryByPlaidCategory]. *)
Definition findCategoryByPlaidCategory (categories : list Category.t)
    (pfCategory : field string) : option Category.t :=
  match or_null pfCategory with
  | None => None
  | Some pf => scan_buckets categories pf plaidMappings
  end.

(** The two-stage assignment both the reconciliation loop and the sync
    loop perform for one transaction. *)
Definition assign_category (categories : list Category.t)
    (name merchant_name pf_category : field string) : option Category.t :=
  match findCategoryByKeywords categories name merchant_name with
  | Some category => Some category
  | None => findCategoryByPlaidCategory categories pf_category
  end.

(** ** Documents and collections *)

(** A write with merge semantics keeps every field the new data does not
    mention. *)
Definition merge_field {A} (new old : field A) : field A :=
  match new with
  | Absent => old
  | _ => new
  end.

Module Tx.
(** A transaction document (collection [users/{uid}/transactions]),
    keyed by the provider's [transaction_id]. *)
Record doc : Type := mk {
  transaction_id : field string;
  account_id : field string;
  date : field string;
  name : field string;
  merchant_name : field string;
  city : field string;
  amount : field float;
  outflow : field float;
  inflow : field float;
  currency : field string;
  pending : field bool;
  pf_category : field string;
  category : field string;
  categoryName : field string;
  updatedAt : field time;
  removed : field bool;
}.

Definition empty : doc :=
  mk Absent Absent Absent Absent Absent Absent Absent Absent
     Absent Absent Absent Absent Absent Absent Absent Absent.

Definition merge (data old : doc) : doc :=
  {| transaction_id := merge_field (transaction_id data) (transaction_id old);
     account_id := merge_field (account_id data) (account_id old);
     date := merge_field (date data) (date old);
     name := merge_field (name data) (name old);
     merchant_name := merge_field (merchant_name data) (merchant_name old);
     city := merge_field (city data) (city old);
     amount := merge_field (amount data) (amount old);
     outflow := merge_field (outflow data) (outflow old);
     inflow := merge_field (inflow data) (inflow old);
     currency := merge_field (currency data) (currency old);
     pending := merge_field (pending data) (pending old);
     pf_category := merge_field (pf_category data) (pf_category old);
     category := merge_field (category data) (category old);
     categoryName := merge_field (categoryName data) (categoryName old);
     updatedAt := merge_field (updatedAt data) (updatedAt old);
     removed := merge_field (removed data) (removed old) |}.
End Tx.

Module Token.
(** The access credential [users/{uid}/private/plaid]. *)
Record doc : Type := mk {
  access_token : field string;
  item_id : field string;
  cursor : field string;
  lastSyncAt : field time;
  updatedAt : field time;
}.

Definition empty : doc := mk Absent Absent Absent Absent Absent.

Definition merge (data old : doc) : doc :=
  {| access_token := merge_field (access_token data) (access_token old);
     item_id := merge_field (item_id data) (item_id old);
     cursor := merge_field (cursor data) (cursor old);
     lastSyncAt := merge_field (lastSyncAt data) (lastSyncAt old);
     updatedAt := merge_field (updatedAt data) (updatedAt old) |}.
End Token.

Module Account.
(** An account document (collection [users/{uid}/accounts]). *)
Record doc : Type := mk {
  account_id : field string;
  name : field string;
  official_name : field string;
  mask : field string;
  subtype : field string;
  type : field string;
  institution_id : field string;
  institution_name : field string;
  institution_logo : field string;
  updatedAt : field time;
}.
End Account.

Module Budget.
(** A budget document (collection [users/{uid}/budgets]). *)
Record doc : Type := mk {
  name : field string;
  createdAt : field time;
  updatedAt : field time;
}.
End Budget.

Definition merge_category (data old : Category.doc) : Category.doc :=
  {| Category.name := merge_field (Category.name data) (Category.name old);
     Category.amount :=
       merge_field (Category.amount data) (Category.amount old);
     Category.keywords :=
       merge_field (Category.keywords data) (Category.keywords old);
     Category.budgetId :=
       merge_field (Category.budgetId data) (Category.budgetId old);
     Category.color := merge_field (Category.color data) (Category.color old);
     Category.createdAt :=
       merge_field (Category.createdAt data) (Category.createdAt old);
     Category.updatedAt :=
       merge_field (Category.updatedAt data) (Category.updatedAt old);
     Category.own_id :=
       merge_field (Category.own_id data) (Category.own_id old) |}.

Module Plaid.
(** A transaction as the provider's [transactionsSync] reports it. *)
Record transaction : Type := mkTransaction {
  transaction_id : string;
  account_id : string;
  date : string;
  name : field string;
  merchant_name : field string;
  location_city : field string;              (* [t.location?.city] *)
  amount : float;
  iso_currency_code : field string;
  pending : field bool;
  pfc_primary : field string;  (* [t.personal_finance_category?.primary] *)
}.

(** An entry of the [removed] list. *)
Record removed_transaction : Type := mkRemoved {
  removed_id : string;                        (* [r.transaction_id] *)
}.

(** [response.data] of one [transactionsSync] request. *)
Record page : Type := mkPage {
  added : list transaction;
  modified : list transaction;
  removed : list removed_transaction;
  next_cursor : string;
  has_more : bool;
}.
End Plaid.

(** The collections of one user ([users/{uid}/...]). *)
Record db : Type := mkDb {
  tokens : option Token.doc;
  accounts : gmap string Account.doc;
  transactions : gmap string Tx.doc;
  budgets : gmap string Budget.doc;
  categories : gmap string Category.doc;
}.

Fixpoint insert_by_id {A} (x : string * A) (l : list (string * A))
    : list (string * A) :=
  match l with
  | [] => [x]
  | y :: l' =>
      if String.leb (fst x) (fst y) then x :: y :: l'
      else y :: insert_by_id x l'
  end.

(** [snapshot.docs] of [collection.get()]: the documents in ascending
    order of their ids. *)
Definition docs_of {A} (col : gmap string A) : list (string * A) :=
  foldr insert_by_id [] (map_to_list col).

(** The order of a snapshot: by document id, ascending. *)
Definition id_le {A} (x y : string * A) : Prop :=
  String.leb (fst x) (fst y) = true.

(** [categoriesSnap.docs.map(doc => ({ id: doc.id, ...doc.data() }))]. *)
Definition snapshot_categories (d : db) : list Category.t :=
  (fun entry => Category.of_doc (fst entry) (snd entry))
  <$> docs_of (categories d).

(** ** Store writes *)

(** One write of a batch, or a single-document write. *)
Inductive write : Type :=
  | SetTx (id : string) (data : Tx.doc)        (* [set(ref, data, {merge: true})] *)
  | UpdateTx (id : string) (data : Tx.doc)     (* [update(ref, data)] *)
  | DeleteTx (id : string)                     (* [delete(ref)] *)
  | SetTokens (data : Token.doc)               (* [set(tokensDoc, data, {merge: true})] *)
  | DeleteAccount (id : string)
  | SetBudget (id : string) (data : Budget.doc)            (* [set(data)] *)
  | SetCategory (id : string) (data : Category.doc)        (* [set(data)] *)
  | UpdateCategory (id : string) (data : Category.doc).    (* [update(data)] *)

Definition set_transactions (txs : gmap string Tx.doc) (d : db) : db :=
  mkDb (tokens d) (accounts d) txs (budgets d) (categories d).

(** [set(ref, data, { merge: true })] on a transaction: the fields of
    [data] replace those of the stored document, the others stay; a
    missing document is created from [data] alone. *)
Definition set_merge_tx (id : string) (data : Tx.doc)
    (txs : gmap string Tx.doc) : gmap string Tx.doc :=
  <[id := Tx.merge data (default Tx.empty (txs !! id))]> txs.

(** The effect of one write; [update] is rejected when the document does
    not exist. *)
Definition apply_write (w : write) (d : db) : option db :=
  match w with
  | SetTx id data =>
      Some (set_transactions (set_merge_tx id data (transactions d)) d)
  | UpdateTx id data =>
      match transactions d !! id with
      | Some old =>
          Some (set_transactions (<[id := Tx.merge data old]> (transactions d)) d)
      | None => None
      end
  | DeleteTx id => Some (set_transactions (delete id (transactions d)) d)
  | SetTokens data =>
      Some (mkDb (Some (Token.merge data (default Token.empty (tokens d))))
                 (accounts d) (transactions d) (budgets d) (categories d))
  | DeleteAccount id =>
      Some (mkDb (tokens d) (delete id (accounts d)) (transactions d)
                 (budgets d) (categories d))
  | SetBudget id data =>
      Some (mkDb (tokens d) (accounts d) (transactions d)
                 (<[id := data]> (budgets d)) (categories d))
  | SetCategory id data =>
      Some (mkDb (tokens d) (accounts d) (transactions d) (budgets d)
                 (<[id := data]> (categories d)))
  | UpdateCategory id data =>
      match categories d !! id with
      | Some old =>
          Some (mkDb (tokens d) (accounts d) (transactions d) (budgets d)
                     (<[id := merge_category data old]> (categories d)))
      | None => None
      end
  end.

(** The writes of a batch take effect in order, all or none. *)
Fixpoint apply_writes (ws : list write) (d : db) : option db :=
  match ws with
  | [] => Some d
  | w :: ws' =>
      match apply_write w d with
      | Some d' => apply_writes ws' d'
      | None => None
      end
  end.

(** ** Handlers as computations over the store *)

(** How a computation ends: with a value, with an exception that a
    [catch] block sees, or not at all (the page loop has no bound). *)
Inductive outcome (A : Type) : Type :=
  | Ok (a : A)
  | Throw (message : string)
  | Diverge.
Arguments Ok {A} a.
Arguments Throw {A} message.
Arguments Diverge {A}.

(** The environment of a request: the user's collections, the server
    clock, the outcomes of the write requests still to come ([false]:
    the store rejects the request; an empty list: every request goes
    through) and the source of automatic document ids. *)
Record world : Type := mkWorld {
  store : db;
  clock : time;
  faults : list bool;
  id_source : nat -> string;
  next_id : nat;
}.

Definition M (A : Type) : Type := world -> outcome A * world.

Definition ret {A} (a : A) : M A := fun w => (Ok a, w).

Definition bind {A B} (m : M A) (k : A -> M B) : M B :=
  fun w =>
    match m w with
    | (Ok a, w') => k a w'
    | (Throw message, w') => (Throw message, w')
    | (Diverge, w') => (Diverge, w')
    end.

Definition throw {A} (message : string) : M A := fun w => (Throw message, w).

(** [try { m } catch (error) { handler(error.message) }]. *)
Definition try_catch {A} (m : M A) (handler : string -> M A) : M A :=
  fun w =>
    match m w with
    | (Throw message, w') => handler message w'
    | r => r
    end.

Declare Scope store_scope.
Delimit Scope store_scope with store.
Notation "x <- m ;; k" := (bind m (fun x => k))
  (at level 100, m at next level, right associativity) : store_scope.
Notation "m ;;; k" := (bind m (fun _ => k))
  (at level 100, right associativity) : store_scope.
Local Open Scope store_scope.

(** A read of the user's collections. *)
Definition get_store : M db := fun w => (Ok (store w), w).

(** [collection.doc()]: a fresh automatic document id. *)
Definition auto_id : M string :=
  fun w =>
    (Ok (id_source w (next_id w)),
     mkWorld (store w) (clock w) (faults w) (id_source w) (S (next_id w))).

(** [await batch.commit()] (or a single [set], [update] or [delete]): one
    write request.  The store applies all its writes or none; server
    timestamps in the data resolve to the time of the commit. *)
Definition commit (ws : time -> list write) : M unit :=
  fun w =>
    let rest := tail (faults w) in
    match faults w with
    | false :: _ =>
        (Throw "UNAVAILABLE",
         mkWorld (store w) (clock w) rest (id_source w) (next_id w))
    | _ =>
        match apply_writes (ws (clock w)) (store w) with
        | Some d =>
            (Ok tt, mkWorld d (clock w + 1)%Z rest (id_source w) (next_id w))
        | None =>
            (Throw "NOT_FOUND",
             mkWorld (store w) (clock w) rest (id_source w) (next_id w))
        end
    end.

(** An HTTP response: status code and JSON body. *)
Inductive body : Type :=
  | ErrorBody (error : string)
  | SyncBody (added modified removed recategorized : nat)
  | RecategorizedBody (recategorized : nat)
  | AccountDeletedBody (transactionsDeleted : bool)
  | BudgetBody (id : string) (name : field string)
               (categories : list Category.t) (totalBudget : float).

Record response : Type := mkResponse {
  status : nat;
  json : body;
}.

(** ** Reconciliation: [recategorizeAllTransactions] *)

(** The result [{ updated, total }]. *)
Record recategorize_result : Type := mkResult {
  updated : nat;
  total : nat;
}.

(** The category the reconciliation loop assigns to a stored
    transaction: keyword matching first, the provider category only when
    that finds nothing and [transaction.pf_category] is truthy. *)
Definition reassign (categories : list Category.t) (transaction : Tx.doc)
    : option Category.t :=
  match findCategoryByKeywords categories
          (Tx.name transaction) (Tx.merchant_name transaction) with
  | Some category => Some category
  | None =>
      match or_null (Tx.pf_category transaction) with
      | Some _ => findCategoryByPlaidCategory categories (Tx.pf_category transaction)
      | None => None
      end
  end.

(** [assignedCategory?.id || null]. *)
Definition category_id_or_null (assignedCategory : option Category.t)
    : option string :=
  match assignedCategory with
  | Some category => or_null (Category.id category)
  | None => None
  end.

(** [assignedCategory?.name || null]. *)
Definition category_name_or_null (assignedCategory : option Category.t)
    : option string :=
  match assignedCategory with
  | Some category => or_null (Category.name (Category.data category))
  | None => None
  end.

(** The data of [batch.update] in the reconciliation loop. *)
Definition recategorize_data (assignedCategory : option Category.t)
    (now : time) : Tx.doc :=
  {| Tx.transaction_id := Absent; Tx.account_id := Absent; Tx.date := Absent;
     Tx.name := Absent; Tx.merchant_name := Absent; Tx.city := Absent;
     Tx.amount := Absent; Tx.outflow := Absent; Tx.inflow := Absent;
     Tx.currency := Absent; Tx.pending := Absent; Tx.pf_category := Absent;
     Tx.category := of_option (category_id_or_null assignedCategory);
     Tx.categoryName := of_option (category_name_or_null assignedCategory);
     Tx.updatedAt := Val now;
     Tx.removed := Absent |}.

(** One iteration of the loop over the transactions: the update it adds
    to the batch, if the assignment changed. *)
Definition recategorize_step (categories : list Category.t)
    (transaction : string * Tx.doc) : option (time -> write) :=
  let assignedCategory := reassign categories (snd transaction) in
  let currentCategoryId := or_null (Tx.category (snd transaction)) in
  let newCategoryId := category_id_or_null assignedCategory in
  if bool_decide (currentCategoryId <> newCategoryId) then
    Some (fun now =>
            UpdateTx (fst transaction) (recategorize_data assignedCategory now))
  else None.

Definition recategorizeAllTransactions : M recategorize_result :=
  d <- get_store;;
  let categories := snapshot_categories d in
  let transactions := docs_of (transactions d) in
  let batch := omap (recategorize_step categories) transactions in
  let updatedCount := length batch in
  (if (0 <? updatedCount)%nat
   then commit (fun now => (fun update => update now) <$> batch)
   else ret tt);;;
  ret (mkResult updatedCount (length transactions)).

(** ** Sync: [POST /sync-transactions] (and [POST /transactions/sync]) *)

(** [nextCursor || undefined]. *)
Definition or_undefined (cursor : option string) : option string :=
  match cursor with
  | Some s => if String.eqb s "" then None else Some s
  | None => None
  end.

(** [!!x] on a boolean property. *)
Definition truthy_bool (x : field bool) : bool :=
  match x with
  | Val b => b
  | _ => false
  end.

(** The document the sync loop writes for a provider transaction. *)
Definition sync_data (categories : list Category.t) (t : Plaid.transaction)
    (now : time) : Tx.doc :=
  let assignedCategory :=
    assign_category categories (Plaid.name t) (Plaid.merchant_name t)
                    (Plaid.pfc_primary t) in
  let categoryName :=
    match assignedCategory with
    | Some category => Category.name (Category.data category)
    | None => Null
    end in
  let outflow :=
    if PrimFloat.ltb 0 (Plaid.amount t)
    then Val (PrimFloat.mul (Plaid.amount t) 100) else Null in
  let inflow :=
    if PrimFloat.ltb (Plaid.amount t) 0
    then Val (PrimFloat.mul (PrimFloat.opp (Plaid.amount t)) 100) else Null in
  {| Tx.transaction_id := Val (Plaid.transaction_id t);
     Tx.account_id := Val (Plaid.account_id t);
     Tx.date := Val (Plaid.date t);
     Tx.name := Val (or_empty (Plaid.name t));
     Tx.merchant_name := Val (or_empty (Plaid.merchant_name t));
     Tx.city := Val (or_empty (Plaid.location_city t));
     Tx.amount := Val (PrimFloat.mul (Plaid.amount t) 100);
     Tx.outflow := outflow;
     Tx.inflow := inflow;
     Tx.currency := Val (or_empty (Plaid.iso_currency_code t));
     Tx.pending := Val (truthy_bool (Plaid.pending t));
     Tx.pf_category := of_option (or_null (Plaid.pfc_primary t));
     Tx.category := of_option (category_id_or_null assignedCategory);
     Tx.categoryName := of_option (or_null categoryName);
     Tx.updatedAt := Val now;
     Tx.removed := Absent |}.

(** The upserts of [added] and [modified], for ids whose references
    [doc_refs] has taken. *)
Definition upsert_writes (categories : list Category.t)
    (ts : list Plaid.transaction) (now : time) : list write :=
  (fun t => SetTx (Plaid.transaction_id t) (sync_data categories t now)) <$> ts.

(** The data of a removal marker. *)
Definition removed_data (now : time) : Tx.doc :=
  {| Tx.transaction_id := Absent; Tx.account_id := Absent; Tx.date := Absent;
     Tx.name := Absent; Tx.merchant_name := Absent; Tx.city := Absent;
     Tx.amount := Absent; Tx.outflow := Absent; Tx.inflow := Absent;
     Tx.currency := Absent; Tx.pending := Absent; Tx.pf_category := Absent;
     Tx.category := Absent; Tx.categoryName := Absent;
     Tx.updatedAt := Val now;
     Tx.removed := Val true |}.

(** The markers of [removed], for ids whose references [doc_refs] has
    taken. *)
Definition removed_writes (rs : list Plaid.removed_transaction) (now : time)
    : list write :=
  (fun r => SetTx (Plaid.removed_id r) (removed_data now)) <$> rs.

(** The write of the new cursor. *)
Definition cursor_write (nextCursor : string) (now : time) : write :=
  SetTokens {| Token.access_token := Absent; Token.item_id := Absent;
               Token.cursor := Val nextCursor;
               Token.lastSyncAt := Val now;
               Token.updatedAt := Absent |}.

(** Everything the sync handler puts in its batch, in order.  The
    handler builds it only once every reference is taken: [doc()]
    throws inside the loops, before the commit. *)
Definition sync_batch (categories : list Category.t)
    (added modified : list Plaid.transaction)
    (removed : list Plaid.removed_transaction) (nextCursor : string)
    (now : time) : list write :=
  upsert_writes categories (added ++ modified) now
  ++ removed_writes removed now
  ++ [cursor_write nextCursor now].

(** What the page loop has accumulated when it ends. *)
Record delta : Type := mkDelta {
  d_added : list Plaid.transaction;
  d_modified : list Plaid.transaction;
  d_removed : list Plaid.removed_transaction;
  d_cursor : string;
}.

(** [txCol(uid).doc(id)] for an id of the provider's data: the reference
    of the document with that id.  The empty string and a string with a
    slash are no document ids; the call throws. *)
Definition doc_ref (id : string) : outcome string :=
  if String.eqb id "" then Throw "documentPath must be a non-empty string"
  else if includes id "/" then Throw "documentPath must point to a document"
  else Ok id.

(** The references the two loops of the sync handler take, in order. *)
Fixpoint doc_refs (ids : list string) : outcome unit :=
  match ids with
  | [] => Ok tt
  | id :: rest =>
      match doc_ref id with
      | Ok _ => doc_refs rest
      | Throw message => Throw message
      | Diverge => Diverge
      end
  end.

(** The ids of a delta in the order of the loops: the upserts of [added]
    and [modified], then the markers of [removed]. *)
Definition delta_ids (pages : delta) : list string :=
  (Plaid.transaction_id <$> d_added pages ++ d_modified pages)
  ++ (Plaid.removed_id <$> d_removed pages).

Section Handlers.

(** The provider's sync primitive: for an access token and a cursor
    ([None]: from the beginning) a page, or [None] when the request
    fails. *)
Variable transactionsSync : field string -> option string -> option Plaid.page.

(** The loop [while (true) { ... if (!has_more) break; }], with a
    bound on the number of requests; it writes nothing. *)
Fixpoint fetch_pages (fuel : nat) (access_token : field string)
    (nextCursor : option string)
    (added modified : list Plaid.transaction)
    (removed : list Plaid.removed_transaction) : outcome delta :=
  match fuel with
  | O => Diverge
  | S fuel' =>
      match transactionsSync access_token (or_undefined nextCursor) with
      | None => Throw "provider request failed"
      | Some data =>
          let added := added ++ Plaid.added data in
          let modified := modified ++ Plaid.modified data in
          let removed := removed ++ Plaid.removed data in
          let nextCursor := Plaid.next_cursor data in
          if Plaid.has_more data
          then fetch_pages fuel' access_token (Some nextCursor)
                           added modified removed
          else Ok (mkDelta added modified removed nextCursor)
      end
  end.

Definition sync_transactions (fuel : nat) : M response :=
  try_catch
    (d <- get_store;;
     match tokens d with
     | None => ret (mkResponse 400 (ErrorBody "Bank not linked"))
     | Some tokenDoc =>
         let access_token := Token.access_token tokenDoc in
         let savedCursor := Token.cursor tokenDoc in
         pages <- (fun w =>
                     (fetch_pages fuel access_token (or_null savedCursor)
                                  [] [] [], w));;
         d <- get_store;;
         let categories := snapshot_categories d in
         (fun w => (doc_refs (delta_ids pages), w));;;
         commit (sync_batch categories (d_added pages) (d_modified pages)
                            (d_removed pages) (d_cursor pages));;;
         recategorizeResult <- recategorizeAllTransactions;;
         ret (mkResponse 200
                (SyncBody (length (d_added pages)) (length (d_modified pages))
                          (length (d_removed pages))
                          (updated recategorizeResult)))
     end)
    (fun message => ret (mkResponse 500 (ErrorBody message))).

End Handlers.

(** ** Category update: [PUT /categories/:categoryId] *)

(** The request body [{ name, amount, keywords, color }]. *)
Record category_update : Type := mkCategoryUpdate {
  u_name : field string;
  u_amount : field float;
  u_keywords : field (list string);
  u_color : field string;
}.

(** [...(x && { x })] for a string property. *)
Definition if_truthy (x : field string) : field string :=
  match or_null x with
  | Some s => Val s
  | None => Absent
  end.

Definition update_category_data (request : category_update) (now : time)
    : Category.doc :=
  {| Category.name := if_truthy (u_name request);
     Category.amount := u_amount request;
     Category.keywords :=
       match u_keywords request with
       | Val ks => Val ks
       | _ => Absent
       end;
     Category.budgetId := Absent;
     Category.color := if_truthy (u_color request);
     Category.createdAt := Absent;
     Category.updatedAt := Val now;
     Category.own_id := Absent |}.

Definition update_category (categoryId : string) (request : category_update)
    : M response :=
  try_catch
    (commit (fun now =>
               [UpdateCategory categoryId (update_category_data request now)]);;;
     recategorizeResult <- recategorizeAllTransactions;;
     ret (mkResponse 200 (RecategorizedBody (updated recategorizeResult))))
    (fun message => ret (mkResponse 500 (ErrorBody message))).

(** ** Budget creation: [POST /budgets] *)

(** [cat.amount || 0]. *)
Definition or_zero (x : field float) : float :=
  match x with
  | Val a =>
      if PrimFloat.eqb a 0 || negb (PrimFloat.eqb a a) then 0%float else a
  | _ => 0%float
  end.

(** The loop that stores the categories of a new budget, one write
    request per category: [{ ...category, budgetId, createdAt,
    updatedAt }], every property of the request's category included,
    and [{ id: catRef.id, ...category }] for the answer. *)
Fixpoint create_categories (budgetId : string) (categories : list Category.doc)
    : M (list Category.t) :=
  match categories with
  | [] => ret []
  | category :: rest =>
      catId <- auto_id;;
      commit (fun now =>
                [SetCategory catId
                   {| Category.name := Category.name category;
                      Category.amount := Category.amount category;
                      Category.keywords := Category.keywords category;
                      Category.budgetId := Val budgetId;
                      Category.color := Category.color category;
                      Category.createdAt := Val now;
                      Category.updatedAt := Val now;
                      Category.own_id := Category.own_id category |}]);;;
      categoryRefs <- create_categories budgetId rest;;
      ret (Category.of_doc catId category :: categoryRefs)
  end.

Definition create_budget (name : field string) (categories : list Category.doc)
    : M response :=
  try_catch
    (d <- get_store;;
     if bool_decide (budgets d = ∅) then
       budgetId <- auto_id;;
       match name with
       | Absent => throw "Cannot use undefined as a Firestore value"
       | _ =>
           commit (fun now => [SetBudget budgetId (Budget.mk name (Val now) (Val now))])
       end;;;
       categoryRefs <- create_categories budgetId categories;;
       ret (mkResponse 200
              (BudgetBody budgetId name categoryRefs
                 (fold_left (fun sum cat =>
                               PrimFloat.add sum
                                 (or_zero (Category.amount (Category.data cat))))
                            categoryRefs 0%float)))
     else
       ret (mkResponse 400 (ErrorBody "User can only have one budget for now")))
    (fun message => ret (mkResponse 500 (ErrorBody message))).

(** ** Account deletion: [DELETE /accounts/:accountId] *)

(** [where('account_id', '==', accountId)]. *)
Definition has_account (accountId : string) (transaction : string * Tx.doc)
    : bool :=
  match Tx.account_id (snd transaction) with
  | Val a => String.eqb a accountId
  | _ => false
  end.

Definition delete_account (accountId : string) (deleteTransactions : bool)
    : M response :=
  try_catch
    (d <- get_store;;
     match accounts d !! accountId with
     | None => ret (mkResponse 404 (ErrorBody "Account not found"))
     | Some account =>
         (if deleteTransactions then
            d <- get_store;;
            let docs := List.filter (has_account accountId)
                                    (docs_of (transactions d)) in
            commit (fun _ => (fun doc => DeleteTx (fst doc)) <$> docs)
          else ret tt);;;
         commit (fun _ => [DeleteAccount accountId]);;;
         ret (mkResponse 200 (AccountDeletedBody deleteTransactions))
     end)
    (fun message => ret (mkResponse 500 (ErrorBody message))).

(** ** Vocabulary of the specification *)

(** [k] occurs in [s] as a contiguous substring. *)
Definition occurs (k s : string) : Prop :=
  exists pre post : string, s = pre +:+ k +:+ post.

(** The category has a keyword that occurs, case-insensitively, in the
    (already lowercase) search text. *)
Definition keyword_hit (searchText : string) (c : Category.t) : Prop :=
  exists keyword, In keyword (guarded_keywords c) /\
                  occurs (toLowerCase keyword) searchText.

(** The test of the keyword loops, as a boolean. *)
Definition keyword_test (searchText : string) (c : Category.t) : bool :=
  existsb (fun keyword => includes searchText (toLowerCase keyword))
          (guarded_keywords c).

(** The category has a keyword that contains one of the generic
    sub-keywords of a bucket. *)
Definition bucket_hit (subs : list string) (c : Category.t) : Prop :=
  exists keyword k, In keyword (guarded_keywords c) /\ In k subs /\
                    occurs k (toLowerCase keyword).

(** The test of the bucket loops, as a boolean. *)
Definition bucket_test (subs : list string) (c : Category.t) : bool :=
  existsb (fun keyword =>
             existsb (fun k => includes (toLowerCase keyword) k) subs)
          (guarded_keywords c).

(** The search string of a transaction: its name, a space and its
    merchant name (or nothing), in lower case. *)
Definition search_text (name merchant_name : field string) : string :=
  toLowerCase (template name +:+ " " +:+ or_empty merchant_name).

(** [c] is the first element of [l] with property [P]. *)
Definition first_with {A} (P : A -> Prop) (l : list A) (c : A) : Prop :=
  exists before after,
    l = before ++ c :: after /\ P c /\ Forall (fun y => ~ P y) before.


(** The transactions after the upserts of a batch. *)
Definition upserted (categories : list Category.t)
    (ts : list Plaid.transaction) (now : time) (txs : gmap string Tx.doc)
    : gmap string Tx.doc :=
  foldl (fun txs t =>
           set_merge_tx (Plaid.transaction_id t) (sync_data categories t now) txs)
        txs ts.

(** The transactions after the removal markers of a batch. *)
Definition marked (rs : list Plaid.removed_transaction) (now : time)
    (txs : gmap string Tx.doc) : gmap string Tx.doc :=
  foldl (fun txs r => set_merge_tx (Plaid.removed_id r) (removed_data now) txs)
        txs rs.

(** The store once the batch of a sync has been committed at [now]. *)
Definition synced (cats : list Category.t) (pages : delta) (now : time)
    (d : db) : db :=
  {| tokens :=
       Some (Token.merge
               {| Token.access_token := Absent; Token.item_id := Absent;
                  Token.cursor := Val (d_cursor pages);
                  Token.lastSyncAt := Val now;
                  Token.updatedAt := Absent |}
               (default Token.empty (tokens d)));
     accounts := accounts d;
     transactions :=
       marked (d_removed pages) now
         (upserted cats (d_added pages ++ d_modified pages) now
                   (transactions d));
     budgets := budgets d;
     categories := categories d |}.

(** A database without documents. *)
Definition empty_db : db := mkDb None ∅ ∅ ∅ ∅.

(** The transactions that do not belong to an account. *)
Definition without_transactions_of (accountId : string)
    (txs : gmap string Tx.doc) : gmap string Tx.doc :=
  filter (fun entry => Tx.account_id (snd entry) <> Val accountId) txs.

(** The store after the cascade of an account deletion: the
    transactions of the account are gone, the account is still there. *)
Definition transactions_deleted (accountId : string) (d : db) : db :=
  set_transactions (without_transactions_of accountId (transactions d)) d.

(** The store after the whole account deletion. *)
Definition account_deleted (accountId : string) (d : db) : db :=
  mkDb (tokens d) (delete accountId (accounts d))
       (without_transactions_of accountId (transactions d))
       (budgets d) (categories d).

(** A world whose next requests behave as [faults] says. *)
Definition with_faults (faults : list bool) (w : world) : world :=
  mkWorld (store w) (clock w) faults (id_source w) (next_id w).

(** An account with two transactions of its own and one of another
    account; the store accepts the first write request and rejects the
    second. *)
Definition cascade_example : world :=
  let tx account :=
    Tx.mk (Val "t") (Val account) (Val "2024-05-01") (Val "Coffee") (Val "")
          (Val "") (Val 450%float) (Val 450%float) Null (Val "USD") (Val false)
          Null Null Null (Val 1%Z) Absent in
  let account :=
    Account.mk (Val "a1") (Val "Checking") Null Null Null Null
               (Val "ins_1") (Val "Bank") (Val "") (Val 1%Z) in
  mkWorld
    (mkDb None (<["a1" := account]> ∅)
          (<["t1" := tx "a1"]> (<["t2" := tx "a1"]> (<["t3" := tx "a2"]> ∅)))
          ∅ ∅)
    10%Z [true; false] (fun _ => "auto") 0.

(** A stored transaction after one pass of the reconciliation loop
    committed at [now]. *)
Definition reconciled (cats : list Category.t) (now : time) (tx : Tx.doc)
    : Tx.doc :=
  if bool_decide (or_null (Tx.category tx)
                  <> category_id_or_null (reassign cats tx))
  then Tx.merge (recategorize_data (reassign cats tx) now) tx
  else tx.

(** The number of transactions whose assignment a pass changes. *)
Definition changes (d : db) : nat :=
  length (omap (recategorize_step (snapshot_categories d))
               (docs_of (transactions d))).

(** The world after a committed write request that left the store [d]. *)
Definition committed (d : db) (w : world) : world :=
  mkWorld d (clock w + 1)%Z (tail (faults w)) (id_source w) (next_id w).

(** The world after a rejected write request. *)
Definition rejected (w : world) : world :=
  mkWorld (store w) (clock w) (tail (faults w)) (id_source w) (next_id w).

(** The store after a pass of the reconciliation committed at [now]. *)
Definition reconciled_db (now : time) (d : db) : db :=
  set_transactions
    (reconciled (snapshot_categories d) now <$> transactions d) d.

(** ** Example data *)

(** A category "Groceries" with the keyword market. *)
Definition groceries : Category.doc :=
  Category.mkDoc (Val "Groceries") (Val 40000%float) (Val ["market"])
                 Absent Absent (Val 1%Z) (Val 1%Z) Absent.

(** A purchase of 4.35 at a market, as the provider reports it. *)
Definition purchase : Plaid.transaction :=
  Plaid.mkTransaction "t1" "a1" "2024-05-01" (Val "Corner Market") Null Absent
                      0x1.1666666666666p+2%float (Val "USD") (Val false)
                      (Val "GENERAL_MERCHANDISE").

(** A provider that has one page, with that purchase. *)
Definition one_page (access_token : field string) (cursor : option string)
    : option Plaid.page :=
  Some (Plaid.mkPage [purchase] [] [] "cursor-1" false).

(** A linked user with the category and no transactions yet. *)
Definition linked_world : world :=
  mkWorld
    (mkDb (Some (Token.mk (Val "access-1") (Val "item-1") Absent Absent (Val 1%Z)))
          ∅ ∅ ∅ (<["c1" := groceries]> ∅))
    10%Z [] (fun _ => "auto") 0.

(** The request that renames a category and changes nothing else. *)
Definition rename (name : string) : category_update :=
  mkCategoryUpdate (Val name) Absent Absent Absent.

(** The same user with a stored transaction that has no category yet. *)
Definition unassigned_world : world :=
  mkWorld
    (mkDb (Some (Token.mk (Val "access-1") (Val "item-1") Absent Absent (Val 1%Z)))
          ∅
          (<["t1" := Tx.mk (Val "t1") (Val "a1") (Val "2024-05-01")
                           (Val "Corner Market") (Val "") (Val "")
                           (Val 435%float) (Val 435%float) Null (Val "USD")
                           (Val false) Null Null Null (Val 1%Z) Absent]> ∅)
          ∅ (<["c1" := groceries]> ∅))
    10%Z [] (fun _ => "auto") 0.

(** A provider whose first page announces more and whose second request
    fails. *)
Definition fails_on_second_page (access_token : field string)
    (cursor : option string) : option Plaid.page :=
  match cursor with
  | None => Some (Plaid.mkPage [purchase] [] [] "cursor-1" true)
  | Some _ => None
  end.

(** ** Further vocabulary *)

(** Two versions of a transaction that differ at most in the fields the
    reconciliation writes: [category], [categoryName] and [updatedAt]. *)
Definition same_but_category (tx tx' : Tx.doc) : Prop :=
  Tx.transaction_id tx' = Tx.transaction_id tx /\
  Tx.account_id tx' = Tx.account_id tx /\
  Tx.date tx' = Tx.date tx /\
  Tx.name tx' = Tx.name tx /\
  Tx.merchant_name tx' = Tx.merchant_name tx /\
  Tx.city tx' = Tx.city tx /\
  Tx.amount tx' = Tx.amount tx /\
  Tx.outflow tx' = Tx.outflow tx /\
  Tx.inflow tx' = Tx.inflow tx /\
  Tx.currency tx' = Tx.currency tx /\
  Tx.pending tx' = Tx.pending tx /\
  Tx.pf_category tx' = Tx.pf_category tx /\
  Tx.removed tx' = Tx.removed tx.

(** Every transaction of the store carries the category the matching
    computes for it from the categories of the store. *)
Definition all_assigned (d : db) : Prop :=
  forall id tx,
    transactions d !! id = Some tx ->
    or_null (Tx.category tx)
    = category_id_or_null (reassign (snapshot_categories d) tx).

(** No category document stores a property [id] of its own, so that the
    id of a category object is the id of its document.  The categories
    that [POST /categories] writes are of this kind; those of
    [POST /budgets] are when the request gives its categories no [id]. *)
Definition document_ids (d : db) : Prop :=
  forall id doc, categories d !! id = Some doc -> Category.own_id doc = Absent.

(** Text of the embedding: every character is an ASCII character. *)
Fixpoint ascii_text (s : string) : bool :=
  match s with
  | EmptyString => true
  | String c s' => (nat_of_ascii c <? 128)%nat && ascii_text s'
  end.

(** The keywords the loops iterate are ASCII text. *)
Definition ascii_keywords (categories : list Category.t) : bool :=
  forallb (fun c => forallb ascii_text (guarded_keywords c)) categories.

(** A user whose one category stores an [id] of its own, as
    [POST /budgets] writes it for a request category that has one, and
    a stored transaction that its keyword hits. *)
Definition ghost_world : world :=
  mkWorld
    (mkDb None ∅
          (<["t1" := Tx.mk (Val "t1") (Val "a1") (Val "2024-05-01")
                           (Val "Corner Market") (Val "") (Val "")
                           (Val 435%float) (Val 435%float) Null (Val "USD")
                           (Val false) Null Null Null (Val 1%Z) Absent]> ∅)
          ∅
          (<["c1" := Category.mkDoc (Val "Groceries") (Val 40000%float)
                                    (Val ["market"]) (Val "b1") Absent
                                    (Val 1%Z) (Val 1%Z) (Val "ghost")]> ∅))
    10%Z [] (fun _ => "auto") 0.

(** A category with its keywords in lower case. *)
Definition lower_keywords (c : Category.t) : Category.t :=
  Category.mk (Category.id c)
    {| Category.name := Category.name (Category.data c);
       Category.amount := Category.amount (Category.data c);
       Category.keywords :=
         match Category.keywords (Category.data c) with
         | Val ks => Val (toLowerCase <$> ks)
         | other => other
         end;
       Category.budgetId := Category.budgetId (Category.data c);
       Category.color := Category.color (Category.data c);
       Category.createdAt := Category.createdAt (Category.data c);
       Category.updatedAt := Category.updatedAt (Category.data c);
       Category.own_id := Category.own_id (Category.data c) |}.

(** A provider with nothing new: one empty page. *)
Definition no_news (access_token : field string) (cursor : option string)
    : option Plaid.page :=
  Some (Plaid.mkPage [] [] [] "cursor-2" false).

(** ** Writes on budgets, categories and accounts *)

Definition merge_budget (data old : Budget.doc) : Budget.doc :=
  {| Budget.name := merge_field (Budget.name data) (Budget.name old);
     Budget.createdAt :=
       merge_field (Budget.createdAt data) (Budget.createdAt old);
     Budget.updatedAt :=
       merge_field (Budget.updatedAt data) (Budget.updatedAt old) |}.

Definition merge_account (data old : Account.doc) : Account.doc :=
  {| Account.account_id :=
       merge_field (Account.account_id data) (Account.account_id old);
     Account.name := merge_field (Account.name data) (Account.name old);
     Account.official_name :=
       merge_field (Account.official_name data) (Account.official_name old);
     Account.mask := merge_field (Account.mask data) (Account.mask old);
     Account.subtype :=
       merge_field (Account.subtype data) (Account.subtype old);
     Account.type := merge_field (Account.type data) (Account.type old);
     Account.institution_id :=
       merge_field (Account.institution_id data) (Account.institution_id old);
     Account.institution_name :=
       merge_field (Account.institution_name data)
                   (Account.institution_name old);
     Account.institution_logo :=
       merge_field (Account.institution_logo data)
                   (Account.institution_logo old);
     Account.updatedAt :=
       merge_field (Account.updatedAt data) (Account.updatedAt old) |}.

(** The writes of the handlers below that the sync, reconciliation,
    budget-creation and account-deletion handlers do not use. *)
Inductive catalog_write : Type :=
  | DeleteCategory (id : string)                          (* [delete()] *)
  | DeleteBudget (id : string)                            (* [delete()] *)
  | UpdateBudget (id : string) (data : Budget.doc)        (* [update(data)] *)
  | SetAccount (id : string) (data : Account.doc)         (* [set(ref, data)] *)
  | MergeAccount (id : string) (data : Account.doc).      (* [set(ref, data, {merge: true})] *)

Definition set_accounts (accs : gmap string Account.doc) (d : db) : db :=
  mkDb (tokens d) accs (transactions d) (budgets d) (categories d).

Definition set_budgets (bs : gmap string Budget.doc) (d : db) : db :=
  mkDb (tokens d) (accounts d) (transactions d) bs (categories d).

Definition set_categories (cs : gmap string Category.doc) (d : db) : db :=
  mkDb (tokens d) (accounts d) (transactions d) (budgets d) cs.

(** The effect of one of these writes; deleting a missing document is
    no error, updating one is. *)
Definition apply_catalog_write (w : catalog_write) (d : db) : option db :=
  match w with
  | DeleteCategory id => Some (set_categories (delete id (categories d)) d)
  | DeleteBudget id => Some (set_budgets (delete id (budgets d)) d)
  | UpdateBudget id data =>
      match budgets d !! id with
      | Some old => Some (set_budgets (<[id := merge_budget data old]> (budgets d)) d)
      | None => None
      end
  | SetAccount id data => Some (set_accounts (<[id := data]> (accounts d)) d)
  | MergeAccount id data =>
      match accounts d !! id with
      | Some old =>
          Some (set_accounts (<[id := merge_account data old]> (accounts d)) d)
      | None => Some (set_accounts (<[id := data]> (accounts d)) d)
      end
  end.

Fixpoint apply_catalog_writes (ws : list catalog_write) (d : db) : option db :=
  match ws with
  | [] => Some d
  | w :: ws' =>
      match apply_catalog_write w d with
      | Some d' => apply_catalog_writes ws' d'
      | None => None
      end
  end.

(** One write request with a given effect on the store, under the same
    discipline as [commit]: applied as a whole at the time of the commit,
    or rejected. *)
Definition request (effect : time -> db -> option db) : M unit :=
  fun w =>
    let rest := tail (faults w) in
    match faults w with
    | false :: _ =>
        (Throw "UNAVAILABLE",
         mkWorld (store w) (clock w) rest (id_source w) (next_id w))
    | _ =>
        match effect (clock w) (store w) with
        | Some d =>
            (Ok tt, mkWorld d (clock w + 1)%Z rest (id_source w) (next_id w))
        | None =>
            (Throw "NOT_FOUND",
             mkWorld (store w) (clock w) rest (id_source w) (next_id w))
        end
    end.

Definition commit_catalog (ws : time -> list catalog_write) : M unit :=
  request (fun now => apply_catalog_writes (ws now)).

(** The JSON bodies of the handlers below (of a created category: its
    id, name, amount and keywords, and the count of the reconciliation). *)
Inductive payload : Type :=
  | POk                                              (* [{ ok: true }] *)
  | PError (error : string)
  | PMessage (message : string)
  | PRecategorized (recategorized : nat)
  | PCategory (id : string) (name : field string) (amount : float)
              (keywords : field (list string)) (recategorized : nat)
  | PTransaction (id : string) (data : Tx.doc)
  | PAccounts (count added updated : nat).

Record reply : Type := mkReply {
  code : nat;
  payload_of : payload;
}.

(** A computation that only inspects values, with its outcome. *)
Definition lift {A} (r : outcome A) : M A := fun w => (r, w).

(** [collection.doc(id)]: the id must be a non-empty string. *)
Definition doc_path (id : field string) : M string :=
  match or_null id with
  | Some id => ret id
  | None => throw "documentPath must be a non-empty string"
  end.

(** A value handed to the store must not be [undefined]. *)
Definition defined {A} (x : field A) : M (field A) :=
  match x with
  | Absent => throw "Cannot use undefined as a Firestore value"
  | _ => ret x
  end.

(** ** Manual assignment: [POST /transactions/:transactionId/categorize] *)

(** The data of the update of the transaction. *)
Definition assignment_data (categoryId : string) (name : field string)
    (now : time) : Tx.doc :=
  {| Tx.transaction_id := Absent; Tx.account_id := Absent; Tx.date := Absent;
     Tx.name := Absent; Tx.merchant_name := Absent; Tx.city := Absent;
     Tx.amount := Absent; Tx.outflow := Absent; Tx.inflow := Absent;
     Tx.currency := Absent; Tx.pending := Absent; Tx.pf_category := Absent;
     Tx.category := Val categoryId;
     Tx.categoryName := name;
     Tx.updatedAt := Val now;
     Tx.removed := Absent |}.

(** [[...new Set(l)]]: the elements of [l] in the order of their first
    occurrence. *)
Fixpoint unique_from (seen l : list string) : list string :=
  match l with
  | [] => []
  | x :: l' =>
      if bool_decide (x ∈ seen) then unique_from seen l'
      else x :: unique_from (x :: seen) l'
  end.

Definition unique (l : list string) : list string := unique_from [] l.

(** [category.keywords || []]. *)
Definition keywords_or_empty (x : field (list string)) : list string :=
  match x with
  | Val ks => ks
  | _ => []
  end.

(** The keyword list of "apply to similar"; reading [toLowerCase] of a
    missing name is a type error. *)
Definition similar_keywords (category : Category.doc) (transaction : Tx.doc)
    : outcome (list string) :=
  match Tx.name transaction with
  | Val name =>
      Ok (unique
            (keywords_or_empty (Category.keywords category)
             ++ [toLowerCase name]
             ++ match or_null (Tx.merchant_name transaction) with
                | Some merchant => [toLowerCase merchant]
                | None => []
                end))
  | Null => Throw "Cannot read properties of null (reading 'toLowerCase')"
  | Absent =>
      Throw "Cannot read properties of undefined (reading 'toLowerCase')"
  end.

(** The data of the update of the category. *)
Definition keywords_data (keywords : list string) (now : time) : Category.doc :=
  {| Category.name := Absent; Category.amount := Absent;
     Category.keywords := Val keywords;
     Category.budgetId := Absent; Category.color := Absent;
     Category.createdAt := Absent;
     Category.updatedAt := Val now;
     Category.own_id := Absent |}.

Definition categorize_transaction (transactionId : string)
    (categoryId : field string) (applyToSimilar : bool) : M reply :=
  try_catch
    (d <- get_store;;
     match transactions d !! transactionId with
     | None => ret (mkReply 404 (PError "Transaction not found"))
     | Some transaction =>
         categoryId <- doc_path categoryId;;
         d <- get_store;;
         match categories d !! categoryId with
         | None => ret (mkReply 404 (PError "Category not found"))
         | Some category =>
             name <- defined (Category.name category);;
             commit (fun now =>
                       [UpdateTx transactionId
                                 (assignment_data categoryId name now)]);;;
             (if applyToSimilar then
                uniqueKeywords <- lift (similar_keywords category transaction);;
                commit (fun now =>
                          [UpdateCategory categoryId
                                          (keywords_data uniqueKeywords now)])
              else ret tt);;;
             ret (mkReply 200 POk)
         end
     end)
    (fun message => ret (mkReply 500 (PError message))).

(** ** Transaction removal: [DELETE /transactions/:transactionId] *)

Definition delete_transaction (transactionId : string) : M reply :=
  try_catch
    (d <- get_store;;
     match transactions d !! transactionId with
     | None => ret (mkReply 404 (PError "Transaction not found"))
     | Some _ =>
         commit (fun _ => [DeleteTx transactionId]);;;
         ret (mkReply 200 (PMessage "Transaction deleted successfully"))
     end)
    (fun message => ret (mkReply 500 (PError message))).

(** ** Transaction edit: [PUT /transactions/:transactionId] *)

(** The request body [{ name, merchant_name, amount, date, category }]. *)
Record transaction_edit : Type := mkEdit {
  e_name : field string;
  e_merchant_name : field string;
  e_amount : field float;
  e_date : field string;
  e_category : field string;
}.

Section Edit.

(** JavaScript's [parseInt] on a number. *)
Variable parseInt : float -> float.

(** [parseInt(amount)] for the amount of the body; [parseInt(null)] is
    [NaN]. *)
Definition parsed_amount (amount : field float) : field float :=
  match amount with
  | Absent => Absent
  | Null => Val PrimFloat.nan
  | Val a => Val (parseInt a)
  end.

(** The part of [updateData] that depends on the category of the body:
    the name of the category when it exists, nothing when it does not,
    [null] when the body clears the category. *)
Definition edited_category_name (category : field string)
    : M (field string) :=
  match category with
  | Absent => ret Absent
  | _ =>
      match or_null category with
      | Some categoryId =>
          d <- get_store;;
          match categories d !! categoryId with
          | Some categoryDoc => defined (Category.name categoryDoc)
          | None => ret Absent
          end
      | None => ret Null
      end
  end.

Definition edit_data (request : transaction_edit) (categoryName : field string)
    (now : time) : Tx.doc :=
  {| Tx.transaction_id := Absent; Tx.account_id := Absent;
     Tx.date := e_date request;
     Tx.name := e_name request;
     Tx.merchant_name := e_merchant_name request;
     Tx.city := Absent;
     Tx.amount := parsed_amount (e_amount request);
     Tx.outflow := Absent; Tx.inflow := Absent;
     Tx.currency := Absent; Tx.pending := Absent; Tx.pf_category := Absent;
     Tx.category := e_category request;
     Tx.categoryName := categoryName;
     Tx.updatedAt := Val now;
     Tx.removed := Absent |}.

Definition edit_transaction (transactionId : string)
    (request : transaction_edit) : M reply :=
  try_catch
    (d <- get_store;;
     match transactions d !! transactionId with
     | None => ret (mkReply 404 (PError "Transaction not found"))
     | Some _ =>
         categoryName <- edited_category_name (e_category request);;
         commit (fun now =>
                   [UpdateTx transactionId (edit_data request categoryName now)]);;;
         d <- get_store;;
         ret (mkReply 200
                (PTransaction transactionId
                   (default Tx.empty (transactions d !! transactionId))))
     end)
    (fun message => ret (mkReply 500 (PError message))).

End Edit.

(** ** Category creation and removal: [POST /categories],
       [DELETE /categories/:categoryId] *)

(** The request body [{ name, amount, keywords = [], budgetId, color }]. *)
Record category_request : Type := mkCategoryRequest {
  r_name : field string;
  r_amount : field float;
  r_keywords : field (list string);
  r_budgetId : field string;
  r_color : field string;
}.

Definition create_category_data (name : field string)
    (request : category_request) (now : time) : Category.doc :=
  {| Category.name := name;
     Category.amount := Val (or_zero (r_amount request));
     Category.keywords :=
       match r_keywords request with
       | Absent => Val []
       | keywords => keywords
       end;
     Category.budgetId := r_budgetId request;
     Category.color := r_color request;
     Category.createdAt := Val now;
     Category.updatedAt := Val now;
     Category.own_id := Absent |}.

Definition create_category (request : category_request) : M reply :=
  try_catch
    (categoryId <- auto_id;;
     name <- defined (r_name request);;
     commit (fun now =>
               [SetCategory categoryId (create_category_data name request now)]);;;
     recategorizeResult <- recategorizeAllTransactions;;
     ret (mkReply 200
            (PCategory categoryId name (or_zero (r_amount request))
                       (Category.keywords (create_category_data name request 0%Z))
                       (updated recategorizeResult))))
    (fun message => ret (mkReply 500 (PError message))).

Definition delete_category (categoryId : string) : M reply :=
  try_catch
    (commit_catalog (fun _ => [DeleteCategory categoryId]);;;
     recategorizeResult <- recategorizeAllTransactions;;
     ret (mkReply 200 (PRecategorized (updated recategorizeResult))))
    (fun message => ret (mkReply 500 (PError message))).

(** ** Budget update and removal: [PUT /budgets/:budgetId],
       [DELETE /budgets/:budgetId] *)

Definition update_budget (budgetId : string) (name : field string) : M reply :=
  try_catch
    (name <- defined name;;
     commit_catalog (fun now =>
                       [UpdateBudget budgetId (Budget.mk name Absent (Val now))]);;;
     ret (mkReply 200 POk))
    (fun message => ret (mkReply 500 (PError message))).

(** [where('budgetId', '==', budgetId)]. *)
Definition has_budget (budgetId : string) (category : string * Category.doc)
    : bool :=
  match Category.budgetId (snd category) with
  | Val b => String.eqb b budgetId
  | _ => false
  end.

Definition delete_budget (budgetId : string) : M reply :=
  try_catch
    (commit_catalog (fun _ => [DeleteBudget budgetId]);;;
     d <- get_store;;
     let docs := List.filter (has_budget budgetId) (docs_of (categories d)) in
     commit_catalog (fun _ => (fun doc => DeleteCategory (fst doc)) <$> docs);;;
     ret (mkReply 200 POk))
    (fun message => ret (mkReply 500 (PError message))).

(** ** Token exchange: [POST /exchange-public-token] *)

Section Exchange.

(** The provider's token exchange: access token and item id, or [None]
    when the request fails. *)
Variable itemPublicTokenExchange : string -> option (string * string).

Definition exchange_public_token (public_token : field string) : M reply :=
  try_catch
    (match or_null public_token with
     | None => ret (mkReply 400 (PError "Missing public_token"))
     | Some public_token =>
         match itemPublicTokenExchange public_token with
         | None => throw "provider request failed"
         | Some (access_token, item_id) =>
             commit (fun now =>
                       [SetTokens
                          {| Token.access_token := Val access_token;
                             Token.item_id := Val item_id;
                             Token.cursor := Absent;
                             Token.lastSyncAt := Absent;
                             Token.updatedAt := Val now |}]);;;
             ret (mkReply 200 POk)
         end
     end)
    (fun message => ret (mkReply 500 (PError message))).

End Exchange.

(** ** Account refresh: [POST /accounts/sync] *)

Module Provider.
(** An account as the provider's [accountsGet] reports it. *)
Record account : Type := mkAccount {
  account_id : string;
  name : field string;
  official_name : field string;
  mask : field string;
  subtype : field string;
  type : field string;
}.

(** [response.data] of [accountsGet]: the accounts and, from the item,
    the institution. *)
Record accounts_data : Type := mkAccountsData {
  accounts : list account;
  institution_id : field string;
  institution_name : field string;
}.
End Provider.

(** [account.name || account.official_name || 'Account']. *)
Definition account_name (account : Provider.account) : string :=
  match or_null (Provider.name account) with
  | Some name => name
  | None =>
      match or_null (Provider.official_name account) with
      | Some name => name
      | None => "Account"
      end
  end.

(** [accountData] of the refresh loop. *)
Definition account_data (institution : Provider.accounts_data)
    (logo : field string) (account : Provider.account) (now : time)
    : Account.doc :=
  {| Account.account_id := Val (Provider.account_id account);
     Account.name := Val (account_name account);
     Account.official_name := of_option (or_null (Provider.official_name account));
     Account.mask := of_option (or_null (Provider.mask account));
     Account.subtype := of_option (or_null (Provider.subtype account));
     Account.type := of_option (or_null (Provider.type account));
     Account.institution_id := Provider.institution_id institution;
     Account.institution_name := Provider.institution_name institution;
     Account.institution_logo := Val (or_empty logo);
     Account.updatedAt := Val now |}.

(** [existingAccountIds.has(account.account_id)]: the set holds the
    [account_id] fields of the stored documents. *)
Definition is_existing (existingAccountIds : list (field string))
    (account : Provider.account) : bool :=
  bool_decide (Val (Provider.account_id account) ∈ existingAccountIds).

(** The write the loop adds to the batch for one account. *)
Definition account_write (institution : Provider.accounts_data)
    (logo : field string) (existingAccountIds : list (field string))
    (now : time) (account : Provider.account) : catalog_write :=
  if is_existing existingAccountIds account
  then MergeAccount (Provider.account_id account)
                    (account_data institution logo account now)
  else SetAccount (Provider.account_id account)
                  (account_data institution logo account now).

Section Accounts.

(** The provider's account listing, and its institution lookup giving
    the logo; [None] when the request fails. *)
Variable accountsGet : field string -> option Provider.accounts_data.
Variable institutionsGetById : field string -> option (field string).

Definition sync_accounts : M reply :=
  try_catch
    (d <- get_store;;
     match tokens d with
     | None => ret (mkReply 400 (PError "Bank not linked"))
     | Some tokenDoc =>
         match accountsGet (Token.access_token tokenDoc) with
         | None => throw "provider request failed"
         | Some data =>
             let logo :=
               match institutionsGetById (Provider.institution_id data) with
               | Some logo => logo
               | None => Absent
               end in
             d <- get_store;;
             let existingAccountIds :=
               (fun doc => Account.account_id (snd doc)) <$> docs_of (accounts d) in
             (match Provider.accounts data with
              | [] => ret tt
              | _ :: _ =>
                  defined (Provider.institution_id data);;;
                  defined (Provider.institution_name data);;;
                  ret tt
              end);;;
             let updatedCount :=
               length (List.filter (is_existing existingAccountIds)
                                   (Provider.accounts data)) in
             let addedCount :=
               length (List.filter
                         (fun account => negb (is_existing existingAccountIds account))
                         (Provider.accounts data)) in
             (if (0 <? addedCount)%nat || (0 <? updatedCount)%nat
              then commit_catalog
                     (fun now =>
                        account_write data logo existingAccountIds now
                        <$> Provider.accounts data)
              else ret tt);;;
             ret (mkReply 200
                    (PAccounts (length (Provider.accounts data))
                               addedCount updatedCount))
         end
     end)
    (fun message => ret (mkReply 500 (PError message))).

End Accounts.

(** ** Authentication middleware: [verifyToken] *)

(** How the middleware ends: with a 401 answer, or by handing the
    request of the identified user on ([next()]). *)
Inductive auth_result : Type :=
  | Unauthorized (error : string)
  | Authenticated (uid : string).

(** [s.slice(n)]. *)
Fixpoint string_drop (n : nat) (s : string) : string :=
  match n, s with
  | O, _ => s
  | S n', String _ s' => string_drop n' s'
  | S _, EmptyString => EmptyString
  end.

(** The part of [s] before the first occurrence of [sep]. *)
Fixpoint until (sep s : string) : string :=
  if startsWith s sep then EmptyString
  else match s with
       | EmptyString => EmptyString
       | String c s' => String c (until sep s')
       end.

(** [authHeader.split('Bearer ')[1]] for a header that starts with
    ['Bearer ']: what lies between the first and the second separator. *)
Definition bearer_token (authHeader : string) : string :=
  until "Bearer " (string_drop 7 authHeader).

Section Auth.

(** The identity collaborator: the user id of a valid token. *)
Variable verifyIdToken : string -> option string.

Definition verifyToken (authorization : field string) : auth_result :=
  match or_null authorization with
  | None => Unauthorized "Unauthorized"
  | Some authHeader =>
      if startsWith authHeader "Bearer " then
        match verifyIdToken (bearer_token authHeader) with
        | Some uid => Authenticated uid
        | None => Unauthorized "Invalid token"
        end
      else Unauthorized "Unauthorized"
  end.

End Auth.

(** The categories that do not belong to a budget. *)
Definition without_categories_of (budgetId : string)
    (cats : gmap string Category.doc) : gmap string Category.doc :=
  filter (fun entry => Category.budgetId (snd entry) <> Val budgetId) cats.

(** An account document as the refresh of [now] writes it for the
    account [id]. *)
Definition refreshed (logo : field string) (now : time) (id : string)
    (doc : Account.doc) : Prop :=
  Account.account_id doc = Val id /\
  Account.institution_logo doc = Val (or_empty logo) /\
  Account.updatedAt doc = Val now.

(** ** Vocabulary for repeated syncs *)

(** Two versions of a transaction that differ at most in [updatedAt]. *)
Definition same_but_updatedAt (tx tx' : Tx.doc) : Prop :=
  Tx.transaction_id tx' = Tx.transaction_id tx /\
  Tx.account_id tx' = Tx.account_id tx /\
  Tx.date tx' = Tx.date tx /\
  Tx.name tx' = Tx.name tx /\
  Tx.merchant_name tx' = Tx.merchant_name tx /\
  Tx.city tx' = Tx.city tx /\
  Tx.amount tx' = Tx.amount tx /\
  Tx.outflow tx' = Tx.outflow tx /\
  Tx.inflow tx' = Tx.inflow tx /\
  Tx.currency tx' = Tx.currency tx /\
  Tx.pending tx' = Tx.pending tx /\
  Tx.pf_category tx' = Tx.pf_category tx /\
  Tx.category tx' = Tx.category tx /\
  Tx.categoryName tx' = Tx.categoryName tx /\
  Tx.removed tx' = Tx.removed tx.

(** The delta of a provider that has one page. *)
Definition page_delta (page : Plaid.page) : delta :=
  mkDelta (Plaid.added page) (Plaid.modified page) (Plaid.removed page)
          (Plaid.next_cursor page).



(** ** Substring matching *)

Lemma startsWith_spec (s k : string) :
  startsWith s k = true <-> exists post : string, s = k +:+ post.
Proof.
  revert s. induction k as [|a k IH]; intros s; simpl.
  - split; [intros _; by exists s | done].
  - destruct s as [|b s]; simpl.
    + split; [done | intros [post Hpost]; discriminate].
    + rewrite andb_true_iff, IH. split.
      * intros [Hab [post ->]]. apply Ascii.eqb_eq in Hab as ->. by exists post.
      * intros [post Hpost]. injection Hpost as -> ->.
        split; [apply Ascii.eqb_refl | by exists post].
Qed.

Lemma includes_spec (s k : string) : includes s k = true <-> occurs k s.
Proof.
  induction s as [|b s IH]; simpl; rewrite orb_true_iff, startsWith_spec.
  - split.
    + intros [[post Hpost] | Hf]; [by exists "", post | discriminate].
    + intros [pre [post Hs]]. left. destruct pre as [|c pre]; [|discriminate].
      by exists post.
  - rewrite IH. split.
    + intros [[post Hpost] | [pre [post Hs]]].
      * by exists "", post.
      * exists (String b pre), post. simpl. by rewrite Hs.
    + intros [pre [post Hs]]. destruct pre as [|c pre]; simpl in Hs.
      * left. by exists post.
      * right. injection Hs as _ Hs. by exists pre, post.
Qed.

(** What [List.find] returns: the first element satisfying the test. *)
Lemma find_first {A} (p : A -> bool) (l : list A) :
  match List.find p l with
  | Some x =>
      exists before after,
        l = before ++ x :: after /\ p x = true /\
        Forall (fun y => p y = false) before
  | None => Forall (fun y => p y = false) l
  end.
Proof.
  induction l as [|a l IH]; simpl; [by constructor|].
  destruct (p a) eqn:Ha.
  - by exists [], l.
  - destruct (List.find p l) as [x|].
    + destruct IH as (before & after & -> & Hx & Hb).
      exists (a :: before), after. by repeat split; [|constructor].
    + by constructor.
Qed.

(** [List.find] with a test that decides [P] returns the first element
    with [P]. *)
Lemma find_first_with {A} (p : A -> bool) (P : A -> Prop) (l : list A) :
  (forall x, p x = true <-> P x) ->
  match List.find p l with
  | Some c => first_with P l c
  | None => Forall (fun c => ~ P c) l
  end.
Proof.
  intros Hp.
  assert (forall x, p x = false -> ~ P x) as Hfalse.
  { intros x Hx HP. apply Hp in HP. congruence. }
  pose proof (find_first p l) as H.
  destruct (List.find p l) as [c|].
  - destruct H as (before & after & -> & Hc & Hb).
    exists before, after. split; [done|]. split; [by apply Hp|].
    eapply Forall_impl; [exact Hb | exact Hfalse].
  - eapply Forall_impl; [exact H | exact Hfalse].
Qed.

Lemma keyword_test_true searchText c :
  keyword_test searchText c = true <-> keyword_hit searchText c.
Proof.
  unfold keyword_test, keyword_hit. rewrite existsb_exists.
  by setoid_rewrite includes_spec.
Qed.

Lemma bucket_test_true subs c :
  bucket_test subs c = true <-> bucket_hit subs c.
Proof.
  unfold bucket_test, bucket_hit. rewrite existsb_exists. split.
  - intros (keyword & Hin & Hex). apply existsb_exists in Hex as (k & Hk & Hinc).
    exists keyword, k. by rewrite <- includes_spec.
  - intros (keyword & k & Hin & Hk & Hocc). exists keyword. split; [done|].
    apply existsb_exists. exists k. by rewrite includes_spec.
Qed.

Lemma findCategoryByKeywords_first categories name merchant :
  match findCategoryByKeywords categories name merchant with
  | Some c => first_with (keyword_hit (search_text name merchant)) categories c
  | None => Forall (fun c => ~ keyword_hit (search_text name merchant) c)
                   categories
  end.
Proof.
  apply (find_first_with (keyword_test (search_text name merchant))).
  apply keyword_test_true.
Qed.

Lemma bucket_category_first categories subs :
  match bucket_category categories subs with
  | Some c => first_with (bucket_hit subs) categories c
  | None => Forall (fun c => ~ bucket_hit subs c) categories
  end.
Proof.
  apply (find_first_with (bucket_test subs)). apply bucket_test_true.
Qed.

(** ** Keyword matching *)

(** C3.  Keyword matching looks for the keywords, lowercased, in the
    lowercase search string built from the name and the merchant name; it
    returns the first category, in the order of the list, one of whose
    keywords occurs in that string, and nothing when no category has such
    a keyword.  With categories A (keywords foo) and B (keywords foo, bar)
    and a transaction named foobar the result is A. *)
Theorem findCategoryByKeywords_first_match :
  (forall categories name merchant_name,
     match findCategoryByKeywords categories name merchant_name with
     | Some c =>
         first_with (keyword_hit (search_text name merchant_name)) categories c
     | None =>
         Forall (fun c => ~ keyword_hit (search_text name merchant_name) c)
                categories
     end) /\
  (forall idA idB amountA amountB merchant_name,
     let A := Category.mk idA
                (Category.mkDoc (Val "A") amountA (Val ["foo"])
                                Absent Absent Absent Absent Absent) in
     let B := Category.mk idB
                (Category.mkDoc (Val "B") amountB (Val ["foo"; "bar"])
                                Absent Absent Absent Absent Absent) in
     findCategoryByKeywords [A; B] (Val "foobar") merchant_name = Some A).
Proof.
  split.
  - apply findCategoryByKeywords_first.
  - intros. reflexivity.
Qed.

(** ** Provider-category fallback *)

Lemma scan_buckets_none categories label mappings :
  (forall bucket subs, In (bucket, subs) mappings ->
     includes label bucket = true -> bucket_category categories subs = None) ->
  scan_buckets categories label mappings = None.
Proof.
  induction mappings as [|[bucket subs] rest IH]; intros Hnone; simpl; [done|].
  destruct (includes label bucket) eqn:Hinc.
  - rewrite (Hnone bucket subs) by (by left || done).
    apply IH. intros b s Hin. apply Hnone. by right.
  - apply IH. intros b s Hin. apply Hnone. by right.
Qed.

Lemma scan_buckets_single categories label mappings bucket subs :
  In (bucket, subs) mappings ->
  includes label bucket = true ->
  (forall bucket' subs', In (bucket', subs') mappings ->
     includes label bucket' = true -> subs' = subs) ->
  scan_buckets categories label mappings = bucket_category categories subs.
Proof.
  induction mappings as [|[b s] rest IH]; intros Hin Hinc Honly; [done|].
  simpl. destruct (includes label b) eqn:Hb.
  - assert (s = subs) as -> by (apply (Honly b); [by left | done]).
    destruct (bucket_category categories subs) eqn:Hcat; [done|].
    apply scan_buckets_none. intros b' s' Hin' Hinc'.
    by rewrite (Honly b' s') by (by right || done).
  - destruct Hin as [Heq | Hin]; [congruence|].
    apply IH; [done | done |]. intros b' s' Hin'. apply Honly. by right.
Qed.

(** No bucket name of the table appears twice. *)
Lemma plaidMappings_functional bucket subs subs' :
  In (bucket, subs) plaidMappings -> In (bucket, subs') plaidMappings ->
  subs = subs'.
Proof.
  unfold plaidMappings. simpl. intros H H'.
  repeat (destruct H as [H | H]; [injection H as <- <- |]); try done;
    repeat (destruct H' as [H' | H']; [try discriminate H'; try (by injection H') |]);
    done.
Qed.

(** The reconciliation loop and the sync loop assign the same category. *)
Lemma reassign_assign_category categories transaction :
  reassign categories transaction =
  assign_category categories (Tx.name transaction)
                  (Tx.merchant_name transaction) (Tx.pf_category transaction).
Proof.
  unfold reassign, assign_category, findCategoryByPlaidCategory.
  destruct (findCategoryByKeywords _ _ _); [done|].
  by destruct (or_null _).
Qed.

(** C4.  The provider category is consulted only when keyword matching
    finds no category.  Then, for a label in which the name of exactly one
    bucket of the table occurs, the result is the first category having a
    keyword that contains one of the sub-keywords of that bucket, and
    nothing when no category has one.  A transaction without a keyword
    match, with provider category FOOD_AND_DRINK, gets the category that
    has the keyword restaurant; a transaction that matches neither a
    keyword nor a bucket gets none.  The sync loop assigns the same way. *)
Theorem provider_category_fallback :
  (forall categories transaction c,
     findCategoryByKeywords categories (Tx.name transaction)
                            (Tx.merchant_name transaction) = Some c ->
     reassign categories transaction = Some c) /\
  (forall categories transaction label bucket subs,
     findCategoryByKeywords categories (Tx.name transaction)
                            (Tx.merchant_name transaction) = None ->
     Tx.pf_category transaction = Val label ->
     In (bucket, subs) plaidMappings ->
     occurs bucket label ->
     (forall bucket' subs', In (bucket', subs') plaidMappings ->
        occurs bucket' label -> bucket' = bucket) ->
     match reassign categories transaction with
     | Some c => first_with (bucket_hit subs) categories c
     | None => Forall (fun c => ~ bucket_hit subs c) categories
     end) /\
  (forall c transaction,
     findCategoryByKeywords [c] (Tx.name transaction)
                            (Tx.merchant_name transaction) = None ->
     Tx.pf_category transaction = Val "FOOD_AND_DRINK" ->
     In "restaurant" (guarded_keywords c) ->
     reassign [c] transaction = Some c) /\
  (forall categories transaction,
     findCategoryByKeywords categories (Tx.name transaction)
                            (Tx.merchant_name transaction) = None ->
     (forall label bucket subs,
        Tx.pf_category transaction = Val label ->
        In (bucket, subs) plaidMappings -> occurs bucket label ->
        Forall (fun c => ~ bucket_hit subs c) categories) ->
     reassign categories transaction = None) /\
  (forall categories transaction,
     reassign categories transaction =
     assign_category categories (Tx.name transaction)
                     (Tx.merchant_name transaction)
                     (Tx.pf_category transaction)).
Proof.
  split; [|split; [|split; [|split]]].
  - intros categories transaction c Hkw. unfold reassign. by rewrite Hkw.
  - intros categories transaction label bucket subs Hkw Hpf Hin Hocc Honly.
    unfold reassign. rewrite Hkw, Hpf.
    assert (or_null (Val label) = Some label) as Hlabel.
    { simpl. destruct label as [|a label]; [|done].
      destruct Hocc as (pre & post & Hocc). exfalso.
      destruct pre; [|discriminate]. simpl in Hocc.
      unfold plaidMappings in Hin. simpl in Hin.
      repeat (destruct Hin as [Hin | Hin];
              [injection Hin as <- <-; discriminate |]). done. }
    rewrite Hlabel. unfold findCategoryByPlaidCategory. rewrite Hlabel.
    rewrite (scan_buckets_single categories label plaidMappings bucket subs).
    + apply bucket_category_first.
    + done.
    + by apply includes_spec.
    + intros b' s' Hin' Hinc'. apply includes_spec in Hinc'.
      pose proof (Honly b' s' Hin' Hinc') as ->.
      by apply (plaidMappings_functional bucket).
  - intros c transaction Hkw Hpf Hin. unfold reassign.
    rewrite Hkw, Hpf.
    assert (bucket_category [c] ["food"; "restaurant"; "dining"; "grocery"]
            = Some c) as Hbucket.
    { assert (bucket_test ["food"; "restaurant"; "dining"; "grocery"] c = true)
        as Htest.
      { apply bucket_test_true. exists "restaurant", "restaurant".
        repeat split; [done | simpl; tauto | by exists "", ""]. }
      unfold bucket_category. cbn [List.find].
      unfold bucket_test in Htest. by rewrite Htest. }
    unfold findCategoryByPlaidCategory, plaidMappings.
    change (or_null (Val "FOOD_AND_DRINK")) with (Some "FOOD_AND_DRINK").
    cbn [scan_buckets].
    change (includes "FOOD_AND_DRINK" "FOOD_AND_DRINK") with true.
    cbv iota. by rewrite Hbucket.
  - intros categories transaction Hkw Hnone. unfold reassign. rewrite Hkw.
    destruct (or_null (Tx.pf_category transaction)) as [label|] eqn:Hlabel;
      [|done].
    unfold findCategoryByPlaidCategory. rewrite Hlabel.
    assert (Tx.pf_category transaction = Val label) as Hpf.
    { destruct (Tx.pf_category transaction) as [| |s]; try discriminate.
      simpl in Hlabel. destruct (String.eqb s ""); congruence. }
    apply scan_buckets_none. intros bucket subs Hin Hinc.
    apply includes_spec in Hinc.
    pose proof (Hnone label bucket subs Hpf Hin Hinc) as Hall.
    pose proof (bucket_category_first categories subs) as Hfirst.
    destruct (bucket_category categories subs) as [c|]; [|done].
    destruct Hfirst as (before & after & -> & Hc & _).
    apply Forall_app in Hall as [_ Hall]. by inversion Hall.
  - apply reassign_assign_category.
Qed.

(** A payment at "ACME 42" that the provider labels FOOD_AND_DRINK goes
    to the only category, whose keyword is restaurant: the label names
    the food bucket and no other. *)
Lemma provider_category_fallback_witness :
  let dining :=
    Category.mk (Val "c2")
      (Category.mkDoc (Val "Dining") Absent (Val ["restaurant"])
                      Absent Absent Absent Absent Absent) in
  let payment :=
    Tx.mk (Val "t9") (Val "a1") (Val "2024-05-02") (Val "ACME 42") (Val "")
          (Val "") (Val 1250%float) (Val 1250%float) Null (Val "USD")
          (Val false) (Val "FOOD_AND_DRINK") Null Null (Val 1%Z) Absent in
  reassign [dining] payment = Some dining /\
  match reassign [dining] payment with
  | Some c =>
      first_with (bucket_hit ["food"; "restaurant"; "dining"; "grocery"])
                 [dining] c
  | None =>
      Forall (fun c => ~ bucket_hit ["food"; "restaurant"; "dining"; "grocery"] c)
             [dining]
  end.
Proof.
  intros dining payment. split.
  - apply (proj1 (proj2 (proj2 provider_category_fallback)) dining payment).
    + reflexivity.
    + reflexivity.
    + simpl. tauto.
  - apply (proj1 (proj2 provider_category_fallback) [dining] payment
                 "FOOD_AND_DRINK" "FOOD_AND_DRINK").
    + reflexivity.
    + reflexivity.
    + simpl. tauto.
    + by exists "", "".
    + intros bucket' subs' Hin Hocc. apply includes_spec in Hocc.
      simpl in Hin.
      repeat (destruct Hin as [Hin | Hin];
              [injection Hin as <- <-; first [reflexivity | discriminate Hocc] |]).
      destruct Hin.
Defined.

(** ** Snapshots *)

Lemma insert_by_id_perm {A} (x : string * A) l : insert_by_id x l ≡ₚ x :: l.
Proof.
  induction l as [|y l IH]; simpl; [done|].
  destruct (String.leb x.1 y.1); [done|].
  rewrite IH. apply Permutation_swap.
Qed.

Lemma docs_of_perm {A} (col : gmap string A) : docs_of col ≡ₚ map_to_list col.
Proof.
  unfold docs_of. induction (map_to_list col) as [|x l IH]; simpl; [done|].
  by rewrite insert_by_id_perm, IH.
Qed.

Lemma insert_by_id_sorted {A} (x : string * A) l :
  Sorted id_le l -> Sorted id_le (insert_by_id x l).
Proof.
  induction l as [|y l IH]; intros Hsorted; simpl.
  - by repeat constructor.
  - destruct (String.leb x.1 y.1) eqn:Hxy.
    + constructor; [done|]. by constructor.
    + apply Sorted_inv in Hsorted as [Hsorted Hhd].
      constructor; [by apply IH|].
      assert (id_le y x) as Hyx.
      { unfold id_le. by destruct (String.leb_total x.1 y.1) as [H|H]; [congruence|]. }
      destruct l as [|z l]; simpl; [by constructor|].
      destruct (String.leb x.1 z.1); constructor; [done|].
      by apply HdRel_inv in Hhd.
Qed.

(** A snapshot lists the documents in ascending order of their ids. *)
Lemma docs_of_sorted {A} (col : gmap string A) : Sorted id_le (docs_of col).
Proof.
  unfold docs_of. induction (map_to_list col) as [|x l IH]; simpl.
  - constructor.
  - by apply insert_by_id_sorted.
Qed.

Lemma elem_of_docs_of {A} (col : gmap string A) id doc :
  (id, doc) ∈ docs_of col <-> col !! id = Some doc.
Proof. by rewrite docs_of_perm, elem_of_map_to_list. Qed.

Lemma NoDup_fst_docs_of {A} (col : gmap string A) : NoDup (docs_of col).*1.
Proof. rewrite docs_of_perm. apply NoDup_fst_map_to_list. Qed.

Lemma length_docs_of {A} (col : gmap string A) :
  length (docs_of col) = size col.
Proof. by rewrite docs_of_perm, length_map_to_list. Qed.

(** ** Batches of merge writes on transactions *)

Lemma merge_field_idemp {A} (x y : field A) :
  merge_field x (merge_field x y) = merge_field x y.
Proof. by destruct x. Qed.

Lemma merge_field_absent_r {A} (x : field A) : merge_field x Absent = x.
Proof. by destruct x. Qed.

Lemma tx_merge_empty data : Tx.merge data Tx.empty = data.
Proof.
  destruct data. unfold Tx.merge. simpl.
  by rewrite !merge_field_absent_r.
Qed.

Lemma apply_writes_app ws1 ws2 d :
  apply_writes (ws1 ++ ws2) d = apply_writes ws1 d ≫= apply_writes ws2.
Proof.
  revert d. induction ws1 as [|w ws1 IH]; intros d; simpl; [done|].
  destruct (apply_write w d); [apply IH | done].
Qed.

(** A batch of merge writes on transactions always applies, and touches
    the transactions only. *)
Lemma apply_writes_set_txs {X} (key : X -> string) (data : X -> Tx.doc) l d :
  apply_writes ((fun x => SetTx (key x) (data x)) <$> l) d =
  Some (set_transactions
          (foldl (fun txs x => set_merge_tx (key x) (data x) txs)
                 (transactions d) l) d).
Proof.
  revert d. induction l as [|x l IH]; intros d; simpl.
  - by destruct d.
  - rewrite IH. by destruct d.
Qed.

Lemma lookup_set_merge_tx_ne id id' data txs :
  id <> id' -> set_merge_tx id data txs !! id' = txs !! id'.
Proof. intros. unfold set_merge_tx. by rewrite lookup_insert_ne. Qed.

Lemma lookup_set_merge_tx_eq id data txs :
  set_merge_tx id data txs !! id
  = Some (Tx.merge data (default Tx.empty (txs !! id))).
Proof. unfold set_merge_tx. by rewrite lookup_insert_eq. Qed.

Lemma lookup_foldl_set_merge_notin {X} (key : X -> string) (data : X -> Tx.doc)
    l txs id :
  ~ In id (key <$> l) ->
  foldl (fun txs x => set_merge_tx (key x) (data x) txs) txs l !! id = txs !! id.
Proof.
  revert txs. induction l as [|x l IH]; intros txs Hnotin; simpl; [done|].
  rewrite IH by (intros Hin; apply Hnotin; by right).
  apply lookup_set_merge_tx_ne. intros Heq. apply Hnotin. by left.
Qed.


Lemma sync_batch_applies cats added modified removed nextCursor now d :
  apply_writes (sync_batch cats added modified removed nextCursor now) d
  = Some (synced cats (mkDelta added modified removed nextCursor) now d).
Proof.
  unfold sync_batch, upsert_writes, removed_writes.
  rewrite apply_writes_app, apply_writes_set_txs. simpl.
  rewrite apply_writes_app,
    (apply_writes_set_txs Plaid.removed_id (fun _ => removed_data now)).
  simpl. by destruct d.
Qed.

Lemma tx_merge_idemp data old :
  Tx.merge data (Tx.merge data old) = Tx.merge data old.
Proof. unfold Tx.merge. simpl. by rewrite !merge_field_idemp. Qed.

(** Several markers for one id leave what one marker leaves. *)
Lemma lookup_marked_in rs now txs id :
  In id (Plaid.removed_id <$> rs) ->
  marked rs now txs !! id
  = Some (Tx.merge (removed_data now) (default Tx.empty (txs !! id))).
Proof.
  unfold marked. revert txs.
  induction rs as [|r rs IH]; intros txs Hin; simpl in *; [done|].
  destruct (in_dec String.string_dec id (Plaid.removed_id <$> rs)) as [Hrs|Hrs].
  - rewrite IH by done. f_equal.
    destruct (decide (Plaid.removed_id r = id)) as [<-|Hne].
    + rewrite lookup_set_merge_tx_eq. simpl. apply tx_merge_idemp.
    + by rewrite lookup_set_merge_tx_ne.
  - rewrite lookup_foldl_set_merge_notin by done.
    destruct Hin as [<-|Hin]; [|done]. apply lookup_set_merge_tx_eq.
Qed.

(** ** Upserts *)

Lemma merge_field_of_option {A} (o : option A) (x : field A) :
  merge_field (of_option o) x = of_option o.
Proof. by destruct o. Qed.

(** The data of an upsert fixes every field but [removed]. *)
Lemma sync_data_covers cats t now x y :
  Tx.removed x = Tx.removed y ->
  Tx.merge (sync_data cats t now) x = Tx.merge (sync_data cats t now) y.
Proof.
  intros Hremoved. unfold Tx.merge, sync_data. simpl.
  rewrite !merge_field_of_option, Hremoved.
  by destruct (PrimFloat.ltb 0 (Plaid.amount t)),
              (PrimFloat.ltb (Plaid.amount t) 0).
Qed.

(** Upserts leave the removed flag of every record as it was. *)
Lemma upserted_removed cats ts now txs id :
  Tx.removed (default Tx.empty (upserted cats ts now txs !! id))
  = Tx.removed (default Tx.empty (txs !! id)).
Proof.
  unfold upserted. revert txs.
  induction ts as [|t ts IH]; intros txs; simpl; [done|].
  rewrite IH. destruct (decide (Plaid.transaction_id t = id)) as [<-|Hne].
  - by rewrite lookup_set_merge_tx_eq.
  - by rewrite lookup_set_merge_tx_ne.
Qed.



(** ** Budget creation *)

(** C8.  When the user already has a budget, [POST /budgets] answers
    400 with the one-budget error and leaves the whole store, the budgets
    and the categories included, as it was: no write request is made and
    no document id is drawn. *)
Theorem create_budget_conflict :
  forall w name categories,
    budgets (store w) <> ∅ ->
    create_budget name categories w
    = (Ok (mkResponse 400 (ErrorBody "User can only have one budget for now")),
       w).
Proof.
  intros w name cats Hbudget. unfold create_budget, try_catch, bind, get_store.
  rewrite bool_decide_eq_false_2 by done. reflexivity.
Qed.

(** A user with one budget asks for a second one, with a category. *)
Lemma create_budget_conflict_witness :
  let d := mkDb None ∅ ∅ (<["b1" := Budget.mk (Val "My Budget") (Val 1%Z) (Val 1%Z)]> ∅) ∅ in
  let w := mkWorld d 7%Z [] (fun _ => "auto") 0 in
  create_budget (Val "Second")
    [Category.mkDoc (Val "Food") Absent (Val ["food"])
                    Absent Absent Absent Absent Absent] w
  = (Ok (mkResponse 400 (ErrorBody "User can only have one budget for now")), w).
Proof.
  intros d w. apply (create_budget_conflict w). simpl.
  apply insert_non_empty.
Defined.

(** ** Account deletion *)

Lemma has_account_true accountId (entry : string * Tx.doc) :
  has_account accountId entry = true
  <-> Tx.account_id (snd entry) = Val accountId.
Proof.
  unfold has_account. destruct (Tx.account_id entry.2) as [| |a]; try done.
  rewrite String.eqb_eq. split; [by intros -> | by intros [= ->]].
Qed.

Lemma apply_writes_delete_txs (ids : list string) d :
  apply_writes (DeleteTx <$> ids) d
  = Some (set_transactions (foldl (fun txs id => delete id txs)
                                  (transactions d) ids) d).
Proof.
  revert d. induction ids as [|id ids IH]; intros d; simpl.
  - by destruct d.
  - rewrite IH. by destruct d.
Qed.

Lemma lookup_foldl_delete (ids : list string) (txs : gmap string Tx.doc) id :
  foldl (fun txs id => delete id txs) txs ids !! id
  = if bool_decide (id ∈ ids) then None else txs !! id.
Proof.
  revert txs. induction ids as [|i ids IH]; intros txs; cbn [foldl].
  - rewrite bool_decide_eq_false_2; [done | apply not_elem_of_nil].
  - rewrite IH. destruct (decide (i = id)) as [->|Hne].
    + rewrite lookup_delete_eq.
      rewrite (bool_decide_eq_true_2 (id ∈ id :: ids)) by (apply elem_of_cons; by left).
      by case_bool_decide.
    + rewrite lookup_delete_ne by done.
      rewrite (bool_decide_ext (id ∈ i :: ids) (id ∈ ids)); [done|].
      rewrite elem_of_cons. split; [by intros [->|?] | by right].
Qed.

(** The batch of deletes of the cascade removes the transactions of the
    account and nothing else. *)
Lemma cascade_deletes accountId (txs : gmap string Tx.doc) :
  foldl (fun txs id => delete id txs) txs
        (fst <$> List.filter (has_account accountId) (docs_of txs))
  = without_transactions_of accountId txs.
Proof.
  apply map_eq. intros id. rewrite lookup_foldl_delete.
  unfold without_transactions_of.
  destruct (txs !! id) as [doc|] eqn:Hdoc.
  - destruct (decide (Tx.account_id doc = Val accountId)) as [Hacc|Hacc].
    + rewrite bool_decide_eq_true_2.
      * symmetry. apply map_lookup_filter_None. right. intros doc' Hdoc'.
        simpl. rewrite Hdoc in Hdoc'. injection Hdoc' as <-. tauto.
      * apply list_elem_of_In, in_map_iff. exists (id, doc). split; [done|].
        apply filter_In. split.
        -- apply list_elem_of_In, elem_of_docs_of. done.
        -- by apply has_account_true.
    + rewrite bool_decide_eq_false_2.
      * symmetry. by apply map_lookup_filter_Some.
      * intros Hin.
        apply list_elem_of_In, in_map_iff in Hin as ([id' doc'] & Hid & Hin).
        simpl in Hid. subst id'. apply filter_In in Hin as [Hin Htest].
        apply list_elem_of_In, elem_of_docs_of in Hin.
        apply has_account_true in Htest. simpl in Htest. congruence.
  - assert (filter (fun entry : string * Tx.doc =>
                      Tx.account_id (snd entry) <> Val accountId) txs !! id
            = None) as ->.
    { apply map_lookup_filter_None. by left. }
    by case_bool_decide.
Qed.

Lemma lookup_without_transactions_of accountId (txs : gmap string Tx.doc) id doc :
  without_transactions_of accountId txs !! id = Some doc
  <-> txs !! id = Some doc /\ Tx.account_id doc <> Val accountId.
Proof. unfold without_transactions_of. by rewrite map_lookup_filter_Some. Qed.

(** The claim of C9 fails on its last part: the cascade and the removal
    of the account are two write requests.  When the store accepts the
    first and rejects the second, the transactions of the account are
    gone and the account record is still there. *)
Lemma delete_account_not_atomic :
  let w := cascade_example in
  let w' := snd (delete_account "a1" true w) in
  fst (delete_account "a1" true w)
  = Ok (mkResponse 500 (ErrorBody "UNAVAILABLE")) /\
  accounts (store w') !! "a1" = accounts (store w) !! "a1" /\
  accounts (store w) !! "a1" <> None /\
  transactions (store w) !! "t1" <> None /\
  transactions (store w') !! "t1" = None /\
  store w' <> store w /\
  store w' <> account_deleted "a1" (store w).
Proof.
  assert (transactions (store (snd (delete_account "a1" true cascade_example)))
          !! "t1" = None) as Ht1 by (vm_compute; reflexivity).
  assert (accounts (store (snd (delete_account "a1" true cascade_example)))
          !! "a1" = accounts (store cascade_example) !! "a1") as Ha1
    by (vm_compute; reflexivity).
  intros w w'. subst w w'.
  refine (conj _ (conj _ (conj _ (conj _ (conj _ (conj _ _)))))).
  - vm_compute. reflexivity.
  - exact Ha1.
  - vm_compute. discriminate.
  - vm_compute. discriminate.
  - exact Ht1.
  - intros Heq. rewrite Heq in Ht1. vm_compute in Ht1. discriminate.
  - intros Heq. rewrite Heq in Ha1. vm_compute in Ha1. discriminate.
Qed.

(** C9, amended.  Deleting an existing account with
    [deleteTransactions = true] makes two write requests: one batch that
    deletes exactly the transactions whose [account_id] is the account's
    id, then the removal of the account record.  When both go through,
    the account and exactly those transactions are gone and every other
    transaction is unchanged; when the first is rejected nothing changes;
    when only the second is rejected the transactions are gone and the
    account remains. *)
Theorem delete_account_cascade :
  forall w accountId account,
    accounts (store w) !! accountId = Some account ->
    (forall id doc,
       transactions (account_deleted accountId (store w)) !! id = Some doc
       <-> transactions (store w) !! id = Some doc /\
           Tx.account_id doc <> Val accountId) /\
    accounts (account_deleted accountId (store w)) !! accountId = None /\
    exists response w',
      delete_account accountId true w = (Ok response, w') /\
      match faults w with
      | false :: _ => status response = 500 /\ store w' = store w
      | _ :: false :: _ =>
          status response = 500 /\
          store w' = transactions_deleted accountId (store w)
      | _ =>
          response = mkResponse 200 (AccountDeletedBody true) /\
          store w' = account_deleted accountId (store w)
      end.
Proof.
  intros w accountId account Haccount. split; [|split].
  - intros id doc. apply lookup_without_transactions_of.
  - simpl. apply lookup_delete_eq.
  - unfold delete_account, try_catch, bind, get_store, ret, commit.
    rewrite Haccount.
    assert (forall docs : list (string * Tx.doc),
              (fun doc : string * Tx.doc => DeleteTx (fst doc)) <$> docs
              = DeleteTx <$> (fst <$> docs)) as Hmap.
    { intros docs. by rewrite <- list_fmap_compose. }
    rewrite Hmap, apply_writes_delete_txs, cascade_deletes.
    destruct w as [d clk fs ids next]. simpl.
    destruct fs as [|[|] [|[|] fs]]; simpl; eexists _, _; (split; [reflexivity|]);
      simpl; split; try reflexivity; by destruct d.
Qed.

(** The cascade on the example store, with every write accepted. *)
Lemma delete_account_cascade_witness :
  exists response w',
    delete_account "a1" true (with_faults [] cascade_example)
    = (Ok response, w') /\
    response = mkResponse 200 (AccountDeletedBody true) /\
    store w' = account_deleted "a1" (store cascade_example).
Proof.
  destruct (delete_account_cascade (with_faults [] cascade_example) "a1"
              (Account.mk (Val "a1") (Val "Checking") Null Null Null Null
                          (Val "ins_1") (Val "Bank") (Val "") (Val 1%Z)))
    as (_ & _ & response & w' & Hrun & Hok & Hstore); [reflexivity|].
  exists response, w'. repeat split; assumption.
Defined.

(** ** Reconciliation *)

Lemma recategorize_step_spec cats id tx :
  recategorize_step cats (id, tx) =
  if bool_decide (or_null (Tx.category tx)
                  <> category_id_or_null (reassign cats tx))
  then Some (fun now => UpdateTx id (recategorize_data (reassign cats tx) now))
  else None.
Proof. done. Qed.

(** The batch of a pass applies to the store it was computed from, and
    leaves each listed transaction reconciled. *)
Lemma apply_recategorize_batch cats now (l : list (string * Tx.doc)) d :
  NoDup l.*1 ->
  (forall id tx, (id, tx) ∈ l -> transactions d !! id = Some tx) ->
  apply_writes ((fun update => update now) <$> omap (recategorize_step cats) l) d
  = Some (set_transactions
            (foldl (fun txs entry =>
                      <[fst entry := reconciled cats now (snd entry)]> txs)
                   (transactions d) l) d).
Proof.
  revert d. induction l as [|[id tx] l IH]; intros d Hnodup Hdocs.
  - simpl. by destruct d.
  - apply NoDup_cons in Hnodup as [Hnotin Hnodup].
    assert (transactions d !! id = Some tx) as Htx
      by (apply Hdocs; apply elem_of_cons; by left).
    assert (forall d1 : db,
              transactions d1 = <[id := reconciled cats now tx]> (transactions d) ->
              forall id' tx', (id', tx') ∈ l ->
                              transactions d1 !! id' = Some tx') as Hrest.
    { intros d1 -> id' tx' Hin. rewrite lookup_insert_ne.
      - apply Hdocs. apply elem_of_cons. by right.
      - intros ->. apply Hnotin. apply list_elem_of_fmap. by exists (id', tx'). }
    cbn [omap list_omap]. rewrite recategorize_step_spec.
    unfold reconciled in *. cbn [foldl fst snd].
    case_bool_decide as Hchanged.
    + cbn [fmap list_fmap apply_writes apply_write]. rewrite Htx.
      rewrite IH; [by destruct d | done | by apply Hrest].
    + rewrite (insert_id (transactions d) id tx) by done.
      apply IH; [done|]. intros id' tx' Hin. apply Hdocs.
      apply elem_of_cons. by right.
Qed.

Lemma foldl_insert_docs_of {A} (f : A -> A) (col : gmap string A) :
  foldl (fun col' entry => <[fst entry := f (snd entry)]> col') col (docs_of col)
  = f <$> col.
Proof.
  assert (forall (l : list (string * A)) (m : gmap string A) id,
            NoDup l.*1 ->
            foldl (fun col' entry => <[fst entry := f (snd entry)]> col') m l !! id
            = match list_find (fun entry => fst entry = id) l with
              | Some (_, entry) => Some (f (snd entry))
              | None => m !! id
              end) as Hlookup.
  { induction l as [|[k v] l IH]; intros m id Hnodup; [done|].
    apply NoDup_cons in Hnodup as [Hnotin Hnodup].
    cbn [foldl fst snd]. rewrite IH by done. cbn [list_find fst].
    case_decide as Hk.
    - subst k. simpl.
      destruct (list_find _ l) as [[i [k' v']]|] eqn:Hfind.
      + apply list_find_Some in Hfind as (Hl & Hk' & _). simpl in Hk'. subst k'.
        exfalso. apply Hnotin. apply list_elem_of_fmap. exists (id, v').
        split; [done|]. by eapply list_elem_of_lookup_2.
      + simpl. apply lookup_insert_eq.
    - destruct (list_find _ l) as [[i [k' v']]|] eqn:Hfind; simpl; [done|].
      by apply lookup_insert_ne. }
  apply map_eq. intros id.
  rewrite Hlookup by apply NoDup_fst_docs_of. rewrite lookup_fmap.
  destruct (list_find _ (docs_of col)) as [[i [k v]]|] eqn:Hfind.
  - apply list_find_Some in Hfind as (Hl & Hk & _). simpl in Hk. subst k.
    apply list_elem_of_lookup_2, elem_of_docs_of in Hl. by rewrite Hl.
  - destruct (col !! id) as [v|] eqn:Hcol; [|done]. exfalso.
    apply elem_of_docs_of in Hcol.
    apply list_find_None in Hfind. rewrite Forall_forall in Hfind.
    by apply (Hfind (id, v)).
Qed.

(** What a pass of [recategorizeAllTransactions] does: nothing when no
    assignment changes; otherwise one write request that, unless the
    store rejects it, leaves every transaction reconciled. *)
Lemma recategorize_run w :
  recategorizeAllTransactions w =
  if (0 <? changes (store w))%nat then
    match faults w with
    | false :: _ => (Throw "UNAVAILABLE", rejected w)
    | _ =>
        (Ok (mkResult (changes (store w)) (size (transactions (store w)))),
         committed (reconciled_db (clock w) (store w)) w)
    end
  else (Ok (mkResult (changes (store w)) (size (transactions (store w)))), w).
Proof.
  unfold recategorizeAllTransactions, bind, get_store, changes.
  rewrite length_docs_of.
  destruct (0 <? _)%nat; [|done].
  unfold commit.
  rewrite (apply_recategorize_batch (snapshot_categories (store w)) (clock w)
             (docs_of (transactions (store w))) (store w)).
  - rewrite foldl_insert_docs_of.
    unfold ret, committed, rejected, reconciled_db.
    destruct (faults w) as [|[|] fs]; simpl; done.
  - apply NoDup_fst_docs_of.
  - intros id tx. apply elem_of_docs_of.
Qed.

Lemma or_null_of_option_or_null x : or_null (of_option (or_null x)) = or_null x.
Proof.
  destruct x as [| |s]; try done. simpl.
  destruct (String.eqb s "") eqn:Hs; simpl; [done | by rewrite Hs].
Qed.

Lemma category_id_or_null_stored assigned :
  or_null (of_option (category_id_or_null assigned))
  = category_id_or_null assigned.
Proof. destruct assigned; [apply or_null_of_option_or_null | done]. Qed.

(** A pass does not touch the fields the assignment is computed from. *)
Lemma reassign_reconciled cats now tx :
  reassign cats (reconciled cats now tx) = reassign cats tx.
Proof. unfold reconciled. by case_bool_decide. Qed.

(** After a pass the stored category id is the recomputed one. *)
Lemma reconciled_category cats now tx :
  or_null (Tx.category (reconciled cats now tx))
  = category_id_or_null (reassign cats tx).
Proof.
  unfold reconciled. case_bool_decide as Hchanged.
  - simpl. rewrite merge_field_of_option. apply category_id_or_null_stored.
  - by destruct (decide (or_null (Tx.category tx)
                         = category_id_or_null (reassign cats tx))).
Qed.

(** When a pass changes the assignment, it stores the name the assigned
    category has at that moment. *)
Lemma reconciled_changed_name cats now tx :
  or_null (Tx.category tx) <> category_id_or_null (reassign cats tx) ->
  Tx.categoryName (reconciled cats now tx)
  = of_option (category_name_or_null (reassign cats tx)).
Proof.
  intros Hchanged. unfold reconciled. rewrite bool_decide_eq_true_2 by done.
  simpl. apply merge_field_of_option.
Qed.

(** A reconciled transaction needs no further update. *)
Lemma recategorize_step_reconciled cats now id tx :
  recategorize_step cats (id, reconciled cats now tx) = None.
Proof.
  rewrite recategorize_step_spec, reassign_reconciled, reconciled_category.
  by rewrite bool_decide_eq_false_2 by tauto.
Qed.

Lemma changes_reconciled_db now d : changes (reconciled_db now d) = 0.
Proof.
  unfold changes.
  replace (snapshot_categories (reconciled_db now d))
    with (snapshot_categories d) by (by destruct d).
  assert (forall l : list (string * Tx.doc),
            (forall id tx, (id, tx) ∈ l ->
               exists tx0, tx = reconciled (snapshot_categories d) now tx0) ->
            omap (recategorize_step (snapshot_categories d)) l = []) as Hnil.
  { induction l as [|[id tx] l IH]; intros Hall; [done|].
    destruct (Hall id tx) as [tx0 ->]; [apply elem_of_cons; by left|].
    cbn [omap list_omap]. rewrite recategorize_step_reconciled.
    apply IH. intros id' tx' Hin. apply (Hall id'). apply elem_of_cons. by right. }
  rewrite Hnil; [done|]. intros id tx Hin.
  apply elem_of_docs_of in Hin. simpl in Hin.
  rewrite lookup_fmap in Hin.
  destruct (transactions d !! id) as [tx0|]; [|done].
  exists tx0. by injection Hin.
Qed.

(** C5.  When a pass of the reconciliation has succeeded, a second pass
    right after it succeeds too, updates nothing and writes nothing. *)
Theorem recategorize_idempotent :
  forall w result w',
    recategorizeAllTransactions w = (Ok result, w') ->
    recategorizeAllTransactions w' = (Ok (mkResult 0 (total result)), w').
Proof.
  intros w result w' Hfirst. rewrite recategorize_run in Hfirst.
  destruct (0 <? changes (store w))%nat eqn:Hchanges.
  - assert (w' = committed (reconciled_db (clock w) (store w)) w /\
            total result = size (transactions (store w))) as [-> ->].
    { destruct (faults w) as [|[|] fs]; [| |done];
        injection Hfirst as <- <-; done. }
    rewrite recategorize_run. cbn [store committed].
    rewrite changes_reconciled_db. cbn [Nat.ltb Nat.leb].
    unfold reconciled_db, set_transactions. cbn [transactions].
    by rewrite map_size_fmap.
  - injection Hfirst as <- <-. rewrite recategorize_run, Hchanges.
    apply Nat.ltb_ge in Hchanges.
    by replace (changes (store w)) with 0 by lia.
Qed.

(** The first pass assigns the category, the second changes nothing. *)
Lemma recategorize_idempotent_witness :
  let first := recategorizeAllTransactions unassigned_world in
  fst first = Ok (mkResult 1 1) /\
  recategorizeAllTransactions (snd first) = (Ok (mkResult 0 1), snd first).
Proof.
  split; [vm_compute; reflexivity|].
  apply (recategorize_idempotent unassigned_world (mkResult 1 1)).
  vm_compute. reflexivity.
Defined.

(** C1, on the code.  A transaction is synced and assigned to the
    category Groceries; the category is then renamed to Food through
    [PUT /categories/:categoryId], which runs the reconciliation, and the
    reconciliation is run once more.  Both passes update nothing, because
    the assigned category id did not change, and the transaction still
    carries the old name. *)
Theorem rename_leaves_stale_name :
  let after_sync := snd (sync_transactions one_page 5 linked_world) in
  let renamed := update_category "c1" (rename "Food") after_sync in
  let again := recategorizeAllTransactions (snd renamed) in
  Tx.category <$> transactions (store after_sync) !! "t1" = Some (Val "c1") /\
  Tx.categoryName <$> transactions (store after_sync) !! "t1"
  = Some (Val "Groceries") /\
  fst renamed = Ok (mkResponse 200 (RecategorizedBody 0)) /\
  Category.name <$> categories (store (snd renamed)) !! "c1"
  = Some (Val "Food") /\
  fst again = Ok (mkResult 0 1) /\
  Tx.category <$> transactions (store (snd again)) !! "t1" = Some (Val "c1") /\
  Tx.categoryName <$> transactions (store (snd again)) !! "t1"
  = Some (Val "Groceries").
Proof.
  intros after_sync renamed again. subst after_sync renamed again.
  refine (conj _ (conj _ (conj _ (conj _ (conj _ (conj _ _))))));
    vm_compute; reflexivity.
Qed.

(** A pass rewrites the category fields of a transaction only when the
    assigned id differs from the stored one. *)
Lemma reconciled_same_id cats now tx :
  or_null (Tx.category tx) = category_id_or_null (reassign cats tx) ->
  reconciled cats now tx = tx.
Proof. intros Hsame. unfold reconciled. by rewrite bool_decide_eq_false_2 by tauto. Qed.

(** ** Amounts *)

(** C7, on the code.  The sync stores the product of the provider's
    amount and 100 as binary64 arithmetic gives it: for the purchase of
    4.35 the stored amount (and the outflow) lies strictly between 434
    and 435, so it is not a whole number of cents. *)
Theorem sync_amount_not_integral :
  exists cents : float,
    Tx.amount (sync_data [] purchase 0%Z) = Val cents /\
    Tx.outflow (sync_data [] purchase 0%Z) = Val cents /\
    cents = PrimFloat.mul 0x1.1666666666666p+2%float 100%float /\
    PrimFloat.ltb 434%float cents = true /\
    PrimFloat.ltb cents 435%float = true /\
    Tx.amount <$> transactions
                    (store (snd (sync_transactions one_page 5 linked_world)))
                  !! "t1"
    = Some (Val cents).
Proof.
  exists (PrimFloat.mul 0x1.1666666666666p+2%float 100%float).
  refine (conj _ (conj _ (conj _ (conj _ (conj _ _)))));
    vm_compute; reflexivity.
Qed.

(** ** Sync *)

(** One turn of the page loop. *)
Lemma fetch_pages_step transactionsSync fuel access_token nextCursor
    added modified removed :
  fetch_pages transactionsSync (S fuel) access_token nextCursor
              added modified removed =
  match transactionsSync access_token (or_undefined nextCursor) with
  | None => Throw "provider request failed"
  | Some data =>
      if Plaid.has_more data
      then fetch_pages transactionsSync fuel access_token
                       (Some (Plaid.next_cursor data))
                       (added ++ Plaid.added data)
                       (modified ++ Plaid.modified data)
                       (removed ++ Plaid.removed data)
      else Ok (mkDelta (added ++ Plaid.added data)
                       (modified ++ Plaid.modified data)
                       (removed ++ Plaid.removed data)
                       (Plaid.next_cursor data))
  end.
Proof. done. Qed.

(** The bound on the number of requests does not shape the result: once
    the loop ends within a bound, it ends the same way within any larger
    one. *)
Lemma fetch_pages_fuel_mono transactionsSync fuel fuel' access_token
    nextCursor added modified removed :
  fuel <= fuel' ->
  fetch_pages transactionsSync fuel access_token nextCursor
              added modified removed <> Diverge ->
  fetch_pages transactionsSync fuel' access_token nextCursor
              added modified removed
  = fetch_pages transactionsSync fuel access_token nextCursor
                added modified removed.
Proof.
  revert fuel' nextCursor added modified removed.
  induction fuel as [|fuel IH];
    intros fuel' nextCursor added modified removed Hle Hends; [done|].
  destruct fuel' as [|fuel']; [lia|].
  rewrite !fetch_pages_step in *.
  destruct (transactionsSync access_token (or_undefined nextCursor))
    as [data|]; [|done].
  destruct (Plaid.has_more data); [|done].
  apply IH; [lia | done].
Qed.

(** What the sync handler does, request by request. *)
Lemma sync_run transactionsSync fuel w :
  sync_transactions transactionsSync fuel w =
  match tokens (store w) with
  | None => (Ok (mkResponse 400 (ErrorBody "Bank not linked")), w)
  | Some tokenDoc =>
      match fetch_pages transactionsSync fuel (Token.access_token tokenDoc)
                        (or_null (Token.cursor tokenDoc)) [] [] [] with
      | Diverge => (Diverge, w)
      | Throw message => (Ok (mkResponse 500 (ErrorBody message)), w)
      | Ok pages =>
          match doc_refs (delta_ids pages) with
          | Throw message => (Ok (mkResponse 500 (ErrorBody message)), w)
          | Diverge => (Diverge, w)
          | Ok _ =>
              match faults w with
              | false :: _ =>
                  (Ok (mkResponse 500 (ErrorBody "UNAVAILABLE")), rejected w)
              | _ =>
                  let w1 :=
                    committed (synced (snapshot_categories (store w)) pages
                                      (clock w) (store w)) w in
                  match recategorizeAllTransactions w1 with
                  | (Ok result, w2) =>
                      (Ok (mkResponse 200
                             (SyncBody (length (d_added pages))
                                       (length (d_modified pages))
                                       (length (d_removed pages))
                                       (updated result))), w2)
                  | (Throw message, w2) =>
                      (Ok (mkResponse 500 (ErrorBody message)), w2)
                  | (Diverge, w2) => (Diverge, w2)
                  end
              end
          end
      end
  end.
Proof.
  unfold sync_transactions, try_catch, bind, get_store, ret.
  destruct (tokens (store w)) as [tokenDoc|]; [|done].
  destruct (fetch_pages _ _ _ _ _ _ _) as [pages| |]; [|done|done].
  destruct (doc_refs (delta_ids pages)) as [[]|message|]; [|done|done].
  unfold commit. rewrite sync_batch_applies.
  destruct pages as [added modified removed cursor]. cbn [d_added d_modified d_removed d_cursor].
  unfold committed, rejected.
  destruct (faults w) as [|[|] fs]; cbn [tail]; try done;
    by destruct (recategorizeAllTransactions _) as [[result|message|] w2].
Qed.

(** A sync that answers 200 has fetched its pages, taken a reference
    for every id, had its batch accepted and seen the reconciliation
    succeed. *)
Lemma sync_run_200 transactionsSync fuel w response w' :
  sync_transactions transactionsSync fuel w = (Ok response, w') ->
  status response = 200 ->
  exists tokenDoc pages result,
    tokens (store w) = Some tokenDoc /\
    fetch_pages transactionsSync fuel (Token.access_token tokenDoc)
                (or_null (Token.cursor tokenDoc)) [] [] [] = Ok pages /\
    doc_refs (delta_ids pages) = Ok tt /\
    head (faults w) <> Some false /\
    recategorizeAllTransactions
      (committed (synced (snapshot_categories (store w)) pages (clock w)
                         (store w)) w)
    = (Ok result, w') /\
    response = mkResponse 200
                 (SyncBody (length (d_added pages)) (length (d_modified pages))
                           (length (d_removed pages)) (updated result)).
Proof.
  intros Hrun Hstatus. rewrite sync_run in Hrun.
  destruct (tokens (store w)) as [tokenDoc|] eqn:Htokens;
    [|injection Hrun as <- <-; discriminate Hstatus].
  destruct (fetch_pages _ _ _ _ _ _ _) as [pages|message|] eqn:Hfetch;
    [| injection Hrun as <- <-; discriminate Hstatus | discriminate Hrun].
  destruct (doc_refs (delta_ids pages)) as [[]|message|] eqn:Hrefs;
    [| injection Hrun as <- <-; discriminate Hstatus | discriminate Hrun].
  exists tokenDoc, pages.
  assert (head (faults w) <> Some false) as Hfault.
  { destruct (faults w) as [|[|] fs]; [done | done |].
    injection Hrun as <- <-. discriminate Hstatus. }
  assert (match faults w with
          | false :: _ =>
              (Ok (mkResponse 500 (ErrorBody "UNAVAILABLE")), rejected w)
          | _ =>
              let w1 :=
                committed (synced (snapshot_categories (store w)) pages
                                  (clock w) (store w)) w in
              match recategorizeAllTransactions w1 with
              | (Ok result, w2) =>
                  (Ok (mkResponse 200
                         (SyncBody (length (d_added pages))
                                   (length (d_modified pages))
                                   (length (d_removed pages))
                                   (updated result))), w2)
              | (Throw message, w2) =>
                  (Ok (mkResponse 500 (ErrorBody message)), w2)
              | (Diverge, w2) => (Diverge, w2)
              end
          end
          = let w1 :=
              committed (synced (snapshot_categories (store w)) pages
                                (clock w) (store w)) w in
            match recategorizeAllTransactions w1 with
            | (Ok result, w2) =>
                (Ok (mkResponse 200
                       (SyncBody (length (d_added pages))
                                 (length (d_modified pages))
                                 (length (d_removed pages))
                                 (updated result))), w2)
            | (Throw message, w2) =>
                (Ok (mkResponse 500 (ErrorBody message)), w2)
            | (Diverge, w2) => (Diverge, w2)
            end) as Haccepted.
  { by destruct (faults w) as [|[|] fs]. }
  rewrite Haccepted in Hrun. cbv zeta in Hrun.
  destruct (recategorizeAllTransactions _) as [[result|message|] w2];
    [| injection Hrun as <- <-; discriminate Hstatus | discriminate Hrun].
  injection Hrun as <- <-. exists result. by repeat split.
Qed.


(** The references are refused or taken; the call returns. *)
Lemma doc_refs_returns ids : doc_refs ids <> Diverge.
Proof.
  induction ids as [|id ids IH]; simpl; [done|]. unfold doc_ref.
  destruct (String.eqb id ""); [done|]. by destruct (includes id "/").
Qed.

(** The store after a pass of the reconciliation, however it ends. *)
Lemma recategorize_store w :
  store (snd (recategorizeAllTransactions w)) = store w \/
  store (snd (recategorizeAllTransactions w))
  = reconciled_db (clock w) (store w).
Proof.
  rewrite recategorize_run. destruct (0 <? _)%nat; [|by left].
  destruct (faults w) as [|[|] fs]; simpl; auto.
Qed.

(** C2.  A sync makes one write request for the upserts, the removal
    markers and the new cursor together.  Whatever the provider and the
    store do, the run ends in one of these ways: the provider fails on
    some page (or the loop does not end) and the store is untouched, no
    write request having been made; an id of the delta is no document id
    and the store is untouched, again without a write request; the store
    rejects the batch and the store is untouched; or the whole batch is
    applied - every upsert, every marker and the cursor of the last
    page - possibly followed by the separate write of the
    reconciliation.  A provider that fails on its second page leaves the
    store, cursor included, as it was. *)
Theorem sync_atomic :
  (forall transactionsSync fuel w,
     let run := sync_transactions transactionsSync fuel w in
     match tokens (store w) with
     | None => run = (Ok (mkResponse 400 (ErrorBody "Bank not linked")), w)
     | Some tokenDoc =>
         match fetch_pages transactionsSync fuel (Token.access_token tokenDoc)
                           (or_null (Token.cursor tokenDoc)) [] [] [] with
         | Throw message => run = (Ok (mkResponse 500 (ErrorBody message)), w)
         | Diverge => run = (Diverge, w)
         | Ok pages =>
             match doc_refs (delta_ids pages) with
             | Throw message =>
                 run = (Ok (mkResponse 500 (ErrorBody message)), w)
             | Diverge => run = (Diverge, w)
             | Ok _ =>
                 exists all_written,
                   apply_writes
                     (sync_batch (snapshot_categories (store w))
                                 (d_added pages) (d_modified pages)
                                 (d_removed pages) (d_cursor pages) (clock w))
                     (store w) = Some all_written /\
                   Token.cursor <$> tokens all_written
                   = Some (Val (d_cursor pages)) /\
                   transactions all_written
                   = marked (d_removed pages) (clock w)
                       (upserted (snapshot_categories (store w))
                                 (d_added pages ++ d_modified pages) (clock w)
                                 (transactions (store w))) /\
                   match faults w with
                   | false :: _ =>
                       fst run
                       = Ok (mkResponse 500 (ErrorBody "UNAVAILABLE")) /\
                       store (snd run) = store w
                   | _ =>
                       store (snd run) = all_written \/
                       store (snd run)
                       = reconciled_db (clock w + 1)%Z all_written
                   end
             end
         end
     end) /\
  sync_transactions fails_on_second_page 5 linked_world
  = (Ok (mkResponse 500 (ErrorBody "provider request failed")), linked_world).
Proof.
  split; [|reflexivity].
  intros transactionsSync fuel w run. subst run. rewrite sync_run.
  destruct (tokens (store w)) as [tokenDoc|]; [|done].
  destruct (fetch_pages _ _ _ _ _ _ _) as [pages| |]; [|done|done].
  destruct (doc_refs (delta_ids pages)) as [[]|message|]; [|done|done].
  destruct pages as [added modified removed cursor].
  cbn [d_added d_modified d_removed d_cursor].
  exists (synced (snapshot_categories (store w))
                 (mkDelta added modified removed cursor) (clock w) (store w)).
  split; [apply sync_batch_applies|]. split; [done|]. split; [done|].
  set (w1 := committed _ w).
  pose proof (recategorize_store w1) as Hstore.
  destruct (faults w) as [|[|] fs]; [| |done];
    destruct (recategorizeAllTransactions w1) as [[result|message|] w2];
    exact Hstore.
Qed.

(** * Further properties of the handlers *)

(** ** What the matching can assign *)

Lemma first_with_In {A} (P : A -> Prop) (l : list A) (c : A) :
  first_with P l c -> In c l /\ P c.
Proof.
  intros (before & after & -> & Hc & _). split; [|done].
  apply in_or_app. right. by left.
Qed.

Lemma scan_buckets_Some categories label mappings c :
  scan_buckets categories label mappings = Some c ->
  exists bucket subs,
    In (bucket, subs) mappings /\ occurs bucket label /\
    first_with (bucket_hit subs) categories c.
Proof.
  induction mappings as [|[bucket subs] rest IH]; simpl; [done|].
  destruct (includes label bucket) eqn:Hinc.
  - pose proof (bucket_category_first categories subs) as Hfirst.
    destruct (bucket_category categories subs) as [c'|].
    + intros [= ->]. exists bucket, subs.
      split; [by left|]. split; [by apply includes_spec | done].
    + intros Hrest. destruct (IH Hrest) as (b & s & Hin & Hocc & Hc).
      exists b, s. split; [by right | done].
  - intros Hrest. destruct (IH Hrest) as (b & s & Hin & Hocc & Hc).
    exists b, s. split; [by right | done].
Qed.

(** An assigned category is one of the given ones and has keywords. *)
Lemma reassign_In categories transaction c :
  reassign categories transaction = Some c ->
  In c categories /\ guarded_keywords c <> [].
Proof.
  unfold reassign.
  pose proof (findCategoryByKeywords_first categories (Tx.name transaction)
                (Tx.merchant_name transaction)) as Hkw.
  destruct (findCategoryByKeywords _ _ _) as [c'|].
  - intros [= ->]. apply first_with_In in Hkw as [Hin (keyword & Hk & _)].
    split; [done|]. by destruct (guarded_keywords c).
  - destruct (or_null (Tx.pf_category transaction)) as [label|] eqn:Hlabel;
      [|done].
    unfold findCategoryByPlaidCategory. rewrite Hlabel. intros Hscan.
    apply scan_buckets_Some in Hscan as (bucket & subs & _ & _ & Hc).
    apply first_with_In in Hc as [Hc (keyword & k & Hk & _)].
    split; [done|]. by destruct (guarded_keywords c).
Qed.

(** X1.  The reconciliation only ever assigns one of the user's
    categories, and only on the evidence of one of its keywords: the
    keyword occurs in the search text, or the provider label names a
    bucket of the table and the keyword contains a sub-keyword of that
    bucket.  A category without keywords is never assigned. *)
Theorem reassign_sound :
  forall categories transaction c,
    reassign categories transaction = Some c ->
    In c categories /\
    guarded_keywords c <> [] /\
    (keyword_hit (search_text (Tx.name transaction)
                              (Tx.merchant_name transaction)) c \/
     exists label bucket subs,
       Tx.pf_category transaction = Val label /\
       In (bucket, subs) plaidMappings /\ occurs bucket label /\
       bucket_hit subs c).
Proof.
  intros categories transaction c. unfold reassign.
  pose proof (findCategoryByKeywords_first categories (Tx.name transaction)
                (Tx.merchant_name transaction)) as Hkw.
  destruct (findCategoryByKeywords _ _ _) as [c'|].
  - intros [= ->]. apply first_with_In in Hkw as [Hin Hhit].
    split; [done|]. split; [|by left].
    destruct Hhit as (keyword & Hk & _). by destruct (guarded_keywords c).
  - destruct (or_null (Tx.pf_category transaction)) as [label|] eqn:Hlabel;
      [|done].
    unfold findCategoryByPlaidCategory. rewrite Hlabel. intros Hscan.
    apply scan_buckets_Some in Hscan as (bucket & subs & Hin & Hocc & Hc).
    apply first_with_In in Hc as [Hc Hhit].
    split; [done|]. split.
    + destruct Hhit as (keyword & k & Hk & _). by destruct (guarded_keywords c).
    + right. exists label, bucket, subs. repeat split; try done.
      destruct (Tx.pf_category transaction) as [| |s]; try done.
      simpl in Hlabel. destruct (String.eqb s ""); congruence.
Qed.

(** A transfer labelled TRAVEL meets a category with the keyword hotel. *)
Lemma reassign_sound_witness :
  let lodging :=
    Category.mk (Val "c7")
      (Category.mkDoc (Val "Lodging") Absent (Val ["Hotel"])
                      Absent Absent Absent Absent Absent) in
  let stay :=
    Tx.mk (Val "t4") (Val "a1") (Val "2024-06-01") (Val "INN 17") (Val "")
          (Val "") (Val 9900%float) (Val 9900%float) Null (Val "USD")
          (Val false) (Val "TRAVEL") Null Null (Val 1%Z) Absent in
  In lodging [lodging] /\ guarded_keywords lodging <> [].
Proof.
  intros lodging stay.
  destruct (reassign_sound [lodging] stay lodging) as (Hin & Hkw & _);
    [reflexivity|].
  by split.
Defined.

(** ** What a pass of the reconciliation leaves behind *)

Lemma In_snapshot_categories d c :
  In c (snapshot_categories d)
  <-> exists id,
        categories d !! id = Some (Category.data c) /\
        c = Category.of_doc id (Category.data c).
Proof.
  unfold snapshot_categories.
  rewrite <- list_elem_of_In, list_elem_of_fmap. split.
  - intros ([id doc] & -> & Hin). exists id. split; [|done].
    by apply elem_of_docs_of in Hin.
  - intros (id & Hdoc & Hc). exists (id, Category.data c). split; [done|].
    by apply elem_of_docs_of.
Qed.

(** A check of [document_ids] that evaluates. *)
Lemma document_ids_checked d :
  forallb (fun entry : string * Category.doc =>
             bool_decide (Category.own_id (snd entry) = Absent))
          (docs_of (categories d)) = true ->
  document_ids d.
Proof.
  intros Hall id doc Hdoc. rewrite forallb_forall in Hall.
  apply elem_of_docs_of, list_elem_of_In, Hall in Hdoc.
  by apply bool_decide_eq_true in Hdoc.
Qed.

Lemma omap_nil_inv {A B} (f : A -> option B) (l : list A) x :
  length (omap f l) = 0 -> x ∈ l -> f x = None.
Proof.
  induction l as [|y l IH]; intros Hlen Hin; [by apply elem_of_nil in Hin|].
  cbn [omap list_omap] in Hlen.
  apply elem_of_cons in Hin as [->|Hin].
  - by destruct (f y).
  - destruct (f y); [done|]. by apply IH.
Qed.

(** The store of a world in which a pass has succeeded: either no
    assignment had to change and nothing moved, or every transaction was
    reconciled in one write. *)
Lemma recategorize_Ok w result w' :
  recategorizeAllTransactions w = (Ok result, w') ->
  updated result = changes (store w) /\
  total result = size (transactions (store w)) /\
  ((changes (store w) = 0 /\ w' = w) \/
   (0 < changes (store w) /\
    w' = committed (reconciled_db (clock w) (store w)) w)).
Proof.
  rewrite recategorize_run. destruct (0 <? changes (store w))%nat eqn:Hchanges.
  - apply Nat.ltb_lt in Hchanges.
    destruct (faults w) as [|[|] fs]; [| |done]; intros [= <- <-]; auto.
  - apply Nat.ltb_ge in Hchanges. intros [= <- <-].
    repeat split; try done. left. split; [lia | done].
Qed.

(** A pass, however it ends, leaves everything but the transactions. *)
Lemma recategorize_keeps_catalog w :
  let w' := snd (recategorizeAllTransactions w) in
  tokens (store w') = tokens (store w) /\
  accounts (store w') = accounts (store w) /\
  budgets (store w') = budgets (store w) /\
  categories (store w') = categories (store w).
Proof.
  intros w'. subst w'.
  destruct (recategorize_store w) as [-> | ->]; repeat split; reflexivity.
Qed.

(** Case analysis on the pass of the reconciliation a handler runs,
    with what the pass keeps. *)
Ltac run_recategorize :=
  match goal with
  | |- context [recategorizeAllTransactions ?w1] =>
      let result := fresh "result" in
      let message := fresh "message" in
      let w2 := fresh "w2" in
      let Hrecat := fresh "Hrecat" in
      destruct (recategorize_keeps_catalog w1)
        as (Htokens & Haccounts & Hbudgets & Hcatalog);
      destruct (recategorizeAllTransactions w1)
        as [[result|message|] w2] eqn:Hrecat
  end.

(** A successful pass leaves every transaction with the computed
    category. *)
Lemma recategorize_Ok_assigned w result w' :
  recategorizeAllTransactions w = (Ok result, w') ->
  all_assigned (store w').
Proof.
  intros Hrun id tx Htx.
  apply recategorize_Ok in Hrun as (_ & _ & [[Hzero ->] | [_ ->]]).
  - unfold changes in Hzero.
    pose proof (omap_nil_inv _ _ (id, tx) Hzero) as Hstep.
    rewrite recategorize_step_spec in Hstep.
    specialize (Hstep ltac:(by apply elem_of_docs_of)).
    case_bool_decide as Hsame; [done|].
    by destruct (decide (or_null (Tx.category tx)
                         = category_id_or_null
                             (reassign (snapshot_categories (store w)) tx))).
  - cbn [store committed] in *.
    replace (snapshot_categories (reconciled_db (clock w) (store w)))
      with (snapshot_categories (store w)) by (by destruct (store w)).
    unfold reconciled_db, set_transactions in Htx. cbn [transactions] in Htx.
    rewrite lookup_fmap in Htx.
    destruct (transactions (store w) !! id) as [tx0|]; [|done].
    injection Htx as <-.
    by rewrite reconciled_category, reassign_reconciled.
Qed.

(** In a store where every transaction carries the computed category,
    a category id on a transaction is the id of a category with
    keywords. *)
Lemma all_assigned_integrity d id tx categoryId :
  document_ids d ->
  all_assigned d ->
  transactions d !! id = Some tx ->
  or_null (Tx.category tx) = Some categoryId ->
  exists category,
    categories d !! categoryId = Some category /\
    exists ks, Category.keywords category = Val ks /\ ks <> [].
Proof.
  intros Hids Hall Htx Hcategory. rewrite (Hall id tx Htx) in Hcategory.
  destruct (reassign (snapshot_categories d) tx) as [c|] eqn:Hc; [|done].
  apply reassign_In in Hc as (Hin & Hkw).
  apply In_snapshot_categories in Hin as (cid & Hdoc & Hspread).
  assert (cid = categoryId) as ->.
  { rewrite Hspread in Hcategory. unfold Category.of_doc in Hcategory.
    rewrite (Hids cid _ Hdoc) in Hcategory. simpl in Hcategory.
    destruct (String.eqb cid ""); congruence. }
  exists (Category.data c). split; [done|].
  unfold guarded_keywords in Hkw.
  destruct (Category.keywords (Category.data c)) as [| |ks]; try done.
  by exists ks.
Qed.

(** X2.  After a successful pass every stored transaction carries the
    category the matching computes for it from the current categories:
    an assignment made by hand that the keywords do not reproduce is
    overwritten, and a transaction that nothing matches has no
    category. *)
Theorem recategorize_fixed_point :
  forall w result w' id tx,
    recategorizeAllTransactions w = (Ok result, w') ->
    transactions (store w') !! id = Some tx ->
    or_null (Tx.category tx)
    = category_id_or_null (reassign (snapshot_categories (store w')) tx) /\
    (reassign (snapshot_categories (store w')) tx = None ->
     or_null (Tx.category tx) = None).
Proof.
  intros w result w' id tx Hrun Htx.
  pose proof (recategorize_Ok_assigned w result w' Hrun id tx Htx) as Hassigned.
  split; [exact Hassigned|].
  intros Hnone. by rewrite Hassigned, Hnone.
Qed.

(** The pass that assigns the stored purchase to Groceries. *)
Lemma recategorize_fixed_point_witness :
  exists tx,
    transactions (store (snd (recategorizeAllTransactions unassigned_world)))
    !! "t1" = Some tx /\
    or_null (Tx.category tx) = Some "c1".
Proof.
  eexists. split; [vm_compute; reflexivity|].
  rewrite (proj1 (recategorize_fixed_point unassigned_world (mkResult 1 1)
                    (snd (recategorizeAllTransactions unassigned_world)) "t1" _
                    ltac:(vm_compute; reflexivity)
                    ltac:(vm_compute; reflexivity))).
  vm_compute. reflexivity.
Defined.

(** X3.  In a store where no category document has a property [id] of
    its own, a successful pass leaves no transaction that refers to a
    category that does not exist: a category id stored on a transaction
    is the id of a category document of the user, and that category has
    keywords. *)
Theorem recategorize_referential_integrity :
  forall w result w' id tx categoryId,
    document_ids (store w) ->
    recategorizeAllTransactions w = (Ok result, w') ->
    transactions (store w') !! id = Some tx ->
    or_null (Tx.category tx) = Some categoryId ->
    exists category,
      categories (store w') !! categoryId = Some category /\
      exists ks, Category.keywords category = Val ks /\ ks <> [].
Proof.
  intros w result w' id tx categoryId Hids Hrun Htx Hcategory.
  assert (document_ids (store w')) as Hids'.
  { destruct (recategorize_keeps_catalog w) as (_ & _ & _ & Hcatalog).
    rewrite Hrun in Hcatalog. simpl in Hcatalog.
    unfold document_ids. by rewrite Hcatalog. }
  apply recategorize_Ok_assigned in Hrun.
  by eapply all_assigned_integrity.
Qed.

Lemma recategorize_referential_integrity_witness :
  exists category,
    categories (store (snd (recategorizeAllTransactions unassigned_world)))
    !! "c1" = Some category /\
    exists ks, Category.keywords category = Val ks /\ ks <> [].
Proof.
  eapply (recategorize_referential_integrity unassigned_world (mkResult 1 1)
            (snd (recategorizeAllTransactions unassigned_world)) "t1").
  - apply document_ids_checked. vm_compute. reflexivity.
  - vm_compute. reflexivity.
  - vm_compute. reflexivity.
  - vm_compute. reflexivity.
Defined.

(** X25.  The id a pass writes on a transaction is the [id] of the
    category object, not always the id of the category document: after a
    successful pass a transaction that some category matches carries the
    id property that the matched category's document stores itself, if
    it stores one, and the document id otherwise.  A stored id that
    names no document leaves the transaction with a reference to
    nothing. *)
Theorem recategorize_assigns_object_id :
  forall w result w' id tx,
    recategorizeAllTransactions w = (Ok result, w') ->
    transactions (store w') !! id = Some tx ->
    match reassign (snapshot_categories (store w')) tx with
    | Some c =>
        exists documentId,
          categories (store w') !! documentId = Some (Category.data c) /\
          or_null (Tx.category tx)
          = or_null match Category.own_id (Category.data c) with
                    | Absent => Val documentId
                    | own => own
                    end
    | None => or_null (Tx.category tx) = None
    end.
Proof.
  intros w result w' id tx Hrun Htx.
  rewrite (recategorize_Ok_assigned _ _ _ Hrun id tx Htx).
  destruct (reassign (snapshot_categories (store w')) tx) as [c|] eqn:Hc;
    [|done].
  apply reassign_In in Hc as (Hin & _).
  apply In_snapshot_categories in Hin as (documentId & Hdoc & Hspread).
  exists documentId. split; [exact Hdoc|].
  rewrite Hspread at 1. reflexivity.
Qed.

(** The pass assigns the stored transaction to the category under the
    id that the category's document stores, which names no document. *)
Lemma recategorize_assigns_object_id_witness :
  let w' := snd (recategorizeAllTransactions ghost_world) in
  exists tx,
    transactions (store w') !! "t1" = Some tx /\
    or_null (Tx.category tx) = Some "ghost" /\
    categories (store w') !! "ghost" = None.
Proof.
  intros w'. eexists. split; [vm_compute; reflexivity|].
  split; [|vm_compute; reflexivity].
  pose proof (recategorize_assigns_object_id ghost_world (mkResult 1 1) w' "t1"
                _ ltac:(vm_compute; reflexivity)
                ltac:(vm_compute; reflexivity)) as Hassigned.
  vm_compute in Hassigned. destruct Hassigned as (documentId & _ & Hid).
  vm_compute. exact Hid.
Defined.

Lemma reconciled_same_but_category cats now tx :
  same_but_category tx (reconciled cats now tx).
Proof.
  unfold reconciled, same_but_category.
  case_bool_decide; simpl; repeat split; reflexivity.
Qed.

(** X4.  A successful pass touches nothing but the category fields of
    transactions: tokens, accounts, budgets and categories are as before,
    no transaction is added or removed, and every transaction keeps all
    its fields other than [category], [categoryName] and [updatedAt],
    the removed flag and the amounts included. *)
Theorem recategorize_frame :
  forall w result w',
    recategorizeAllTransactions w = (Ok result, w') ->
    tokens (store w') = tokens (store w) /\
    accounts (store w') = accounts (store w) /\
    budgets (store w') = budgets (store w) /\
    categories (store w') = categories (store w) /\
    forall id,
      match transactions (store w) !! id, transactions (store w') !! id with
      | Some tx, Some tx' => same_but_category tx tx'
      | None, None => True
      | _, _ => False
      end.
Proof.
  intros w result w' Hrun.
  apply recategorize_Ok in Hrun as (_ & _ & [[_ ->] | [_ ->]]).
  - repeat split; try done. intros id.
    destruct (transactions (store w) !! id) as [tx|]; [|done].
    unfold same_but_category. repeat split; reflexivity.
  - cbn [store committed]. unfold reconciled_db, set_transactions.
    cbn [tokens accounts budgets categories transactions].
    repeat split; try done. intros id. rewrite lookup_fmap.
    destruct (transactions (store w) !! id) as [tx|]; simpl; [|done].
    apply reconciled_same_but_category.
Qed.

Lemma recategorize_frame_witness :
  categories (store (snd (recategorizeAllTransactions unassigned_world)))
  = categories (store unassigned_world).
Proof.
  destruct (recategorize_frame unassigned_world (mkResult 1 1)
              (snd (recategorizeAllTransactions unassigned_world)))
    as (_ & _ & _ & Hcategories & _); [vm_compute; reflexivity|].
  exact Hcategories.
Defined.

Lemma length_omap_le {A B} (f : A -> option B) (l : list A) :
  length (omap f l) <= length l.
Proof.
  induction l as [|x l IH]; [done|]. cbn [omap list_omap].
  destruct (f x); simpl; lia.
Qed.

(** X5.  The counts a pass returns: [total] is the number of stored
    transactions and [updated] never exceeds it; a pass that reports
    [updated = 0] has made no write request and left the world as it
    was, and one that reports more has made exactly one. *)
Theorem recategorize_counts :
  forall w result w',
    recategorizeAllTransactions w = (Ok result, w') ->
    total result = size (transactions (store w)) /\
    updated result <= total result /\
    (updated result = 0 -> w' = w) /\
    (0 < updated result -> clock w' = (clock w + 1)%Z /\
                           faults w' = tail (faults w)).
Proof.
  intros w result w' Hrun.
  apply recategorize_Ok in Hrun as (Hupdated & Htotal & Hcases).
  split; [done|]. split.
  - rewrite Hupdated, Htotal, <- length_docs_of. apply length_omap_le.
  - rewrite Hupdated.
    destruct Hcases as [[Hzero ->] | [Hpos ->]]; split; try done; try lia.
Qed.

Lemma recategorize_counts_witness :
  clock (snd (recategorizeAllTransactions unassigned_world)) = 11%Z.
Proof.
  destruct (recategorize_counts unassigned_world (mkResult 1 1)
              (snd (recategorizeAllTransactions unassigned_world)))
    as (_ & _ & _ & Hclock); [vm_compute; reflexivity|].
  destruct Hclock as [Hclock _]; [simpl; lia|].
  rewrite Hclock. reflexivity.
Defined.

(** ** The batch of a sync *)

(** X6.  The batch of a sync sets the removed flag of the ids the
    provider lists as removed and leaves the flag of every other record
    as it was.  An upsert never clears the flag: a transaction that was
    marked removed and that the provider reports again stays marked. *)
Theorem sync_batch_removed_flag :
  forall categories added modified removed nextCursor now d id,
    exists d',
      apply_writes
        (sync_batch categories added modified removed nextCursor now) d
      = Some d' /\
      Tx.removed (default Tx.empty (transactions d' !! id))
      = if bool_decide (id ∈ Plaid.removed_id <$> removed) then Val true
        else Tx.removed (default Tx.empty (transactions d !! id)).
Proof.
  intros categories added modified removed nextCursor now d id.
  eexists. split; [apply sync_batch_applies|]. simpl.
  case_bool_decide as Hin.
  - apply list_elem_of_In in Hin. by rewrite lookup_marked_in.
  - unfold marked. rewrite lookup_foldl_set_merge_notin.
    + apply upserted_removed.
    + by rewrite <- list_elem_of_In.
Qed.

(** ** Letter case *)

Lemma lower_ascii_idemp c : lower_ascii (lower_ascii c) = lower_ascii c.
Proof. by destruct c as [[] [] [] [] [] [] [] []]. Qed.

Lemma toLowerCase_idemp s : toLowerCase (toLowerCase s) = toLowerCase s.
Proof.
  induction s as [|c s IH]; [done|]. simpl. by rewrite lower_ascii_idemp, IH.
Qed.

Lemma toLowerCase_app s1 s2 :
  toLowerCase (s1 +:+ s2) = toLowerCase s1 +:+ toLowerCase s2.
Proof. induction s1 as [|c s1 IH]; [done|]. simpl. by rewrite IH. Qed.

Lemma find_fmap {A B} (p : B -> bool) (f : A -> B) (l : list A) :
  List.find p (f <$> l) = f <$> List.find (fun x => p (f x)) l.
Proof.
  induction l as [|x l IH]; [done|]. simpl. by destruct (p (f x)).
Qed.

Lemma find_ext {A} (p q : A -> bool) (l : list A) :
  (forall x, p x = q x) -> List.find p l = List.find q l.
Proof.
  intros Hpq. induction l as [|x l IH]; [done|]. simpl.
  by rewrite Hpq, IH.
Qed.

Lemma existsb_fmap {A B} (p : B -> bool) (f : A -> B) (l : list A) :
  existsb p (f <$> l) = existsb (fun x => p (f x)) l.
Proof. induction l as [|x l IH]; [done|]. simpl. f_equal. apply IH. Qed.

(** X7.  On ASCII text, keyword matching ignores the case of the
    letters A to Z on both sides: two transactions whose names and
    merchant names agree up to that case get the same category, and
    writing the keywords of the categories in lower case changes nothing
    in which category is found.  (Text with other letters is outside
    the embedding, whose [toLowerCase] folds A to Z only.) *)
Theorem keyword_matching_ignores_case :
  (forall categories name1 name2 merchant1 merchant2,
     ascii_keywords categories = true ->
     ascii_text name1 = true -> ascii_text name2 = true ->
     ascii_text merchant1 = true -> ascii_text merchant2 = true ->
     toLowerCase name1 = toLowerCase name2 ->
     toLowerCase merchant1 = toLowerCase merchant2 ->
     findCategoryByKeywords categories (Val name1) (Val merchant1)
     = findCategoryByKeywords categories (Val name2) (Val merchant2)) /\
  (forall categories name merchant_name,
     ascii_keywords categories = true ->
     ascii_text (template name) = true ->
     ascii_text (or_empty merchant_name) = true ->
     findCategoryByKeywords (lower_keywords <$> categories) name merchant_name
     = lower_keywords <$> findCategoryByKeywords categories name merchant_name).
Proof.
  split.
  - intros categories name1 name2 merchant1 merchant2 _ _ _ _ _ Hname
           Hmerchant.
    unfold findCategoryByKeywords. simpl.
    by rewrite !toLowerCase_app, Hname, Hmerchant.
  - intros categories name merchant_name _ _ _.
    unfold findCategoryByKeywords.
    rewrite find_fmap. f_equal. apply find_ext. intros c.
    unfold guarded_keywords, lower_keywords. simpl.
    destruct (Category.keywords (Category.data c)) as [| |ks]; try done.
    rewrite existsb_fmap. induction ks as [|k ks IH]; [done|].
    simpl. by rewrite toLowerCase_idemp, IH.
Qed.

(** ** Outcomes of a sync *)

(** X8.  A sync that answers 200 has stored the cursor of the last page
    and the time of the commit in the credential, has kept the access
    token and the item id, and reports the sizes of the three lists the
    provider delivered. *)
Theorem sync_success_stores_cursor :
  forall transactionsSync fuel w answer w',
    sync_transactions transactionsSync fuel w = (Ok answer, w') ->
    status answer = 200 ->
    exists tokenDoc pages tokenDoc' recategorized,
      tokens (store w) = Some tokenDoc /\
      fetch_pages transactionsSync fuel (Token.access_token tokenDoc)
                  (or_null (Token.cursor tokenDoc)) [] [] [] = Ok pages /\
      json answer = SyncBody (length (d_added pages)) (length (d_modified pages))
                             (length (d_removed pages)) recategorized /\
      tokens (store w') = Some tokenDoc' /\
      Token.cursor tokenDoc' = Val (d_cursor pages) /\
      Token.lastSyncAt tokenDoc' = Val (clock w) /\
      Token.access_token tokenDoc' = Token.access_token tokenDoc /\
      Token.item_id tokenDoc' = Token.item_id tokenDoc.
Proof.
  intros transactionsSync fuel w answer w' Hrun Hstatus.
  destruct (sync_run_200 _ _ _ _ _ Hrun Hstatus)
    as (tokenDoc & pages & result & Htokens & Hfetch & _ & _ & Hrecat & ->).
  destruct (recategorize_keeps_catalog
              (committed (synced (snapshot_categories (store w)) pages
                                 (clock w) (store w)) w)) as (Htok & _).
  rewrite Hrecat in Htok. simpl in Htok.
  exists tokenDoc, pages. eexists _, (updated result).
  split; [done|]. split; [done|]. split; [reflexivity|].
  rewrite Htok, Htokens. simpl.
  split; [reflexivity|]. repeat split; reflexivity.
Qed.

Lemma sync_success_stores_cursor_witness :
  exists tokenDoc',
    tokens (store (snd (sync_transactions one_page 5 linked_world)))
    = Some tokenDoc' /\
    Token.cursor tokenDoc' = Val "cursor-1".
Proof.
  destruct (sync_success_stores_cursor one_page 5 linked_world
              (mkResponse 200 (SyncBody 1 0 0 0))
              (snd (sync_transactions one_page 5 linked_world)))
    as (tokenDoc & pages & tokenDoc' & n & _ & Hfetch & _ & Htok & Hcursor & _).
  - vm_compute. reflexivity.
  - reflexivity.
  - exists tokenDoc'. split; [exact Htok|].
    rewrite Hcursor. vm_compute in Hfetch. by injection Hfetch as <-.
Defined.

(** X9.  A sync can answer 500 after its batch has been committed: when
    every id of the delta is a document id, the store accepts the batch
    and rejects the write of the reconciliation that follows, the answer
    is the error and the store holds the whole batch, the advanced
    cursor included. *)
Theorem sync_error_after_commit :
  forall transactionsSync fuel w tokenDoc pages rest,
    tokens (store w) = Some tokenDoc ->
    fetch_pages transactionsSync fuel (Token.access_token tokenDoc)
                (or_null (Token.cursor tokenDoc)) [] [] [] = Ok pages ->
    doc_refs (delta_ids pages) = Ok tt ->
    faults w = true :: false :: rest ->
    0 < changes (synced (snapshot_categories (store w)) pages (clock w)
                        (store w)) ->
    exists w',
      sync_transactions transactionsSync fuel w
      = (Ok (mkResponse 500 (ErrorBody "UNAVAILABLE")), w') /\
      store w' = synced (snapshot_categories (store w)) pages (clock w)
                        (store w) /\
      Token.cursor <$> tokens (store w') = Some (Val (d_cursor pages)).
Proof.
  intros transactionsSync fuel w tokenDoc pages rest Htokens Hfetch Hrefs
         Hfaults Hchanges.
  rewrite sync_run, Htokens, Hfetch, Hrefs, Hfaults. cbv zeta.
  rewrite recategorize_run. cbn [store committed faults tail].
  apply Nat.ltb_lt in Hchanges. rewrite Hfaults. cbn [tail].
  rewrite Hchanges. eexists. split; [reflexivity|]. by split.
Qed.

Lemma sync_error_after_commit_witness :
  exists w',
    sync_transactions no_news 5 (with_faults [true; false] unassigned_world)
    = (Ok (mkResponse 500 (ErrorBody "UNAVAILABLE")), w') /\
    Token.cursor <$> tokens (store w') = Some (Val "cursor-2").
Proof.
  destruct (sync_error_after_commit no_news 5
              (with_faults [true; false] unassigned_world)
              (Token.mk (Val "access-1") (Val "item-1") Absent Absent (Val 1%Z))
              (mkDelta [] [] [] "cursor-2") [])
    as (w' & Hrun & _ & Hcursor).
  - reflexivity.
  - reflexivity.
  - reflexivity.
  - reflexivity.
  - vm_compute. lia.
  - by exists w'.
Defined.

(** ** Account deletion without the cascade *)

(** X10.  Deleting an unknown account answers 404 and changes nothing.
    Deleting an existing account with [deleteTransactions = false] makes
    one write request that removes the account record only: every
    transaction stays, those of the deleted account included. *)
Theorem delete_account_without_cascade :
  (forall w accountId deleteTransactions,
     accounts (store w) !! accountId = None ->
     delete_account accountId deleteTransactions w
     = (Ok (mkResponse 404 (ErrorBody "Account not found")), w)) /\
  (forall w accountId account,
     accounts (store w) !! accountId = Some account ->
     head (faults w) <> Some false ->
     exists w',
       delete_account accountId false w
       = (Ok (mkResponse 200 (AccountDeletedBody false)), w') /\
       transactions (store w') = transactions (store w) /\
       accounts (store w') = delete accountId (accounts (store w)) /\
       clock w' = (clock w + 1)%Z).
Proof.
  split.
  - intros w accountId deleteTransactions Hnone.
    unfold delete_account, try_catch, bind, get_store. by rewrite Hnone.
  - intros w accountId account Hsome Hfault.
    unfold delete_account, try_catch, bind, get_store, ret, commit.
    rewrite Hsome. simpl.
    destruct (faults w) as [|[|] fs]; [| |done]; by eexists.
Qed.

Lemma delete_account_without_cascade_witness :
  exists w',
    delete_account "a1" false (with_faults [] cascade_example)
    = (Ok (mkResponse 200 (AccountDeletedBody false)), w') /\
    transactions (store w') = transactions (store cascade_example).
Proof.
  destruct (proj2 delete_account_without_cascade
              (with_faults [] cascade_example) "a1"
              (Account.mk (Val "a1") (Val "Checking") Null Null Null Null
                          (Val "ins_1") (Val "Bank") (Val "") (Val 1%Z)))
    as (w' & Hrun & Htxs & _); [reflexivity | done |].
  by exists w'.
Defined.

(** ** Budget creation once the budget is written *)

Lemma create_categories_budgets budgetId cats w :
  budgets (store (snd (create_categories budgetId cats w)))
  = budgets (store w).
Proof.
  revert w. induction cats as [|category rest IH]; intros w; [done|].
  cbn [create_categories]. unfold bind, auto_id, commit. simpl.
  destruct (faults w) as [|[|] fs]; simpl; try done.
  - match goal with
    | |- context [create_categories budgetId rest ?w2] =>
        specialize (IH w2); destruct (create_categories budgetId rest w2)
          as [[refs|message|] w3]
    end; simpl in *; by rewrite IH.
  - match goal with
    | |- context [create_categories budgetId rest ?w2] =>
        specialize (IH w2); destruct (create_categories budgetId rest w2)
          as [[refs|message|] w3]
    end; simpl in *; by rewrite IH.
Qed.

Lemma create_budget_refused w name cats :
  budgets (store w) <> ∅ ->
  create_budget name cats w
  = (Ok (mkResponse 400 (ErrorBody "User can only have one budget for now")), w).
Proof.
  intros Hbudget. unfold create_budget, try_catch, bind, get_store.
  by rewrite bool_decide_eq_false_2.
Qed.

(** X11.  Once the store has accepted the write of the budget document,
    the budget exists whatever happens to the category writes that
    follow, one request per category: also when one of them is rejected
    and the answer is 500, every later [POST /budgets] is refused with
    400, so the categories that were not written cannot be created by a
    retry. *)
Theorem create_budget_blocks_retry :
  forall w name cats,
    budgets (store w) = ∅ ->
    name <> Absent ->
    head (faults w) <> Some false ->
    let w' := snd (create_budget name cats w) in
    budgets (store w')
    = {[ id_source w (next_id w) := Budget.mk name (Val (clock w)) (Val (clock w)) ]} /\
    forall name' cats' w'',
      store w'' = store w' ->
      create_budget name' cats' w''
      = (Ok (mkResponse 400 (ErrorBody "User can only have one budget for now")),
         w'').
Proof.
  intros w name cats Hempty Hname Hfault w'.
  assert (budgets (store w')
          = {[ id_source w (next_id w)
               := Budget.mk name (Val (clock w)) (Val (clock w)) ]}) as Hbudgets.
  { subst w'. unfold create_budget, try_catch.
    unfold bind at 1. unfold get_store at 1.
    rewrite bool_decide_eq_true_2 by done.
    unfold bind at 1. unfold auto_id at 1.
    unfold bind at 1.
    assert (exists w1,
              (match name with
               | Absent => throw "Cannot use undefined as a Firestore value"
               | _ => commit (fun now =>
                        [SetBudget (id_source w (next_id w))
                                   (Budget.mk name (Val now) (Val now))])
               end) (mkWorld (store w) (clock w) (faults w) (id_source w)
                             (S (next_id w)))
              = (Ok tt, w1) /\
              budgets (store w1)
              = {[ id_source w (next_id w)
                   := Budget.mk name (Val (clock w)) (Val (clock w)) ]})
      as (w1 & -> & Hw1).
    { unfold commit. simpl.
      destruct name; [done | |];
        (destruct (faults w) as [|[|] fs]; [| |done];
         eexists; (split; [reflexivity|]); simpl; by rewrite Hempty). }
    unfold bind at 1.
    pose proof (create_categories_budgets (id_source w (next_id w)) cats w1)
      as Hcats.
    destruct (create_categories _ cats w1) as [[refs|message|] w2];
      simpl in *; congruence. }
  split; [exact Hbudgets|].
  intros name' cats' w'' Hstore. apply create_budget_refused.
  rewrite Hstore, Hbudgets. apply insert_non_empty.
Qed.

(** The budget is written, the write of its only category is rejected. *)
Lemma create_budget_blocks_retry_witness :
  let w := with_faults [true; false] (mkWorld empty_db 3%Z [] (fun _ => "auto") 0) in
  fst (create_budget (Val "Home") [groceries] w)
  = Ok (mkResponse 500 (ErrorBody "UNAVAILABLE")) /\
  create_budget (Val "Home") [groceries] (snd (create_budget (Val "Home") [groceries] w))
  = (Ok (mkResponse 400 (ErrorBody "User can only have one budget for now")),
     snd (create_budget (Val "Home") [groceries] w)).
Proof.
  intros w. split; [vm_compute; reflexivity|].
  destruct (create_budget_blocks_retry w (Val "Home") [groceries])
    as [_ Hretry]; [reflexivity | done | done |].
  by apply Hretry.
Defined.

(** ** Category update *)


(** X12.  [PUT /categories/:categoryId] is a partial update.  On an
    unknown id the store rejects the update: the answer is 500, nothing
    changes and the reconciliation is not run.  On a known id an empty,
    null or missing [name] leaves the name as it is, [keywords] are
    replaced by any list (the empty one included), a present [amount]
    replaces the amount (also by [null]), and [budgetId] and [createdAt]
    are kept. *)
Theorem update_category_partial :
  (forall w categoryId request,
     categories (store w) !! categoryId = None ->
     head (faults w) <> Some false ->
     update_category categoryId request w
     = (Ok (mkResponse 500 (ErrorBody "NOT_FOUND")), rejected w)) /\
  (forall w categoryId request old,
     categories (store w) !! categoryId = Some old ->
     head (faults w) <> Some false ->
     exists doc,
       categories (store (snd (update_category categoryId request w)))
       !! categoryId = Some doc /\
       Category.name doc
       = match or_null (u_name request) with
         | Some name => Val name
         | None => Category.name old
         end /\
       Category.keywords doc
       = match u_keywords request with
         | Val ks => Val ks
         | _ => Category.keywords old
         end /\
       Category.amount doc
       = match u_amount request with
         | Absent => Category.amount old
         | amount => amount
         end /\
       Category.budgetId doc = Category.budgetId old /\
       Category.createdAt doc = Category.createdAt old /\
       Category.updatedAt doc = Val (clock w)).
Proof.
  split.
  - intros w categoryId request Hnone Hfault.
    unfold update_category, try_catch, bind, commit. simpl. rewrite Hnone.
    unfold rejected, ret. by destruct (faults w) as [|[|] fs].
  - intros w categoryId request old Hsome Hfault.
    exists (merge_category (update_category_data request (clock w)) old).
    split.
    + unfold update_category, try_catch, bind, commit, ret. simpl.
      rewrite Hsome.
      destruct (faults w) as [|[|] fs]; [| |done]; run_recategorize;
        simpl in *; by rewrite Hcatalog, lookup_insert_eq.
    + unfold merge_category, update_category_data, if_truthy. simpl.
      repeat split.
      * by destruct (or_null (u_name request)).
      * by destruct (u_keywords request).
      * by destruct (u_amount request).
Qed.

(** Renaming the example category to the empty string changes nothing
    in its name. *)
Lemma update_category_partial_witness :
  exists doc,
    categories (store (snd (update_category "c1" (rename "") linked_world)))
    !! "c1" = Some doc /\
    Category.name doc = Val "Groceries".
Proof.
  destruct (proj2 update_category_partial linked_world "c1" (rename "")
              groceries)
    as (doc & Hdoc & Hname & _); [reflexivity | done |].
  by exists doc.
Defined.

(** ** Manual assignment *)

Lemma or_null_Val s : s <> "" -> or_null (Val s) = Some s.
Proof.
  intros Hs. simpl. destruct (String.eqb s "") eqn:Heq; [|done].
  by apply String.eqb_eq in Heq.
Qed.

Lemma elem_of_unique_from seen l x :
  x ∈ unique_from seen l <-> x ∈ l /\ x ∉ seen.
Proof.
  revert seen. induction l as [|y l IH]; intros seen; simpl.
  - split; [by intros ?%elem_of_nil | by intros [?%elem_of_nil _]].
  - case_bool_decide as Hy.
    + rewrite IH, elem_of_cons. split.
      * intros [Hin Hseen]. split; [by right | done].
      * intros [[->|Hin] Hseen]; [done | by split].
    + rewrite !elem_of_cons, IH, elem_of_cons. split.
      * intros [-> | [Hin Hseen]].
        -- split; [by left | done].
        -- split; [by right | tauto].
      * intros [[-> | Hin] Hseen]; [by left|].
        destruct (decide (x = y)) as [->|Hne]; [by left|].
        right. split; [done|]. intros [?|?]; tauto.
Qed.

Lemma NoDup_unique_from seen l : NoDup (unique_from seen l).
Proof.
  revert seen. induction l as [|y l IH]; intros seen; simpl;
    [by constructor|].
  case_bool_decide; [apply IH|]. constructor; [|apply IH].
  rewrite elem_of_unique_from, elem_of_cons. intros [_ Hnot].
  apply Hnot. by left.
Qed.

Lemma elem_of_unique l x : x ∈ unique l <-> x ∈ l.
Proof.
  unfold unique. rewrite elem_of_unique_from. split; [by intros [? _]|].
  intros Hin. split; [done | apply not_elem_of_nil].
Qed.

(** X13.  Assigning a category by hand: an unknown transaction or an
    unknown category is answered 404 with nothing written.  Otherwise
    one write sets, on that transaction only, [category] to the chosen
    id and [categoryName] to the name the category has at that moment;
    no other field of the transaction and no category changes, and the
    reconciliation is not run. *)
Theorem categorize_transaction_assigns :
  (forall w transactionId categoryId applyToSimilar,
     transactions (store w) !! transactionId = None ->
     categorize_transaction transactionId categoryId applyToSimilar w
     = (Ok (mkReply 404 (PError "Transaction not found")), w)) /\
  (forall w transactionId categoryId applyToSimilar tx,
     transactions (store w) !! transactionId = Some tx ->
     categoryId <> "" ->
     categories (store w) !! categoryId = None ->
     categorize_transaction transactionId (Val categoryId) applyToSimilar w
     = (Ok (mkReply 404 (PError "Category not found")), w)) /\
  (forall w transactionId categoryId tx category,
     transactions (store w) !! transactionId = Some tx ->
     categoryId <> "" ->
     categories (store w) !! categoryId = Some category ->
     Category.name category <> Absent ->
     head (faults w) <> Some false ->
     exists w' tx',
       categorize_transaction transactionId (Val categoryId) false w
       = (Ok (mkReply 200 POk), w') /\
       transactions (store w') = <[transactionId := tx']> (transactions (store w)) /\
       Tx.category tx' = Val categoryId /\
       Tx.categoryName tx' = Category.name category /\
       Tx.updatedAt tx' = Val (clock w) /\
       same_but_category tx tx' /\
       categories (store w') = categories (store w)).
Proof.
  split; [|split].
  - intros w transactionId categoryId applyToSimilar Hnone.
    unfold categorize_transaction, try_catch, bind, get_store.
    by rewrite Hnone.
  - intros w transactionId categoryId applyToSimilar tx Htx Hid Hnone.
    unfold categorize_transaction, try_catch, bind, get_store, doc_path.
    rewrite Htx, (or_null_Val _ Hid). simpl. by rewrite Hnone.
  - intros w transactionId categoryId tx category Htx Hid Hcat Hname Hfault.
    unfold categorize_transaction, try_catch, bind, get_store, doc_path.
    rewrite Htx, (or_null_Val _ Hid). simpl. rewrite Hcat.
    unfold defined, commit, ret.
    destruct (Category.name category) as [| |name] eqn:Hn; [done | |];
      simpl; rewrite Htx;
      (destruct (faults w) as [|[|] fs]; [| |done]; simpl;
       eexists _, _; (split; [reflexivity|]); simpl;
       repeat split; reflexivity).
Qed.

Lemma categorize_transaction_assigns_witness :
  exists w' tx',
    categorize_transaction "t1" (Val "c1") false unassigned_world
    = (Ok (mkReply 200 POk), w') /\
    transactions (store w') !! "t1" = Some tx' /\
    Tx.categoryName tx' = Val "Groceries".
Proof.
  destruct (proj2 (proj2 categorize_transaction_assigns) unassigned_world
              "t1" "c1"
              (Tx.mk (Val "t1") (Val "a1") (Val "2024-05-01")
                     (Val "Corner Market") (Val "") (Val "")
                     (Val 435%float) (Val 435%float) Null (Val "USD")
                     (Val false) Null Null Null (Val 1%Z) Absent)
              groceries)
    as (w' & tx' & Hrun & Htxs & _ & Hname & _);
    [reflexivity | done | reflexivity | done | done |].
  exists w', tx'. split; [exact Hrun|]. split; [|exact Hname].
  rewrite Htxs. apply lookup_insert_eq.
Defined.

Lemma occurs_prefix (k rest : string) : occurs k (k +:+ rest).
Proof. by exists "", rest. Qed.

(** X14.  "Apply to similar": when both writes are accepted, the chosen
    category gets the lowercased name of the transaction (and its
    lowercased merchant name, if it has one) added to its keywords,
    without duplicates and with every old keyword kept.  From then on
    keyword matching finds a category for that transaction: the chosen
    one hits it. *)
Theorem categorize_apply_to_similar :
  forall w transactionId categoryId tx category name,
    transactions (store w) !! transactionId = Some tx ->
    categoryId <> "" ->
    categories (store w) !! categoryId = Some category ->
    Category.name category <> Absent ->
    Tx.name tx = Val name ->
    head (faults w) <> Some false ->
    head (tail (faults w)) <> Some false ->
    exists w' category' keywords',
      categorize_transaction transactionId (Val categoryId) true w
      = (Ok (mkReply 200 POk), w') /\
      categories (store w') = <[categoryId := category']> (categories (store w)) /\
      Category.name category' = Category.name category /\
      Category.keywords category' = Val keywords' /\
      NoDup keywords' /\
      (forall k,
         k ∈ keywords' <->
         k ∈ keywords_or_empty (Category.keywords category) \/
         k = toLowerCase name \/
         exists merchant, or_null (Tx.merchant_name tx) = Some merchant /\
                          k = toLowerCase merchant) /\
      keyword_hit (search_text (Tx.name tx) (Tx.merchant_name tx))
                  (Category.of_doc categoryId category') /\
      findCategoryByKeywords (snapshot_categories (store w'))
                             (Tx.name tx) (Tx.merchant_name tx) <> None.
Proof.
  intros w transactionId categoryId tx category name Htx Hid Hcat Hname Htxname
         Hfault1 Hfault2.
  set (keywords' :=
         unique (keywords_or_empty (Category.keywords category)
                 ++ [toLowerCase name]
                 ++ match or_null (Tx.merchant_name tx) with
                    | Some merchant => [toLowerCase merchant]
                    | None => []
                    end)).
  set (category' :=
         merge_category (keywords_data keywords' (clock w + 1)%Z) category).
  assert (forall k,
            k ∈ keywords' <->
            k ∈ keywords_or_empty (Category.keywords category) \/
            k = toLowerCase name \/
            exists merchant, or_null (Tx.merchant_name tx) = Some merchant /\
                             k = toLowerCase merchant) as Hmember.
  { intros k. subst keywords'. rewrite elem_of_unique, !elem_of_app.
    rewrite list_elem_of_singleton.
    destruct (or_null (Tx.merchant_name tx)) as [merchant|].
    - rewrite list_elem_of_singleton. split.
      + intros [?|[?| ->]]; [by left | by right; left |].
        right. right. by exists merchant.
      + intros [?|[?|(m & [= <-] & ->)]]; auto.
    - split.
      + intros [?|[?|Hnil]]; [by left | by right; left |].
        by apply elem_of_nil in Hnil.
      + intros [?|[?|(m & Hm & _)]]; [by left | by right; left | done]. }
  assert (keyword_hit (search_text (Tx.name tx) (Tx.merchant_name tx))
                      (Category.of_doc categoryId category')) as Hhit.
  { exists (toLowerCase name). split.
    - unfold guarded_keywords, Category.of_doc. simpl.
      apply list_elem_of_In, Hmember. auto.
    - unfold search_text. rewrite Htxname. simpl.
      rewrite toLowerCase_idemp, toLowerCase_app. apply occurs_prefix. }
  assert (exists w',
            categorize_transaction transactionId (Val categoryId) true w
            = (Ok (mkReply 200 POk), w') /\
            categories (store w')
            = <[categoryId := category']> (categories (store w)))
    as (w' & Hrun & Hcats).
  { unfold categorize_transaction, try_catch, bind, get_store, doc_path.
    rewrite Htx, (or_null_Val _ Hid). simpl. rewrite Hcat.
    unfold defined, commit, ret, lift, similar_keywords. rewrite Htxname.
    destruct (Category.name category) as [| |cname] eqn:Hn; [done | |];
      simpl; rewrite Htx;
      (destruct (faults w) as [|[|] [|[|] fs]]; try done; simpl;
       rewrite Hcat; eexists; split; reflexivity). }
  exists w', category', keywords'. split; [exact Hrun|].
  split; [exact Hcats|]. split; [reflexivity|].
  split; [done|]. split; [apply NoDup_unique_from|]. split; [exact Hmember|].
  split; [exact Hhit|].
  intros Hnone.
  pose proof (findCategoryByKeywords_first (snapshot_categories (store w'))
                (Tx.name tx) (Tx.merchant_name tx)) as Hfirst.
  rewrite Hnone in Hfirst. rewrite Forall_forall in Hfirst.
  apply (Hfirst (Category.of_doc categoryId category')); [|exact Hhit].
  apply list_elem_of_In, In_snapshot_categories. exists categoryId.
  split; [|reflexivity].
  change (Category.data (Category.of_doc categoryId category')) with category'.
  rewrite Hcats. apply lookup_insert_eq.
Qed.

Lemma categorize_apply_to_similar_witness :
  exists w' category',
    categorize_transaction "t1" (Val "c1") true unassigned_world
    = (Ok (mkReply 200 POk), w') /\
    categories (store w') !! "c1" = Some category' /\
    Category.keywords category' = Val ["market"; "corner market"].
Proof.
  destruct (categorize_apply_to_similar unassigned_world "t1" "c1"
              (Tx.mk (Val "t1") (Val "a1") (Val "2024-05-01")
                     (Val "Corner Market") (Val "") (Val "")
                     (Val 435%float) (Val 435%float) Null (Val "USD")
                     (Val false) Null Null Null (Val 1%Z) Absent)
              groceries "Corner Market")
    as (w' & category' & keywords' & Hrun & Hcats & _);
    [reflexivity | done | reflexivity | done | reflexivity | done | done |].
  assert (categories (store w') !! "c1" = Some category') as Hlookup
    by (rewrite Hcats; apply lookup_insert_eq).
  exists w', category'. split; [exact Hrun|]. split; [exact Hlookup|].
  assert (w' = snd (categorize_transaction "t1" (Val "c1") true unassigned_world))
    as Hw' by (by rewrite Hrun).
  rewrite Hw' in Hlookup. vm_compute in Hlookup. by injection Hlookup as <-.
Defined.

(** X15.  "Apply to similar" on a transaction without a name (a record
    that a removal marker created, say) fails after its first write: the
    answer is 500, the transaction already carries the chosen category,
    and the keywords of the category are untouched. *)
Theorem categorize_nameless_partial :
  forall w transactionId categoryId tx category,
    transactions (store w) !! transactionId = Some tx ->
    categoryId <> "" ->
    categories (store w) !! categoryId = Some category ->
    Category.name category <> Absent ->
    Tx.name tx = Absent \/ Tx.name tx = Null ->
    head (faults w) <> Some false ->
    exists w' message tx',
      categorize_transaction transactionId (Val categoryId) true w
      = (Ok (mkReply 500 (PError message)), w') /\
      transactions (store w') !! transactionId = Some tx' /\
      Tx.category tx' = Val categoryId /\
      Tx.categoryName tx' = Category.name category /\
      categories (store w') = categories (store w).
Proof.
  intros w transactionId categoryId tx category Htx Hid Hcat Hname Hnameless
         Hfault.
  unfold categorize_transaction, try_catch, bind, get_store, doc_path.
  rewrite Htx, (or_null_Val _ Hid). simpl. rewrite Hcat.
  unfold defined, commit, ret, lift, similar_keywords.
  destruct (Category.name category) as [| |cname] eqn:Hn; [done | |];
    simpl; rewrite Htx;
    (destruct (faults w) as [|[|] fs]; [| |done];
     destruct Hnameless as [-> | ->]; simpl;
     eexists _, _, _; (split; [reflexivity|]); simpl;
     rewrite lookup_insert_eq; (split; [reflexivity|]);
     repeat split; reflexivity).
Qed.

(** A removal marker for an unknown id, then a manual assignment with
    "apply to similar". *)
Lemma categorize_nameless_partial_witness :
  let w := mkWorld (mkDb None ∅ (<["t7" := removed_data 2%Z]> ∅) ∅
                         (<["c1" := groceries]> ∅))
                   10%Z [] (fun _ => "auto") 0 in
  exists w' message tx',
    categorize_transaction "t7" (Val "c1") true w
    = (Ok (mkReply 500 (PError message)), w') /\
    transactions (store w') !! "t7" = Some tx' /\
    Tx.category tx' = Val "c1".
Proof.
  intros w.
  destruct (categorize_nameless_partial w "t7" "c1" (removed_data 2%Z) groceries)
    as (w' & message & tx' & Hrun & Htx & Hcategory & _);
    [reflexivity | done | reflexivity | done | by left | done |].
  by exists w', message, tx'.
Defined.

(** ** Removal of a transaction *)

(** X16.  [DELETE /transactions/:transactionId]: an unknown id is
    answered 404 with nothing written; a known one is removed for good
    by one write, and every other transaction and every other collection
    stays as it was. *)
Theorem delete_transaction_removes :
  (forall w transactionId,
     transactions (store w) !! transactionId = None ->
     delete_transaction transactionId w
     = (Ok (mkReply 404 (PError "Transaction not found")), w)) /\
  (forall w transactionId tx,
     transactions (store w) !! transactionId = Some tx ->
     head (faults w) <> Some false ->
     exists w',
       delete_transaction transactionId w
       = (Ok (mkReply 200 (PMessage "Transaction deleted successfully")), w') /\
       store w'
       = set_transactions (delete transactionId (transactions (store w)))
                          (store w) /\
       delete_transaction transactionId w'
       = (Ok (mkReply 404 (PError "Transaction not found")), w')).
Proof.
  assert (forall w transactionId,
            transactions (store w) !! transactionId = None ->
            delete_transaction transactionId w
            = (Ok (mkReply 404 (PError "Transaction not found")), w)) as Hmissing.
  { intros w transactionId Hnone.
    unfold delete_transaction, try_catch, bind, get_store. by rewrite Hnone. }
  split; [exact Hmissing|].
  intros w transactionId tx Htx Hfault.
  unfold delete_transaction at 1. unfold try_catch, bind, get_store, commit, ret.
  rewrite Htx. simpl.
  destruct (faults w) as [|[|] fs]; [| |done];
    (eexists; split; [reflexivity|]; split; [by destruct (store w)|];
     apply Hmissing; simpl; apply lookup_delete_eq).
Qed.

Lemma delete_transaction_removes_witness :
  exists w',
    delete_transaction "t1" unassigned_world
    = (Ok (mkReply 200 (PMessage "Transaction deleted successfully")), w') /\
    transactions (store w') !! "t1" = None.
Proof.
  destruct (proj2 delete_transaction_removes unassigned_world "t1"
              (Tx.mk (Val "t1") (Val "a1") (Val "2024-05-01")
                     (Val "Corner Market") (Val "") (Val "")
                     (Val 435%float) (Val 435%float) Null (Val "USD")
                     (Val false) Null Null Null (Val 1%Z) Absent))
    as (w' & Hrun & Hstore & _); [reflexivity | done |].
  exists w'. split; [exact Hrun|]. rewrite Hstore. apply lookup_delete_eq.
Defined.

(** ** Removal of a category *)

(** X17.  [DELETE /categories/:categoryId] answers 200 only after the
    category is gone and a pass of the reconciliation has succeeded;
    then, in a store where no category document has a property [id] of
    its own, no transaction refers to the removed category any more
    (each has moved to another matching category or has none), and
    tokens, accounts and budgets are untouched. *)
Theorem delete_category_leaves_no_reference :
  forall w categoryId answer w',
    document_ids (store w) ->
    delete_category categoryId w = (Ok answer, w') ->
    code answer = 200 ->
    categories (store w') = delete categoryId (categories (store w)) /\
    (forall id tx,
       transactions (store w') !! id = Some tx ->
       or_null (Tx.category tx) <> Some categoryId) /\
    tokens (store w') = tokens (store w) /\
    accounts (store w') = accounts (store w) /\
    budgets (store w') = budgets (store w).
Proof.
  intros w categoryId answer w' Hids Hrun Hcode.
  unfold delete_category, try_catch, bind, commit_catalog, request, ret in Hrun.
  simpl in Hrun.
  assert (forall w1 result,
            categories (store w1) = delete categoryId (categories (store w)) ->
            tokens (store w1) = tokens (store w) ->
            accounts (store w1) = accounts (store w) ->
            budgets (store w1) = budgets (store w) ->
            recategorizeAllTransactions w1 = (Ok result, w') ->
            categories (store w') = delete categoryId (categories (store w)) /\
            (forall id tx,
               transactions (store w') !! id = Some tx ->
               or_null (Tx.category tx) <> Some categoryId) /\
            tokens (store w') = tokens (store w) /\
            accounts (store w') = accounts (store w) /\
            budgets (store w') = budgets (store w)) as Hafter.
  { intros w1 result Hcats Htok Hacc Hbud Hrecat.
    destruct (recategorize_keeps_catalog w1) as (Htok' & Hacc' & Hbud' & Hcats').
    rewrite Hrecat in Htok', Hacc', Hbud', Hcats'. simpl in *.
    rewrite Hcats', Htok', Hacc', Hbud'. repeat split; try done.
    intros id tx Htx Hcategory.
    apply recategorize_Ok_assigned in Hrecat.
    assert (document_ids (store w')) as Hids'.
    { intros cid doc. rewrite Hcats', Hcats. intros Hdoc.
      apply lookup_delete_Some in Hdoc as [_ Hdoc]. by eapply Hids. }
    destruct (all_assigned_integrity _ id tx categoryId Hids' Hrecat Htx
                                     Hcategory)
      as (category & Hlookup & _).
    by rewrite Hcats', Hcats, lookup_delete_eq in Hlookup. }
  revert Hrun.
  destruct (faults w) as [|[|] fs];
    [| | intros [= <- <-]; discriminate Hcode];
    run_recategorize; intros [= <- <-]; try discriminate Hcode;
    (eapply Hafter; [| | | | exact Hrecat]; by destruct (store w)).
Qed.

(** The category of the synced purchase is removed. *)
Lemma delete_category_leaves_no_reference_witness :
  let w := snd (sync_transactions one_page 5 linked_world) in
  exists tx,
    transactions (store (snd (delete_category "c1" w))) !! "t1" = Some tx /\
    or_null (Tx.category tx) <> Some "c1".
Proof.
  intros w. eexists. split; [vm_compute; reflexivity|].
  destruct (delete_category_leaves_no_reference w "c1"
              (mkReply 200 (PRecategorized 1)) (snd (delete_category "c1" w)))
    as (_ & Hnone & _);
    [apply document_ids_checked; vm_compute; reflexivity
    | vm_compute; reflexivity | reflexivity |].
  apply (Hnone "t1"). vm_compute. reflexivity.
Defined.

(** ** Removal and update of a budget *)

Lemma lookup_foldl_delete_any {A} (ids : list string) (m : gmap string A) id :
  foldl (fun m id => delete id m) m ids !! id
  = if bool_decide (id ∈ ids) then None else m !! id.
Proof.
  revert m. induction ids as [|i ids IH]; intros m; cbn [foldl].
  - rewrite bool_decide_eq_false_2; [done | apply not_elem_of_nil].
  - rewrite IH. destruct (decide (i = id)) as [->|Hne].
    + rewrite lookup_delete_eq.
      rewrite (bool_decide_eq_true_2 (id ∈ id :: ids))
        by (apply elem_of_cons; by left).
      by case_bool_decide.
    + rewrite lookup_delete_ne by done.
      rewrite (bool_decide_ext (id ∈ i :: ids) (id ∈ ids)); [done|].
      rewrite elem_of_cons. split; [by intros [->|?] | by right].
Qed.

Lemma has_budget_true budgetId (entry : string * Category.doc) :
  has_budget budgetId entry = true
  <-> Category.budgetId (snd entry) = Val budgetId.
Proof.
  unfold has_budget. destruct (Category.budgetId entry.2) as [| |b]; try done.
  rewrite String.eqb_eq. split; [by intros -> | by intros [= ->]].
Qed.

Lemma apply_catalog_delete_categories (ids : list string) d :
  apply_catalog_writes (DeleteCategory <$> ids) d
  = Some (set_categories (foldl (fun cats id => delete id cats)
                                (categories d) ids) d).
Proof.
  revert d. induction ids as [|id ids IH]; intros d; simpl.
  - by destruct d.
  - rewrite IH. by destruct d.
Qed.

Lemma budget_cascade_deletes budgetId (cats : gmap string Category.doc) :
  foldl (fun cats id => delete id cats) cats
        (fst <$> List.filter (has_budget budgetId) (docs_of cats))
  = without_categories_of budgetId cats.
Proof.
  apply map_eq. intros id. rewrite lookup_foldl_delete_any.
  unfold without_categories_of.
  destruct (cats !! id) as [doc|] eqn:Hdoc.
  - destruct (decide (Category.budgetId doc = Val budgetId)) as [Hb|Hb].
    + rewrite bool_decide_eq_true_2.
      * symmetry. apply map_lookup_filter_None. right. intros doc' Hdoc'.
        simpl. rewrite Hdoc in Hdoc'. injection Hdoc' as <-. tauto.
      * apply list_elem_of_In, in_map_iff. exists (id, doc). split; [done|].
        apply filter_In. split.
        -- by apply list_elem_of_In, elem_of_docs_of.
        -- by apply has_budget_true.
    + rewrite bool_decide_eq_false_2.
      * symmetry. by apply map_lookup_filter_Some.
      * intros Hin.
        apply list_elem_of_In, in_map_iff in Hin as ([id' doc'] & Hid & Hin).
        simpl in Hid. subst id'. apply filter_In in Hin as [Hin Htest].
        apply list_elem_of_In, elem_of_docs_of in Hin.
        apply has_budget_true in Htest. simpl in Htest. congruence.
  - assert (filter (fun entry : string * Category.doc =>
                      Category.budgetId (snd entry) <> Val budgetId) cats !! id
            = None) as ->.
    { apply map_lookup_filter_None. by left. }
    by case_bool_decide.
Qed.

Lemma commit_catalog_accepted ws w d :
  head (faults w) <> Some false ->
  apply_catalog_writes (ws (clock w)) (store w) = Some d ->
  commit_catalog ws w
  = (Ok tt, mkWorld d (clock w + 1)%Z (tail (faults w)) (id_source w) (next_id w)).
Proof.
  intros Hfault Hwrites. unfold commit_catalog, request. rewrite Hwrites.
  by destruct (faults w) as [|[|] fs].
Qed.

(** X18.  [DELETE /budgets/:budgetId] makes two write requests: the
    removal of the budget document (no error if there is none), then one
    batch that deletes exactly the categories whose [budgetId] is that
    id.  It does not touch the transactions and runs no reconciliation:
    transactions assigned to a removed category keep its id and name
    until some other request reconciles. *)
Theorem delete_budget_cascade :
  forall w budgetId,
    head (faults w) <> Some false ->
    head (tail (faults w)) <> Some false ->
    exists w',
      delete_budget budgetId w = (Ok (mkReply 200 POk), w') /\
      budgets (store w') = delete budgetId (budgets (store w)) /\
      (forall id doc,
         categories (store w') !! id = Some doc
         <-> categories (store w) !! id = Some doc /\
             Category.budgetId doc <> Val budgetId) /\
      transactions (store w') = transactions (store w) /\
      clock w' = (clock w + 2)%Z.
Proof.
  intros w budgetId Hfault1 Hfault2.
  unfold delete_budget, try_catch, bind, get_store, ret.
  rewrite (commit_catalog_accepted _ w
             (set_budgets (delete budgetId (budgets (store w))) (store w)))
    by done.
  cbv beta iota zeta.
  assert (forall docs : list (string * Category.doc),
            (fun doc : string * Category.doc => DeleteCategory (fst doc)) <$> docs
            = DeleteCategory <$> (fst <$> docs)) as Hmap.
  { intros docs. by rewrite <- list_fmap_compose. }
  erewrite commit_catalog_accepted;
    [| exact Hfault2
     | cbn [store clock]; rewrite Hmap; apply apply_catalog_delete_categories].
  eexists. split; [reflexivity|]. cbn [store clock].
  rewrite budget_cascade_deletes.
  destruct (store w) as [tok acc txs buds cats]. simpl.
  split; [done|]. split; [|split; [done | lia]].
  intros id doc. unfold without_categories_of.
  by rewrite map_lookup_filter_Some.
Qed.

(** A budget with one category of its own and one foreign category. *)
Lemma delete_budget_cascade_witness :
  let own := Category.mkDoc (Val "Rent") (Val 90000%float) (Val ["rent"])
                            (Val "b1") Absent (Val 1%Z) (Val 1%Z) Absent in
  let w := mkWorld
             (mkDb None ∅ ∅
                   (<["b1" := Budget.mk (Val "Home") (Val 1%Z) (Val 1%Z)]> ∅)
                   (<["c1" := groceries]> (<["c2" := own]> ∅)))
             4%Z [] (fun _ => "auto") 0 in
  exists w',
    delete_budget "b1" w = (Ok (mkReply 200 POk), w') /\
    categories (store w') !! "c2" = None /\
    categories (store w') !! "c1" = Some groceries.
Proof.
  intros own w.
  destruct (delete_budget_cascade w "b1") as (w' & Hrun & _ & Hcats & _);
    [done | done |].
  exists w'. split; [exact Hrun|]. split.
  - destruct (categories (store w') !! "c2") as [doc|] eqn:Hdoc; [|done].
    apply Hcats in Hdoc as [Hdoc Hbudget]. vm_compute in Hdoc.
    injection Hdoc as <-. by destruct Hbudget.
  - apply Hcats. split; [vm_compute; reflexivity | done].
Defined.

(** X19.  [PUT /budgets/:budgetId] renames a budget that exists and
    keeps its creation time; it answers 500 without any change for an
    id that names no budget, and 500 without any write request when the
    body has no name. *)
Theorem update_budget_renames :
  forall w budgetId,
    head (faults w) <> Some false ->
    (forall name old,
       name <> Absent ->
       budgets (store w) !! budgetId = Some old ->
       exists w' new,
         update_budget budgetId name w = (Ok (mkReply 200 POk), w') /\
         budgets (store w') = <[budgetId := new]> (budgets (store w)) /\
         Budget.name new = name /\
         Budget.createdAt new = Budget.createdAt old /\
         Budget.updatedAt new = Val (clock w)) /\
    (forall name,
       name <> Absent ->
       budgets (store w) !! budgetId = None ->
       exists w',
         update_budget budgetId name w
         = (Ok (mkReply 500 (PError "NOT_FOUND")), w') /\
         store w' = store w) /\
    (exists message,
       update_budget budgetId Absent w = (Ok (mkReply 500 (PError message)), w)).
Proof.
  intros w budgetId Hfault. refine (conj _ (conj _ _)).
  - intros name old Hname Hold.
    unfold update_budget, try_catch, bind, defined, ret, throw.
    destruct name as [| |name]; [done| |];
      (erewrite commit_catalog_accepted;
       [| done | simpl; rewrite Hold; reflexivity]);
      (eexists _, _; split; [reflexivity|]; simpl; by destruct (store w)).
  - intros name Hname Hnone.
    unfold update_budget, try_catch, bind, defined, ret, throw,
      commit_catalog, request.
    destruct name as [| |name]; [done| |];
      simpl; rewrite Hnone;
      destruct (faults w) as [|[|] fs]; try done;
      (eexists; split; [reflexivity | done]).
  - eexists. unfold update_budget, try_catch, bind, defined, throw, ret.
    reflexivity.
Qed.

Lemma update_budget_renames_witness :
  let w := mkWorld
             (mkDb None ∅ ∅
                   (<["b1" := Budget.mk (Val "Home") (Val 1%Z) (Val 1%Z)]> ∅) ∅)
             4%Z [] (fun _ => "auto") 0 in
  exists w' new,
    update_budget "b1" (Val "House") w = (Ok (mkReply 200 POk), w') /\
    budgets (store w') = <["b1" := new]> (budgets (store w)) /\
    Budget.name new = Val "House" /\
    Budget.createdAt new = Val 1%Z /\
    Budget.updatedAt new = Val 4%Z.
Proof.
  intros w.
  destruct (update_budget_renames w "b1") as (Hknown & _); [done|].
  apply (Hknown (Val "House") (Budget.mk (Val "Home") (Val 1%Z) (Val 1%Z)));
    [done | vm_compute; reflexivity].
Defined.

(** ** Creation of a category *)

(** X20.  [POST /categories] answers 200 only when the body has a name,
    the new category is stored under a fresh id with the amount
    defaulted to 0 and the keywords to the empty list, and a pass of the
    reconciliation over all transactions has succeeded: afterwards every
    transaction carries the category the matching computes from the
    enlarged catalog. *)
Theorem create_category_reconciles :
  forall request w answer w',
    create_category request w = (Ok answer, w') ->
    code answer = 200 ->
    r_name request <> Absent /\
    categories (store w')
    = <[id_source w (next_id w) :=
          create_category_data (r_name request) request (clock w)]>
        (categories (store w)) /\
    (forall id tx,
       transactions (store w') !! id = Some tx ->
       or_null (Tx.category tx)
       = category_id_or_null (reassign (snapshot_categories (store w')) tx)) /\
    next_id w' = S (next_id w).
Proof.
  intros request w answer w' Hrun Hcode.
  unfold create_category, try_catch, bind, auto_id, defined, commit, ret, throw
    in Hrun.
  simpl in Hrun. revert Hrun.
  assert (forall w1 result,
            recategorizeAllTransactions w1 = (Ok result, w') ->
            next_id w' = next_id w1) as Hnext.
  { intros w1 result Hrecat.
    by apply recategorize_Ok in Hrecat as (_ & _ & [[_ ->] | [_ ->]]). }
  destruct (r_name request) as [| |name] eqn:Hname;
    [intros [= <- <-]; discriminate Hcode | |];
    (destruct (faults w) as [|[|] fs];
       [| | intros [= <- <-]; discriminate Hcode];
     simpl; run_recategorize; intros [= <- <-]; try discriminate Hcode;
     simpl in *;
     (split; [done|]; split; [by rewrite Hcatalog|]; split;
      [exact (recategorize_Ok_assigned _ _ _ Hrecat)
      | by rewrite (Hnext _ _ Hrecat)])).
Qed.

(** Creating a second category whose keyword also hits the stored
    transaction. *)
Lemma create_category_reconciles_witness :
  let request :=
    mkCategoryRequest (Val "Corner shops") Absent (Val ["corner"]) Absent Absent in
  let w' := snd (create_category request unassigned_world) in
  categories (store w') !! "auto"
  = Some (create_category_data (Val "Corner shops") request 10%Z) /\
  next_id w' = 1.
Proof.
  intros request w'.
  destruct (create_category_reconciles request unassigned_world
              (match fst (create_category request unassigned_world) with
               | Ok answer => answer
               | _ => mkReply 0 POk
               end) w')
    as (_ & Hcats & _ & Hnext);
    [vm_compute; reflexivity | vm_compute; reflexivity |].
  split; [|exact Hnext].
  rewrite Hcats. apply lookup_insert_eq.
Defined.

(** ** Token exchange *)

(** X21.  [POST /exchange-public-token] merges the new access token and
    item id into the token document: a cursor and a last-sync time stored
    for a previously linked item stay in place, so the next sync of the
    new item starts from the old item's cursor.  A missing or empty public
    token is answered 400 and a failed exchange 500, both without any
    write request. *)
Theorem exchange_keeps_cursor :
  forall itemPublicTokenExchange w,
    (forall public_token access_token item_id,
       public_token <> "" ->
       itemPublicTokenExchange public_token = Some (access_token, item_id) ->
       head (faults w) <> Some false ->
       exists w' tokenDoc,
         exchange_public_token itemPublicTokenExchange (Val public_token) w
         = (Ok (mkReply 200 POk), w') /\
         tokens (store w') = Some tokenDoc /\
         Token.access_token tokenDoc = Val access_token /\
         Token.item_id tokenDoc = Val item_id /\
         Token.cursor tokenDoc
         = Token.cursor (default Token.empty (tokens (store w))) /\
         Token.lastSyncAt tokenDoc
         = Token.lastSyncAt (default Token.empty (tokens (store w)))) /\
    (forall public_token,
       or_null public_token = None ->
       exchange_public_token itemPublicTokenExchange public_token w
       = (Ok (mkReply 400 (PError "Missing public_token")), w)) /\
    (forall public_token,
       public_token <> "" ->
       itemPublicTokenExchange public_token = None ->
       exists message,
         exchange_public_token itemPublicTokenExchange (Val public_token) w
         = (Ok (mkReply 500 (PError message)), w)).
Proof.
  intros exchange w. refine (conj _ (conj _ _)).
  - intros public_token access_token item_id Hpublic Hexchange Hfault.
    unfold exchange_public_token, try_catch, bind, commit, ret. simpl.
    apply String.eqb_neq in Hpublic. rewrite Hpublic, Hexchange. simpl.
    destruct (faults w) as [|[|] fs]; try done;
      (eexists _, _; by repeat split).
  - intros public_token Hnone.
    unfold exchange_public_token, try_catch. by rewrite Hnone.
  - intros public_token Hpublic Hexchange.
    unfold exchange_public_token, try_catch, throw, ret. simpl.
    apply String.eqb_neq in Hpublic. rewrite Hpublic, Hexchange.
    by eexists.
Qed.

(** ** Authentication *)

Lemma until_not_included (sep s : string) :
  includes s sep = false -> until sep s = s.
Proof.
  induction s as [|c s IH]; simpl.
  - by destruct (startsWith "" sep).
  - intros [Hstart Hrest]%orb_false_iff. rewrite Hstart.
    by rewrite IH.
Qed.

(** X22.  The middleware answers 401 "Unauthorized" without consulting
    the identity service when the authorization header is missing, empty
    or does not start with "Bearer "; for a header "Bearer <token>" whose
    token does not itself contain "Bearer " the identity service is asked
    about exactly that token, and the request goes on as the user it
    names or is answered 401 "Invalid token". *)
Theorem verifyToken_bearer :
  forall verifyIdToken,
    (forall authorization,
       or_null authorization = None ->
       verifyToken verifyIdToken authorization = Unauthorized "Unauthorized") /\
    (forall authHeader,
       startsWith authHeader "Bearer " = false ->
       verifyToken verifyIdToken (Val authHeader) = Unauthorized "Unauthorized") /\
    (forall token,
       includes token "Bearer " = false ->
       verifyToken verifyIdToken (Val ("Bearer " +:+ token))
       = match verifyIdToken token with
         | Some uid => Authenticated uid
         | None => Unauthorized "Invalid token"
         end).
Proof.
  intros verifyIdToken. refine (conj _ (conj _ _)).
  - intros authorization Hnone. unfold verifyToken. by rewrite Hnone.
  - intros authHeader Hstart. unfold verifyToken.
    destruct (or_null (Val authHeader)) as [h|] eqn:Hh; [|done].
    simpl in Hh. destruct (String.eqb authHeader ""); [done|].
    injection Hh as <-. by rewrite Hstart.
  - intros token Htoken. unfold verifyToken.
    change (or_null (Val ("Bearer " +:+ token)))
      with (Some ("Bearer " +:+ token)).
    cbv beta iota.
    change (startsWith ("Bearer " +:+ token) "Bearer ") with true.
    change (bearer_token ("Bearer " +:+ token)) with (until "Bearer " token).
    by rewrite until_not_included.
Qed.

(** ** Account refresh *)

Lemma length_filter_partition {A} (test : A -> bool) (l : list A) :
  length (List.filter (fun x => negb (test x)) l)
  + length (List.filter test l) = length l.
Proof.
  induction l as [|x l IH]; simpl; [done|].
  destruct (test x); simpl; lia.
Qed.

Lemma account_write_refreshes institution logo existing now account d :
  exists d',
    apply_catalog_write (account_write institution logo existing now account) d
    = Some d' /\
    (exists doc,
       accounts d' !! Provider.account_id account = Some doc /\
       refreshed logo now (Provider.account_id account) doc) /\
    (forall id, id <> Provider.account_id account ->
                accounts d' !! id = accounts d !! id) /\
    tokens d' = tokens d /\ transactions d' = transactions d /\
    budgets d' = budgets d /\ categories d' = categories d.
Proof.
  unfold account_write.
  destruct (is_existing existing account); simpl;
    [destruct (accounts d !! Provider.account_id account) as [old|]|];
    (eexists; split; [reflexivity|]; simpl; split;
     [eexists; split; [apply lookup_insert_eq | by repeat split]
     | split; [intros id Hid; by rewrite lookup_insert_ne | by repeat split]]).
Qed.

Lemma account_writes_refresh institution logo existing now
    (listed : list Provider.account) d :
  exists d',
    apply_catalog_writes
      (account_write institution logo existing now <$> listed) d = Some d' /\
    (forall id,
       (exists doc, accounts d !! id = Some doc /\ refreshed logo now id doc) \/
       id ∈ Provider.account_id <$> listed ->
       exists doc, accounts d' !! id = Some doc /\ refreshed logo now id doc) /\
    (forall id, id ∉ Provider.account_id <$> listed ->
                accounts d' !! id = accounts d !! id) /\
    tokens d' = tokens d /\ transactions d' = transactions d /\
    budgets d' = budgets d /\ categories d' = categories d.
Proof.
  revert d. induction listed as [|account listed IH]; intros d.
  - exists d. split; [done|]. split; [|by repeat split].
    intros id [Hdoc|Hin]; [done|]. by apply elem_of_nil in Hin.
  - destruct (account_write_refreshes institution logo existing now account d)
      as (d1 & Hwrite & Hdoc & Hothers & Htok & Htxs & Hbud & Hcat).
    destruct (IH d1) as (d' & Hwrites & Hrefreshed & Hrest & Htok' & Htxs'
                         & Hbud' & Hcat').
    exists d'. cbn [fmap list_fmap apply_catalog_writes].
    change (list_fmap _ _ ?f ?l) with (f <$> l).
    rewrite Hwrite. split; [exact Hwrites|]. split; [|split].
    + intros id Hid. apply Hrefreshed.
      destruct (decide (id = Provider.account_id account)) as [->|Hne];
        [by left|].
      rewrite Hothers by done.
      destruct Hid as [Hid|Hid]; [by left|].
      apply elem_of_cons in Hid as [Hid|Hid]; [done | by right].
    + intros id Hid. apply not_elem_of_cons in Hid as [Hne Hid].
      by rewrite Hrest, Hothers.
    + repeat split; congruence.
Qed.

(** X23.  [POST /accounts/sync] answers 200 with counts that add up,
    [added + updated = count], the number of accounts the provider
    lists.  After it every listed account is stored under its provider
    id, stamped with the time of the request and with the logo of the
    institution - the empty string when the logo lookup failed, which is
    not an error - while accounts the provider no longer lists stay
    stored as they were. *)
Theorem sync_accounts_refreshes :
  forall accountsGet institutionsGetById w count added updated w',
    sync_accounts accountsGet institutionsGetById w
    = (Ok (mkReply 200 (PAccounts count added updated)), w') ->
    exists tokenDoc data,
      tokens (store w) = Some tokenDoc /\
      accountsGet (Token.access_token tokenDoc) = Some data /\
      count = length (Provider.accounts data) /\
      added + updated = count /\
      (forall account,
         account ∈ Provider.accounts data ->
         exists doc,
           accounts (store w') !! Provider.account_id account = Some doc /\
           refreshed (default Absent
                        (institutionsGetById (Provider.institution_id data)))
                     (clock w) (Provider.account_id account) doc) /\
      (forall id,
         id ∉ Provider.account_id <$> Provider.accounts data ->
         accounts (store w') !! id = accounts (store w) !! id) /\
      transactions (store w') = transactions (store w).
Proof.
  intros accountsGet institutionsGetById w count added updated w' Hrun.
  unfold sync_accounts, try_catch, bind, get_store, ret, throw in Hrun.
  cbv beta iota zeta in Hrun.
  destruct (tokens (store w)) as [tokenDoc|] eqn:Htokens; [|discriminate Hrun].
  destruct (accountsGet (Token.access_token tokenDoc)) as [data|] eqn:Hdata;
    [|discriminate Hrun].
  exists tokenDoc, data. split; [done|]. split; [done|].
  set (logo := default Absent
                 (institutionsGetById (Provider.institution_id data))).
  assert (match institutionsGetById (Provider.institution_id data) with
          | Some l => l
          | None => Absent
          end = logo) as Hlogo by (subst logo; by destruct institutionsGetById).
  rewrite Hlogo in Hrun.
  set (existing := (fun doc : string * Account.doc => Account.account_id doc.2)
                   <$> docs_of (accounts (store w))) in *.
  pose proof (length_filter_partition (is_existing existing)
                (Provider.accounts data)) as Hcount.
  destruct (Provider.accounts data) as [|account listed] eqn:Hlisted.
  - simpl in Hrun. injection Hrun as <- <- <- <-.
    repeat split; try done. intros account Hin. by apply elem_of_nil in Hin.
  - rewrite <- Hlisted in *.
    assert ((0 <? length (List.filter
                            (fun account => negb (is_existing existing account))
                            (Provider.accounts data)))%nat
            || (0 <? length (List.filter (is_existing existing)
                                         (Provider.accounts data)))%nat = true)
      as Hsome.
    { apply orb_true_iff. rewrite !Nat.ltb_lt.
      rewrite Hlisted in Hcount |- *. simpl in Hcount. simpl. lia. }
    unfold defined in Hrun.
    destruct (Provider.institution_id data); [discriminate Hrun| |];
      (destruct (Provider.institution_name data); [discriminate Hrun| |]);
      unfold ret in Hrun; cbv beta iota zeta in Hrun;
      rewrite Hsome in Hrun;
      unfold commit_catalog, request in Hrun;
      (destruct (account_writes_refresh data logo existing (clock w)
                   (Provider.accounts data) (store w))
         as (d' & Hwrites & Hrefreshed & Hrest & _ & Htxs & _));
      cbv beta iota zeta in Hrun; rewrite Hwrites in Hrun;
      (destruct (faults w) as [|[|] fs]; [| |discriminate Hrun]);
      injection Hrun as <- <- <- <-;
      (split; [done|]; split; [exact Hcount|]; split;
       [intros acc Hin; apply Hrefreshed; right;
        by apply (list_elem_of_fmap_2 Provider.account_id)
       | split; [exact Hrest | exact Htxs]]).
Qed.

(** A provider with one account, for a user who has one other account
    stored; the logo lookup fails. *)
Lemma sync_accounts_refreshes_witness :
  let listed :=
    Provider.mkAccount "a2" (Val "Savings") Null (Val "1234") Null (Val "depository") in
  let accountsGet := fun _ : field string =>
    Some (Provider.mkAccountsData [listed] (Val "ins_1") (Val "First Bank")) in
  let institutionsGetById := fun _ : field string => @None (field string) in
  let old :=
    Account.mk (Val "a1") (Val "Checking") Null Null Null Null
               (Val "ins_1") (Val "First Bank") (Val "logo") (Val 1%Z) in
  let w := mkWorld
             (mkDb (tokens (store linked_world)) (<["a1" := old]> ∅) ∅ ∅ ∅)
             10%Z [] (fun _ => "auto") 0 in
  let w' := snd (sync_accounts accountsGet institutionsGetById w) in
  (exists doc,
     accounts (store w') !! "a2" = Some doc /\
     Account.institution_logo doc = Val "") /\
  accounts (store w') !! "a1" = Some old.
Proof.
  intros listed accountsGet institutionsGetById old w w'.
  destruct (sync_accounts_refreshes accountsGet institutionsGetById w 1 1 0 w')
    as (tokenDoc & data & _ & Hdata & _ & _ & Hlisted & Hrest & _);
    [vm_compute; reflexivity|].
  injection Hdata as <-. split.
  - destruct (Hlisted listed) as (doc & Hdoc & _ & Hlogo & _);
      [apply elem_of_cons; by left|].
    by exists doc.
  - rewrite Hrest; [vm_compute; reflexivity|].
    intros Hin. apply elem_of_cons in Hin as [Hin|Hin]; [done|].
    by apply elem_of_nil in Hin.
Defined.

(** ** Edit of a transaction *)

(** X24.  [PUT /transactions/:transactionId] on a stored transaction,
    when the write is accepted, answers with the stored result.  A given
    amount becomes [parseInt(amount)] while [outflow] and [inflow] stay
    as they were synced, so the three can disagree afterwards.  A category id that
    names no category is stored as given and the old category name stays
    beside it; a body that clears the category clears the name too; a
    body without category touches neither. *)
Theorem edit_transaction_fields :
  forall parseInt w transactionId tx request,
    transactions (store w) !! transactionId = Some tx ->
    head (faults w) <> Some false ->
    (forall categoryId category,
       e_category request = Val categoryId ->
       categories (store w) !! categoryId = Some category ->
       Category.name category <> Absent) ->
    exists w' tx',
      edit_transaction parseInt transactionId request w
      = (Ok (mkReply 200 (PTransaction transactionId tx')), w') /\
      transactions (store w')
      = <[transactionId := tx']> (transactions (store w)) /\
      Tx.amount tx'
      = merge_field (parsed_amount parseInt (e_amount request)) (Tx.amount tx) /\
      Tx.outflow tx' = Tx.outflow tx /\
      Tx.inflow tx' = Tx.inflow tx /\
      Tx.updatedAt tx' = Val (clock w) /\
      (e_category request = Absent ->
       Tx.category tx' = Tx.category tx /\
       Tx.categoryName tx' = Tx.categoryName tx) /\
      (forall categoryId,
         e_category request = Val categoryId ->
         categoryId <> "" ->
         categories (store w) !! categoryId = None ->
         Tx.category tx' = Val categoryId /\
         Tx.categoryName tx' = Tx.categoryName tx) /\
      (e_category request <> Absent ->
       or_null (e_category request) = None ->
       Tx.category tx' = e_category request /\
       Tx.categoryName tx' = Null).
Proof.
  intros parseInt w transactionId tx request Htx Hfault Hnamed.
  assert (exists categoryName,
            edited_category_name (e_category request) w = (Ok categoryName, w) /\
            (e_category request = Absent -> categoryName = Absent) /\
            (forall categoryId,
               e_category request = Val categoryId -> categoryId <> "" ->
               categories (store w) !! categoryId = None ->
               categoryName = Absent) /\
            (e_category request <> Absent ->
             or_null (e_category request) = None -> categoryName = Null))
    as (categoryName & Hname & Habsent & Hunknown & Hcleared).
  { unfold edited_category_name, bind, get_store, ret, defined.
    destruct (e_category request) as [| |categoryId] eqn:Hcategory.
    - by exists Absent.
    - by exists Null.
    - simpl. destruct (String.eqb categoryId "") eqn:Hempty.
      + exists Null. apply String.eqb_eq in Hempty.
        repeat split; try done. by intros ? [= <-] Hne.
      + destruct (categories (store w) !! categoryId) as [category|] eqn:Hdoc.
        * specialize (Hnamed categoryId category eq_refl Hdoc).
          exists (Category.name category).
          destruct (Category.name category); [done| |];
            (split; [reflexivity|]; split; [done|]; split; [|done];
             intros ? [= <-] _ Hnone; congruence).
        * exists Absent. by repeat split. }
  unfold edit_transaction, try_catch, bind, get_store, ret, commit.
  rewrite Htx, Hname. cbv beta iota zeta. simpl. rewrite Htx.
  destruct (faults w) as [|[|] fs]; try done;
    (eexists _, _; simpl; rewrite lookup_insert_eq; simpl;
     split; [reflexivity|]; split; [reflexivity|]; simpl;
     split; [reflexivity|]; split; [reflexivity|]; split; [reflexivity|];
     split; [reflexivity|]; split; [|split];
     [ intros Hcategory; rewrite Hcategory, (Habsent Hcategory); by split
     | intros categoryId Hcategory Hne Hnone;
       rewrite Hcategory, (Hunknown categoryId Hcategory Hne Hnone); by split
     | intros Hcategory Hnone; rewrite (Hcleared Hcategory Hnone);
       split; [by destruct (e_category request) | done] ]).
Qed.

(** The stored purchase gets a new amount and a category id that names
    no category: the outflow stays as synced and the old category name
    stays. *)
Lemma edit_transaction_fields_witness :
  let w := snd (sync_transactions one_page 5 linked_world) in
  let request := mkEdit Absent Absent (Val 500%float) Absent (Val "gone") in
  exists w' tx',
    edit_transaction (fun a => a) "t1" request w
    = (Ok (mkReply 200 (PTransaction "t1" tx')), w') /\
    Tx.amount tx' = Val 500%float /\
    Tx.outflow tx' = Val (0x1.1666666666666p+2 * 100)%float /\
    Tx.category tx' = Val "gone" /\
    Tx.categoryName tx' = Val "Groceries".
Proof.
  intros w request.
  destruct (edit_transaction_fields (fun a => a) w "t1"
              (default Tx.empty (transactions (store w) !! "t1")) request)
    as (w' & tx' & Hrun & _ & Hamount & Houtflow & _ & _ & _ & Hunknown & _);
    [vm_compute; reflexivity | done | |].
  - intros categoryId category [= <-]. vm_compute. discriminate.
  - exists w', tx'. split; [exact Hrun|].
    destruct (Hunknown "gone") as [Hcategory Hname];
      [reflexivity | done | vm_compute; reflexivity |].
    rewrite Hamount, Houtflow, Hcategory, Hname.
    vm_compute. by repeat split.
Defined.

(** * Removal markers and repeated syncs, through the handler *)

(** The transactions after a successful pass, document by document. *)
Lemma recategorize_Ok_lookup w result w' id :
  recategorizeAllTransactions w = (Ok result, w') ->
  transactions (store w') !! id
  = reconciled (snapshot_categories (store w)) (clock w)
    <$> transactions (store w) !! id.
Proof.
  intros Hrun.
  apply recategorize_Ok in Hrun as (_ & _ & [[Hzero ->] | [_ ->]]).
  - destruct (transactions (store w) !! id) as [tx|] eqn:Htx; [|done].
    simpl. f_equal. symmetry. apply reconciled_same_id.
    unfold changes in Hzero.
    pose proof (omap_nil_inv _ _ (id, tx) Hzero) as Hstep.
    rewrite recategorize_step_spec in Hstep.
    specialize (Hstep ltac:(by apply elem_of_docs_of)).
    case_bool_decide as Hsame; [done|].
    by destruct (decide (or_null (Tx.category tx)
                         = category_id_or_null
                             (reassign (snapshot_categories (store w)) tx))).
  - cbn [store committed reconciled_db set_transactions transactions].
    apply lookup_fmap.
Qed.





(** ** The same delta twice *)

(** An upserted id holds the data of one transaction of the list, the
    last with that id, merged over what was stored. *)
Lemma lookup_upserted_in cats ts id :
  In id (Plaid.transaction_id <$> ts) ->
  exists t,
    In t ts /\ Plaid.transaction_id t = id /\
    forall now txs,
      upserted cats ts now txs !! id
      = Some (Tx.merge (sync_data cats t now) (default Tx.empty (txs !! id))).
Proof.
  unfold upserted. induction ts as [|t ts IH]; intros Hin; [done|].
  destruct (in_dec String.string_dec id (Plaid.transaction_id <$> ts))
    as [Hts|Hts].
  - destruct (IH Hts) as (t' & Ht' & Hid & Hlookup).
    exists t'. split; [by right|]. split; [done|].
    intros now txs. simpl. rewrite Hlookup. f_equal. apply sync_data_covers.
    destruct (decide (Plaid.transaction_id t = id)) as [<-|Hne].
    + by rewrite lookup_set_merge_tx_eq.
    + by rewrite lookup_set_merge_tx_ne.
  - exists t. simpl in Hin. destruct Hin as [Heq|Hin]; [|done].
    split; [by left|]. split; [done|].
    intros now txs. simpl. rewrite lookup_foldl_set_merge_notin by done.
    subst id. apply lookup_set_merge_tx_eq.
Qed.

(** The record of an id after the batch of a sync, from the record
    before it. *)
Lemma lookup_synced cats pages now d id :
  transactions (synced cats pages now d) !! id
  = if bool_decide (id ∈ Plaid.removed_id <$> d_removed pages)
    then Some (Tx.merge (removed_data now)
                 (default Tx.empty
                    (upserted cats (d_added pages ++ d_modified pages) now
                              (transactions d) !! id)))
    else upserted cats (d_added pages ++ d_modified pages) now
                  (transactions d) !! id.
Proof.
  cbn [synced transactions]. case_bool_decide as Hin.
  - by apply lookup_marked_in, list_elem_of_In.
  - unfold marked. apply lookup_foldl_set_merge_notin.
    by rewrite <- list_elem_of_In.
Qed.

Lemma same_but_updatedAt_refl tx : same_but_updatedAt tx tx.
Proof. unfold same_but_updatedAt. by repeat split. Qed.

(** The data of an upsert at two times. *)
Lemma same_sync_data cats t now now' x y :
  Tx.removed x = Tx.removed y ->
  same_but_updatedAt (Tx.merge (sync_data cats t now) x)
                     (Tx.merge (sync_data cats t now') y).
Proof.
  intros Hremoved. unfold same_but_updatedAt, Tx.merge, sync_data. simpl.
  rewrite !merge_field_of_option, Hremoved.
  destruct (PrimFloat.ltb 0 (Plaid.amount t)),
           (PrimFloat.ltb (Plaid.amount t) 0); by repeat split.
Qed.

(** A marker on a record that is marked already. *)
Lemma same_marked now tx :
  Tx.removed tx = Val true ->
  same_but_updatedAt tx (Tx.merge (removed_data now) tx).
Proof.
  intros Hremoved. unfold same_but_updatedAt, Tx.merge, removed_data. simpl.
  by repeat split.
Qed.

Lemma reassign_same cats a b :
  same_but_updatedAt a b -> reassign cats b = reassign cats a.
Proof.
  intros (_ & _ & _ & Hname & Hmerchant & _ & _ & _ & _ & _ & _ & Hpf & _).
  unfold reassign. by rewrite Hname, Hmerchant, Hpf.
Qed.

(** The reconciliation at two times. *)
Lemma same_reconciled cats now now' a b :
  same_but_updatedAt a b ->
  same_but_updatedAt (reconciled cats now a) (reconciled cats now' b).
Proof.
  intros Hsame. unfold reconciled.
  rewrite (reassign_same cats a b Hsame).
  destruct Hsame
    as (? & ? & ? & ? & ? & ? & ? & ? & ? & ? & ? & ? & Hcategory & ? & ?).
  rewrite Hcategory.
  case_bool_decide; unfold same_but_updatedAt, Tx.merge; simpl;
    rewrite ?merge_field_of_option; by repeat split.
Qed.

(** A record that carries the computed category, with another
    [updatedAt], is left alone by a pass. *)
Lemma reconciled_same cats now now' a b :
  same_but_updatedAt (reconciled cats now a) b ->
  reconciled cats now' b = b.
Proof.
  intros Hsame. apply reconciled_same_id.
  rewrite (reassign_same cats _ b Hsame), reassign_reconciled.
  destruct Hsame
    as (_ & _ & _ & _ & _ & _ & _ & _ & _ & _ & _ & _ & -> & _).
  apply reconciled_category.
Qed.

(** A pass leaves [updatedAt] or stamps it with its own time. *)
Lemma reconciled_updatedAt cats now tx :
  Tx.updatedAt (reconciled cats now tx) = Tx.updatedAt tx \/
  Tx.updatedAt (reconciled cats now tx) = Val now.
Proof. unfold reconciled. case_bool_decide; [by right | by left]. Qed.

(** The page loop with a provider that has one page. *)
Lemma fetch_one_page page fuel access_token cursor :
  Plaid.has_more page = false ->
  fetch_pages (fun _ _ => Some page) (S fuel) access_token cursor [] [] []
  = Ok (page_delta page).
Proof. intros Hmore. simpl. by rewrite Hmore. Qed.

(** An upsert followed by a marker, at two times. *)
Lemma same_marked_sync_data cats t now now' x y :
  same_but_updatedAt
    (Tx.merge (removed_data now) (Tx.merge (sync_data cats t now) x))
    (Tx.merge (removed_data now') (Tx.merge (sync_data cats t now') y)).
Proof.
  unfold same_but_updatedAt, Tx.merge, sync_data, removed_data. simpl.
  rewrite !merge_field_of_option.
  destruct (PrimFloat.ltb 0 (Plaid.amount t)),
           (PrimFloat.ltb (Plaid.amount t) 0); by repeat split.
Qed.

Lemma reconciled_removed cats now tx :
  Tx.removed (reconciled cats now tx) = Tx.removed tx.
Proof. unfold reconciled. by case_bool_decide. Qed.

(** A sync with a provider that has one page, in a world whose store
    accepts every request: the batch is committed and the reconciliation
    succeeds. *)
Lemma sync_one_page page fuel w tokenDoc :
  tokens (store w) = Some tokenDoc ->
  Plaid.has_more page = false ->
  doc_refs (delta_ids (page_delta page)) = Ok tt ->
  faults w = [] ->
  exists result w',
    sync_transactions (fun _ _ => Some page) (S fuel) w
    = (Ok (mkResponse 200
             (SyncBody (length (Plaid.added page))
                       (length (Plaid.modified page))
                       (length (Plaid.removed page)) (updated result))), w') /\
    recategorizeAllTransactions
      (committed (synced (snapshot_categories (store w)) (page_delta page)
                         (clock w) (store w)) w)
    = (Ok result, w') /\
    faults w' = [].
Proof.
  intros Htokens Hmore Hrefs Hfaults.
  rewrite sync_run, Htokens, (fetch_one_page _ _ _ _ Hmore), Hrefs, Hfaults.
  cbv zeta.
  generalize (committed (synced (snapshot_categories (store w))
                                (page_delta page) (clock w) (store w)) w)
             (eq_refl : faults (committed (synced (snapshot_categories (store w))
                                (page_delta page) (clock w) (store w)) w)
                        = tail (faults w)).
  rewrite Hfaults. intros w1 Hfaults1. cbn [tail] in Hfaults1.
  rewrite recategorize_run, Hfaults1.
  destruct (0 <? changes (store w1))%nat;
    (eexists _, _; split; [reflexivity|]; split; [reflexivity|]);
    [cbn; by rewrite Hfaults1 | done].
Qed.

(** C6.  Through the handler: two syncs in a row to which the provider
    delivers the same delta, with a store that accepts every request.
    Both answer 200.  After the second the store holds the same
    transaction records as after the first, and every record has every
    field as before but for [updatedAt]: the records of the delta carry
    a strictly later [updatedAt] - each upsert, each marker and each
    update of the reconciliation stamps the time of its commit - and the
    records outside the delta are exactly as they were.  No record is
    added or lost, since each is written by a merge keyed by the
    provider's id; accounts, budgets and categories are untouched. *)
Theorem upsert_idempotent :
  forall page fuel w tokenDoc,
    tokens (store w) = Some tokenDoc ->
    Plaid.has_more page = false ->
    doc_refs (delta_ids (page_delta page)) = Ok tt ->
    faults w = [] ->
    let sync := sync_transactions (fun _ _ => Some page) (S fuel) in
    let answer recategorized :=
      mkResponse 200
        (SyncBody (length (Plaid.added page)) (length (Plaid.modified page))
                  (length (Plaid.removed page)) recategorized) in
    exists n1 n2 once twice,
      sync w = (Ok (answer n1), once) /\
      sync once = (Ok (answer n2), twice) /\
      accounts (store twice) = accounts (store once) /\
      budgets (store twice) = budgets (store once) /\
      categories (store twice) = categories (store once) /\
      forall id,
        match transactions (store once) !! id,
              transactions (store twice) !! id with
        | Some tx, Some tx' =>
            same_but_updatedAt tx tx' /\
            if bool_decide (id ∈ delta_ids (page_delta page))
            then exists t t',
                   Tx.updatedAt tx = Val t /\ Tx.updatedAt tx' = Val t' /\
                   (t < t')%Z
            else tx' = tx
        | None, None => id ∉ delta_ids (page_delta page)
        | _, _ => False
        end.
Proof.
  intros page fuel w tokenDoc Htokens Hmore Hrefs Hfaults sync answer.
  subst sync answer. cbv beta.
  set (D := page_delta page) in *.
  set (cats := snapshot_categories (store w)).
  set (n := clock w).
  (* the first sync *)
  destruct (sync_one_page page fuel w tokenDoc Htokens Hmore Hrefs Hfaults)
    as (r1 & once & Hsync1 & Hrecat1 & Hfaults1).
  fold D cats n in Hrecat1.
  destruct (recategorize_keeps_catalog (committed (synced cats D n (store w)) w))
    as (Htok1 & Hacc1 & Hbud1 & Hcat1).
  rewrite Hrecat1 in Htok1, Hacc1, Hbud1, Hcat1.
  cbn [snd store committed synced tokens accounts budgets categories]
    in Htok1, Hacc1, Hbud1, Hcat1.
  assert (snapshot_categories (store once) = cats) as Hsnapshot.
  { unfold cats, snapshot_categories. by rewrite Hcat1. }
  set (m := clock once).
  (* the second sync *)
  destruct (sync_one_page page fuel once _ Htok1 Hmore Hrefs Hfaults1)
    as (r2 & twice & Hsync2 & Hrecat2 & _).
  fold D m in Hrecat2. rewrite Hsnapshot in Hrecat2.
  destruct (recategorize_keeps_catalog (committed (synced cats D m (store once)) once))
    as (_ & Hacc2 & Hbud2 & Hcat2).
  rewrite Hrecat2 in Hacc2, Hbud2, Hcat2.
  cbn [snd store committed synced tokens accounts budgets categories]
    in Hacc2, Hbud2, Hcat2.
  exists (updated r1), (updated r2), once, twice.
  split; [exact Hsync1|]. split; [exact Hsync2|].
  split; [exact Hacc2|]. split; [exact Hbud2|]. split; [exact Hcat2|].
  (* the records, one by one *)
  assert (forall id,
            transactions (store once) !! id
            = reconciled cats (n + 1)%Z
              <$> transactions (synced cats D n (store w)) !! id) as Honce.
  { intros id. by rewrite (recategorize_Ok_lookup _ _ _ id Hrecat1). }
  assert (forall id,
            transactions (store twice) !! id
            = reconciled cats (m + 1)%Z
              <$> transactions (synced cats D m (store once)) !! id) as Htwice.
  { intros id. rewrite (recategorize_Ok_lookup _ _ _ id Hrecat2).
    cbn [store committed clock]. fold m.
    assert (snapshot_categories (synced cats D m (store once)) = cats)
      as -> by exact Hsnapshot.
    reflexivity. }
  assert ((m = (n + 1)%Z /\
           forall id, transactions (store once) !! id
                      = transactions (synced cats D n (store w)) !! id) \/
          m = (n + 2)%Z) as Hclock.
  { apply recategorize_Ok in Hrecat1 as (_ & _ & [[_ ->] | [_ ->]]).
    - left. by split.
    - right. unfold m, n. cbn [clock committed]. lia. }
  assert (forall id u y',
            transactions (synced cats D n (store w)) !! id = Some u ->
            Tx.updatedAt u = Val n ->
            Tx.updatedAt y' = Val m \/ Tx.updatedAt y' = Val (m + 1)%Z ->
            exists t t',
              Tx.updatedAt (reconciled cats (n + 1)%Z u) = Val t /\
              Tx.updatedAt y' = Val t' /\ (t < t')%Z) as Hlater.
  { intros id u y' Hu Hstamp Hy'.
    assert (exists t, Tx.updatedAt (reconciled cats (n + 1)%Z u) = Val t /\
                      (t < m)%Z) as (t & Ht & Hlt).
    { destruct Hclock as [[Hm Hsame] | Hm].
      - exists n. split; [|lia].
        specialize (Hsame id). rewrite Honce, Hu in Hsame.
        injection Hsame as ->. exact Hstamp.
      - destruct (reconciled_updatedAt cats (n + 1)%Z u) as [Hkeep|Hnew].
        + exists n. split; [by rewrite Hkeep | lia].
        + exists (n + 1)%Z. split; [exact Hnew | lia]. }
    exists t. destruct Hy' as [Hy'|Hy']; eexists; (split; [exact Ht|]);
      (split; [exact Hy'|]); lia. }
  assert (forall u, Tx.updatedAt u = Val m ->
                    Tx.updatedAt (reconciled cats (m + 1)%Z u) = Val m \/
                    Tx.updatedAt (reconciled cats (m + 1)%Z u) = Val (m + 1)%Z)
    as Hstamped.
  { intros u Hu.
    destruct (reconciled_updatedAt cats (m + 1)%Z u) as [Hkeep|Hnew];
      [left; by rewrite Hkeep | by right]. }
  intros id.
  set (ts := d_added D ++ d_modified D) in *.
  assert (id ∈ delta_ids D
          <-> id ∈ Plaid.transaction_id <$> ts \/
              id ∈ Plaid.removed_id <$> d_removed D) as Hdelta.
  { unfold delta_ids. fold ts. apply elem_of_app. }
  (* both batches on an id they write, by what they leave there *)
  assert (forall u1 u2,
            transactions (synced cats D n (store w)) !! id = Some u1 ->
            transactions (synced cats D m (store once)) !! id = Some u2 ->
            Tx.updatedAt u1 = Val n ->
            Tx.updatedAt u2 = Val m ->
            same_but_updatedAt (reconciled cats (n + 1)%Z u1)
                               (reconciled cats (m + 1)%Z u2) ->
            id ∈ delta_ids D ->
            match transactions (store once) !! id,
                  transactions (store twice) !! id with
            | Some tx, Some tx' =>
                same_but_updatedAt tx tx' /\
                if bool_decide (id ∈ delta_ids D)
                then exists t t',
                       Tx.updatedAt tx = Val t /\ Tx.updatedAt tx' = Val t' /\
                       (t < t')%Z
                else tx' = tx
            | None, None => id ∉ delta_ids D
            | _, _ => False
            end) as Hwritten.
  { intros u1 u2 Hu1 Hu2 Hstamp1 Hstamp2 Hsame Hin.
    rewrite (Honce id), (Htwice id), Hu1, Hu2.
    cbn [fmap option_fmap option_map].
    split; [exact Hsame|]. rewrite (bool_decide_eq_true_2 _ Hin).
    apply (Hlater id); [exact Hu1 | exact Hstamp1 |]. by apply Hstamped. }
  destruct (decide (id ∈ Plaid.transaction_id <$> ts)) as [Hin|Hnin].
  - (* an upserted id *)
    apply list_elem_of_In in Hin as Hin'.
    destruct (lookup_upserted_in cats ts id Hin') as (t & _ & _ & Hup).
    set (x0 := default Tx.empty (transactions (store w) !! id)).
    set (x1 := default Tx.empty (transactions (store once) !! id)).
    destruct (bool_decide (id ∈ Plaid.removed_id <$> d_removed D)) eqn:Hmarked.
    + apply (Hwritten
               (Tx.merge (removed_data n) (Tx.merge (sync_data cats t n) x0))
               (Tx.merge (removed_data m) (Tx.merge (sync_data cats t m) x1))).
      * rewrite lookup_synced, Hmarked. fold ts. by rewrite Hup.
      * rewrite lookup_synced, Hmarked. fold ts. by rewrite Hup.
      * reflexivity.
      * reflexivity.
      * apply same_reconciled, same_marked_sync_data.
      * apply Hdelta. by left.
    + assert (transactions (synced cats D n (store w)) !! id
              = Some (Tx.merge (sync_data cats t n) x0)) as Hbatch.
      { rewrite lookup_synced, Hmarked. fold ts. by rewrite Hup. }
      apply (Hwritten (Tx.merge (sync_data cats t n) x0)
                      (Tx.merge (sync_data cats t m) x1)).
      * exact Hbatch.
      * rewrite lookup_synced, Hmarked. fold ts. by rewrite Hup.
      * reflexivity.
      * reflexivity.
      * apply same_reconciled, same_sync_data. subst x1.
        rewrite (Honce id), Hbatch.
        change (Tx.removed x0
                = Tx.removed (reconciled cats (n + 1)%Z
                                (Tx.merge (sync_data cats t n) x0))).
        by rewrite reconciled_removed.
      * apply Hdelta. by left.
  - (* an id that is not upserted *)
    assert (~ In id (Plaid.transaction_id <$> ts)) as Hnin'
      by (by rewrite <- list_elem_of_In).
    assert (forall now d,
              upserted cats ts now (transactions d) !! id = transactions d !! id)
      as Hup.
    { intros now d. unfold upserted. by apply lookup_foldl_set_merge_notin. }
    destruct (bool_decide (id ∈ Plaid.removed_id <$> d_removed D)) eqn:Hmarked.
    + (* marked only *)
      set (u := Tx.merge (removed_data n)
                         (default Tx.empty (transactions (store w) !! id))).
      set (y := reconciled cats (n + 1)%Z u).
      assert (transactions (synced cats D n (store w)) !! id = Some u) as Hbatch.
      { rewrite lookup_synced, Hmarked. fold ts. by rewrite Hup. }
      assert (transactions (store once) !! id = Some y) as Hy.
      { by rewrite (Honce id), Hbatch. }
      assert (same_but_updatedAt y (Tx.merge (removed_data m) y)) as Hsame.
      { apply same_marked. subst y. by rewrite reconciled_removed. }
      apply (Hwritten u (Tx.merge (removed_data m) y)).
      * exact Hbatch.
      * rewrite lookup_synced, Hmarked. fold ts. by rewrite Hup, Hy.
      * reflexivity.
      * reflexivity.
      * by rewrite (reconciled_same cats (n + 1)%Z (m + 1)%Z u _ Hsame).
      * apply Hdelta. right. by apply bool_decide_eq_true in Hmarked.
    + (* outside the delta *)
      pose proof (proj1 (bool_decide_eq_false _) Hmarked) as Hnotmarked.
      assert (id ∉ delta_ids D) as Hout by (rewrite Hdelta; tauto).
      rewrite (Htwice id), lookup_synced, Hmarked. fold ts. rewrite Hup.
      rewrite (Honce id), lookup_synced, Hmarked. fold ts. rewrite Hup.
      destruct (transactions (store w) !! id) as [x0|];
        cbn [fmap option_fmap option_map]; [|exact Hout].
      rewrite (reconciled_same cats (n + 1)%Z (m + 1)%Z x0 _
                 (same_but_updatedAt_refl _)).
      split; [apply same_but_updatedAt_refl|].
      by rewrite (bool_decide_eq_false_2 _ Hout).
Qed.

(** The purchase of the example, delivered twice. *)
Lemma upsert_idempotent_witness :
  let page := Plaid.mkPage [purchase] [] [] "cursor-1" false in
  let sync := sync_transactions (fun _ _ => Some page) 5 in
  exists once twice tx tx',
    snd (sync linked_world) = once /\
    snd (sync once) = twice /\
    transactions (store once) !! "t1" = Some tx /\
    transactions (store twice) !! "t1" = Some tx' /\
    same_but_updatedAt tx tx'.
Proof.
  intros page sync.
  destruct (upsert_idempotent page 4 linked_world
              (Token.mk (Val "access-1") (Val "item-1") Absent Absent (Val 1%Z)))
    as (n1 & n2 & once & twice & Hfirst & Hsecond & _ & _ & _ & Hrecords);
    [reflexivity | reflexivity | reflexivity | reflexivity |].
  exists once, twice. specialize (Hrecords "t1").
  destruct (transactions (store once) !! "t1") as [tx|];
    destruct (transactions (store twice) !! "t1") as [tx'|];
    try contradiction.
  - exists tx, tx'. subst sync. rewrite Hfirst, Hsecond.
    destruct Hrecords as [Hsame _].
    exact (conj eq_refl (conj eq_refl (conj eq_refl (conj eq_refl Hsame)))).
  - exfalso. apply Hrecords. vm_compute. by left.
Defined.

(** The claim as the specification words it fails on the code: the
    provider delivers the same purchase to two syncs in a row; both
    answer 200, and the record of the purchase carries the time 10 after
    the first and the time 11 after the second, so the store after the
    two is not the store after the one. *)
Lemma upsert_twice_restamps :
  let first := sync_transactions one_page 5 linked_world in
  let second := sync_transactions one_page 5 (snd first) in
  fst first = Ok (mkResponse 200 (SyncBody 1 0 0 0)) /\
  fst second = Ok (mkResponse 200 (SyncBody 1 0 0 0)) /\
  Tx.updatedAt <$> transactions (store (snd first)) !! "t1"
  = Some (Val 10%Z) /\
  Tx.updatedAt <$> transactions (store (snd second)) !! "t1"
  = Some (Val 11%Z) /\
  transactions (store (snd second)) !! "t1"
  <> transactions (store (snd first)) !! "t1".
Proof.
  intros first second. subst first second.
  refine (conj _ (conj _ (conj _ (conj _ _)))); try (vm_compute; reflexivity).
  vm_compute. discriminate.
Qed.
